(** * cluster-api: planner, reconciliation engine, drift detector, snapshots

    A shallow embedding of the Go packages [pkg/api], [pkg/engine],
    [pkg/planner], [pkg/drift], [pkg/snapshot] and [reconciler], with the
    two methods of the aws and azure providers the reconciler depends on,
    followed by the properties of the specification stated over that
    embedding (C1 to C10) and by further properties of the code (X1 to X30).
    Left out are [pkg/cost], whose results are [float64] sums and products,
    [pkg/state], which works through [database/sql], and the command line.

    Conventions of the embedding.
    - A Go [map[string]T] is a [gmap string T].  A [for k, v := range m]
      loop visits the entries in an order the language leaves open, and two
      loops over the same map may use two different orders; every such loop
      takes the order it follows as an argument, a list that [ranges] the map.
    - A Go slice is a [list]; [append] adds at the end.
    - Map values of pointer type ([*api.Cluster]) are modelled by the value
      pointed to; nil entries are outside the model.
    - A Go [error] is its message, [nil] is [None].
    - Struct fields carry the name of their struct as a prefix, since Rocq
      has one name space for projections.  Fields of type [time.Time],
      [float64] and [interface{}] inside resources and states are left out:
      the planner, the engine, the detector and the reconciler do not read
      them.  [encoding/json] writes them as well, so the text of a resource
      is the text Go writes without the entries of these fields. *)

From Stdlib Require Import ZArith String Ascii List Lia.
From Stdlib Require Import DecimalString HexadecimalString.
From Stdlib Require HexadecimalN HexadecimalPos.
From stdpp Require Import base option list gmap strings fin_maps sorting pretty.

#[global] Set Warnings "-register-all,-clear-no-such-hyp".

Local Open Scope string_scope.
Local Open Scope list_scope.
Local Open Scope Z_scope.

(** ** Errors and results *)

Definition error := string.

Inductive result (A : Type) : Type :=
| Ok (a : A)
| Err (e : error).
Arguments Ok {A} a.
Arguments Err {A} e.

(** The line feed, written [\n] in a Go string literal. *)
Definition newline : string := String (ascii_of_nat 10) EmptyString.

(** [l] is an order in which a [range] loop may visit the map [m]. *)
Definition ranges {A} (m : gmap string A) (l : list (string * A)) : Prop :=
  l ≡ₚ map_to_list m.

(** ** Package api (pkg/api/types.go) *)

Module api.

Record ResourceMetadata := {
  ResourceMetadata_Name : string;
  ResourceMetadata_Namespace : string;
  ResourceMetadata_Labels : gmap string string;
  ResourceMetadata_Annotations : gmap string string
}.

Record ResourceStatus := {
  ResourceStatus_Phase : string;
  ResourceStatus_Message : string;
  ResourceStatus_Properties : gmap string string
}.

Record Subnet := {
  Subnet_Name : string;
  Subnet_CIDR : string;
  Subnet_AvailabilityZone : string;
  Subnet_Public : bool
}.

Record NetworkSpec := {
  NetworkSpec_VPCCIDR : string;
  NetworkSpec_AvailabilityZones : list string;
  NetworkSpec_Subnets : list Subnet;
  NetworkSpec_NATGateway : bool;
  NetworkSpec_PrivateCluster : bool
}.

Record IdentitySpec := {
  IdentitySpec_Type : string;
  IdentitySpec_ServiceAccounts : list string;
  IdentitySpec_RoleARN : string
}.

Record ControlPlaneSpec := {
  ControlPlaneSpec_Type : string;
  ControlPlaneSpec_Version : string;
  ControlPlaneSpec_InstanceType : string;
  ControlPlaneSpec_Count : Z;
  ControlPlaneSpec_HA : bool;
  ControlPlaneSpec_Identity : option IdentitySpec
}.

Record SpotConfig := {
  SpotConfig_Enabled : bool
}.

Record Taint := {
  Taint_Key : string;
  Taint_Value : string;
  Taint_Effect : string
}.

Record WorkerPoolSpec := {
  WorkerPoolSpec_Name : string;
  WorkerPoolSpec_InstanceType : string;
  WorkerPoolSpec_MinSize : Z;
  WorkerPoolSpec_MaxSize : Z;
  WorkerPoolSpec_DesiredSize : Z;
  WorkerPoolSpec_Spot : option SpotConfig;
  WorkerPoolSpec_Labels : gmap string string;
  WorkerPoolSpec_Taints : list Taint
}.

Record ClusterSpec := {
  ClusterSpec_Provider : string;
  ClusterSpec_Region : string;
  ClusterSpec_Network : NetworkSpec;
  ClusterSpec_ControlPlane : ControlPlaneSpec;
  ClusterSpec_WorkerPools : list WorkerPoolSpec;
  ClusterSpec_Tags : gmap string string
}.

(** [Resource[T any]] *)
Record Resource (T : Type) := {
  Resource_ID : string;
  Resource_Metadata : ResourceMetadata;
  Resource_Spec : T;
  Resource_Status : ResourceStatus
}.
Arguments Resource_ID {T} _.
Arguments Resource_Metadata {T} _.
Arguments Resource_Spec {T} _.
Arguments Resource_Status {T} _.

Definition Cluster := Resource ClusterSpec.
Definition NodePool := Resource WorkerPoolSpec.

Definition EventType := string.
Definition EventCreated : EventType := "Created".
Definition EventUpdated : EventType := "Updated".
Definition EventDeleted : EventType := "Deleted".
Definition EventFailed : EventType := "Failed".

Record ResourceID := {
  ResourceID_Provider : string;
  ResourceID_Kind : string;
  ResourceID_ID : string;
  ResourceID_Name : string
}.

End api.
Import api.

#[global] Instance ResourceID_eq_dec : EqDecision ResourceID.
Proof. solve_decision. Defined.

(** ** A state-and-error monad

    [M W A] is a computation over a world [W] that returns an [A] or fails
    with an error.  The world is kept on failure: Go does not undo the
    effects a function had before it returned an error. *)

Definition M (W A : Type) : Type := W → result A * W.

Definition ret {W A} (a : A) : M W A := λ w, (Ok a, w).
Definition throw {W A} (e : error) : M W A := λ w, (Err e, w).
Definition bind {W A B} (c : M W A) (k : A → M W B) : M W B :=
  λ w, match c w with
       | (Ok a, w') => k a w'
       | (Err e, w') => (Err e, w')
       end.
Definition gets {W A} (f : W → A) : M W A := λ w, (Ok (f w), w).
Definition modify {W} (f : W → W) : M W unit := λ w, (Ok tt, f w).
(** [if err := c; err != nil { return wrap(err) }] *)
Definition wrap_err {W A} (f : error → error) (c : M W A) : M W A :=
  λ w, match c w with
       | (Ok a, w') => (Ok a, w')
       | (Err e, w') => (Err (f e), w')
       end.
(** [fmt.Errorf("<msg>: %w", err)] *)
Definition Errorf_w (msg : string) (e : error) : error := msg +:+ ": " +:+ e.

Declare Scope go_scope.
Delimit Scope go_scope with go.
Notation "x ← y ; z" := (bind y (λ x : _, z))
  (at level 20, y at level 100, z at level 200, only parsing) : go_scope.
Notation "x ;; z" := (bind x (λ _, z))
  (at level 100, z at level 200, only parsing, right associativity) : go_scope.
Local Open Scope go_scope.

(** ** Time and logging

    A [time.Time] is the instant it denotes, in nanoseconds since the Unix
    epoch; [time.Now()] is an input of the functions that call it. *)

Definition Time := Z.

(** An [interface{}] holding a string or an int. *)
Inductive Value :=
| Value_string (s : string)
| Value_int (n : Z).

#[global] Instance Value_eq_dec : EqDecision Value.
Proof. solve_decision. Defined.

Inductive Level := LevelDebug | LevelInfo | LevelWarn | LevelError.

#[global] Instance Level_eq_dec : EqDecision Level.
Proof. solve_decision. Defined.

(** One record written through [slog.Logger]: level, message, attributes. *)
Record LogRecord := {
  LogRecord_level : Level;
  LogRecord_msg : string;
  LogRecord_attrs : list (string * Value)
}.

#[global] Instance LogRecord_eq_dec : EqDecision LogRecord.
Proof. solve_decision. Defined.

(** ** Package engine (pkg/engine/provider.go) *)

Module engine.

(** [State]; the [Networks] and [Metadata] maps hold [interface{}] values. *)
Record State := {
  State_Clusters : gmap string Cluster;
  State_NodePools : gmap string NodePool
}.

(** [State{}], the zero value *)
Definition State_zero : State :=
  {| State_Clusters := ∅; State_NodePools := ∅ |}.

Definition ActionType := string.
Definition ActionCreate : ActionType := "create".
Definition ActionUpdate : ActionType := "update".
Definition ActionDelete : ActionType := "delete".
Definition ActionNoop : ActionType := "noop".

(** The values the planner stores in [Action.Parameters]
    ([map[string]interface{}]). *)
Inductive ParamValue :=
| Param_ClusterSpec (spec : ClusterSpec)
| Param_WorkerPoolSpec (spec : WorkerPoolSpec).

Record Action := {
  Action_Type : ActionType;
  Action_Resource : ResourceID;
  Action_Parameters : gmap string ParamValue
}.

Record Plan := {
  Plan_Actions : list Action
}.

(** [api.Event] as [Apply] fills it in; [ID], [Timestamp] and [Actor] keep
    their zero values there. *)
Record Event := {
  Event_Type : EventType;
  Event_Resource : ResourceID;
  Event_Payload : gmap string ParamValue
}.

(** [CloudProvider]: the two methods the embedded packages call.
    [Reconcile] is declared to return a [Plan]; the drift detector, its only
    caller, reads the result's [Clusters], and is embedded as it is written. *)
Record CloudProvider := {
  CloudProvider_Name : string;
  CloudProvider_Reconcile : State → State → result State
}.

(** [EventStore]: [RecordEvent] answers with an error or nil and may change
    the store. *)
Class EventStore (ES : Type) := {
  RecordEvent : ES → Event → option error * ES
}.

(** What [Apply] does to its collaborators, in order.  [Call_executeAction]
    marks the entry into [executeAction]: [executeCreate], [executeUpdate]
    and [executeDelete] have empty bodies. *)
Inductive Call :=
| Call_BeginTransaction
| Call_executeAction (action : Action)
| Call_RecordEvent (event : Event)
| Call_Commit
| Call_Rollback.

Record Engine := {
  Engine_providers : gmap string CloudProvider
}.

(** [NewEngine] *)
Definition NewEngine : Engine := {| Engine_providers := ∅ |}.

Definition RegisterProvider (e : Engine) (provider : CloudProvider) : Engine :=
  {| Engine_providers := <[CloudProvider_Name provider := provider]> (Engine_providers e) |}.

(** [GetProvider]: nil when the name is not registered *)
Definition GetProvider (e : Engine) (name : string) : option CloudProvider :=
  Engine_providers e !! name.

Definition ErrProviderNotFound : error := "PROVIDER_NOT_FOUND: provider not found".

Definition toEventType (actionType : ActionType) : EventType :=
  if decide (actionType = ActionCreate) then EventCreated
  else if decide (actionType = ActionUpdate) then EventUpdated
  else if decide (actionType = ActionDelete) then EventDeleted
  else "".

Section Apply.
Context {ES : Type} `{!EventStore ES}.

(** The world of one [Apply]: the event store and the calls made so far. *)
Record World := {
  World_events : ES;
  World_calls : list Call
}.

Definition call (c : Call) : M World unit :=
  modify (λ w, {| World_events := World_events w; World_calls := World_calls w ++ [c] |}).

Definition executeCreate (e : Engine) (provider : CloudProvider) (action : Action) : M World unit :=
  ret tt.
Definition executeUpdate (e : Engine) (provider : CloudProvider) (action : Action) : M World unit :=
  ret tt.
Definition executeDelete (e : Engine) (provider : CloudProvider) (action : Action) : M World unit :=
  ret tt.

Definition executeAction (e : Engine) (action : Action) : M World unit :=
  call (Call_executeAction action) ;;
  match GetProvider e (ResourceID_Provider (Action_Resource action)) with
  | None => throw ErrProviderNotFound
  | Some provider =>
      if decide (Action_Type action = ActionCreate) then executeCreate e provider action
      else if decide (Action_Type action = ActionUpdate) then executeUpdate e provider action
      else if decide (Action_Type action = ActionDelete) then executeDelete e provider action
      else if decide (Action_Type action = ActionNoop) then ret tt
      else ret tt
  end.

(** [e.events.RecordEvent(ctx, event)] *)
Definition recordEvent (event : Event) : M World unit :=
  λ w, let '(answer, es) := RecordEvent (World_events w) event in
       let w' := {| World_events := es;
                    World_calls := World_calls w ++ [Call_RecordEvent event] |} in
       match answer with
       | None => (Ok tt, w')
       | Some err => (Err err, w')
       end.

(** The body of [for _, action := range plan.Actions], which returns from
    [Apply] at the first error. *)
Fixpoint Apply_loop (e : Engine) (actions : list Action) : M World unit :=
  match actions with
  | [] => ret tt
  | action :: rest =>
      executeAction e action ;;
      recordEvent {| Event_Type := toEventType (Action_Type action);
                     Event_Resource := Action_Resource action;
                     Event_Payload := Action_Parameters action |} ;;
      Apply_loop e rest
  end.

(** [Apply].  [commit] is the answer of [tx.Commit()].  The deferred
    [tx.Rollback()] runs on every way out, after [Commit] on the last one;
    its answer is dropped. *)
Definition Apply (commit : option error) (e : Engine) (plan : Plan) : M World unit :=
  λ w,
    let '(r, w) := (call Call_BeginTransaction ;; Apply_loop e (Plan_Actions plan)) w in
    match r with
    | Err err => (Err err, snd (call Call_Rollback w))
    | Ok _ =>
        let w := snd (call Call_Commit w) in
        let w := snd (call Call_Rollback w) in
        (match commit with None => Ok tt | Some err => Err err end, w)
    end.

End Apply.
Arguments World : clear implicits.

End engine.
Import engine.

(** ** Package planner (pkg/planner/planner.go) *)

Module planner.

Definition needsUpdate (desired actual : Cluster) : bool :=
  bool_decide (ControlPlaneSpec_Version (ClusterSpec_ControlPlane (Resource_Spec desired))
               ≠ ControlPlaneSpec_Version (ClusterSpec_ControlPlane (Resource_Spec actual))).

(** [plan.Actions = append(plan.Actions, action)] *)
Definition append_action (plan : Plan) (action : Action) : Plan :=
  {| Plan_Actions := Plan_Actions plan ++ [action] |}.

(** A [for id, v := range m] loop whose body updates the plan; [order] is
    the order in which the loop visits [m]. *)
Definition for_range {V} (order : list (string * V)) (body : string → V → Plan → Plan)
    (plan : Plan) : Plan :=
  foldl (λ plan kv, body kv.1 kv.2 plan) plan order.

(** The orders in which the four loops of [GeneratePlan] visit their maps. *)
Record Orders := {
  Orders_create : list (string * Cluster);
  Orders_update : list (string * Cluster);
  Orders_delete : list (string * Cluster);
  Orders_pools : list (string * NodePool)
}.

Definition GeneratePlan (o : Orders) (desired actual : State) : Plan * option error :=
  let plan := {| Plan_Actions := [] |} in
  (* Determine clusters to create *)
  let plan :=
    for_range (Orders_create o) (λ id cluster plan,
      match State_Clusters actual !! id with
      | None =>
          append_action plan
            {| Action_Type := ActionCreate;
               Action_Resource :=
                 {| ResourceID_Provider := ClusterSpec_Provider (Resource_Spec cluster);
                    ResourceID_Kind := "Cluster";
                    ResourceID_ID := id;
                    ResourceID_Name := ResourceMetadata_Name (Resource_Metadata cluster) |};
               Action_Parameters := {[ "spec" := Param_ClusterSpec (Resource_Spec cluster) ]} |}
      | Some _ => plan
      end) plan in
  (* Determine clusters to update *)
  let plan :=
    for_range (Orders_update o) (λ id desiredCluster plan,
      match State_Clusters actual !! id with
      | Some actualCluster =>
          if needsUpdate desiredCluster actualCluster then
            append_action plan
              {| Action_Type := ActionUpdate;
                 Action_Resource :=
                   {| ResourceID_Provider := ClusterSpec_Provider (Resource_Spec desiredCluster);
                      ResourceID_Kind := "Cluster";
                      ResourceID_ID := id;
                      ResourceID_Name := ResourceMetadata_Name (Resource_Metadata desiredCluster) |};
                 Action_Parameters :=
                   {[ "spec" := Param_ClusterSpec (Resource_Spec desiredCluster) ]} |}
          else plan
      | None => plan
      end) plan in
  (* Determine clusters to delete *)
  let plan :=
    for_range (Orders_delete o) (λ id cluster plan,
      match State_Clusters desired !! id with
      | None =>
          append_action plan
            {| Action_Type := ActionDelete;
               Action_Resource :=
                 {| ResourceID_Provider := ClusterSpec_Provider (Resource_Spec cluster);
                    ResourceID_Kind := "Cluster";
                    ResourceID_ID := id;
                    ResourceID_Name := ResourceMetadata_Name (Resource_Metadata cluster) |};
               Action_Parameters := ∅ |}
      | Some _ => plan
      end) plan in
  (* Similar logic for node pools *)
  let plan :=
    for_range (Orders_pools o) (λ id pool plan,
      match State_NodePools actual !! id with
      | None =>
          append_action plan
            {| Action_Type := ActionCreate;
               Action_Resource :=
                 {| ResourceID_Provider := "";
                    ResourceID_Kind := "NodePool";
                    ResourceID_ID := id;
                    ResourceID_Name := ResourceMetadata_Name (Resource_Metadata pool) |};
               Action_Parameters := {[ "spec" := Param_WorkerPoolSpec (Resource_Spec pool) ]} |}
      | Some _ => plan
      end) plan in
  (plan, None).

(** The loops of [GeneratePlan] range over [desired.Clusters] (twice),
    [actual.Clusters] and [desired.NodePools]. *)
Definition Orders_valid (o : Orders) (desired actual : State) : Prop :=
  ranges (State_Clusters desired) (Orders_create o) ∧
  ranges (State_Clusters desired) (Orders_update o) ∧
  ranges (State_Clusters actual) (Orders_delete o) ∧
  ranges (State_NodePools desired) (Orders_pools o).

(** [GeneratePlan(ctx, desired, actual)] may return [(plan, err)]. *)
Definition GeneratePlan_returns (desired actual : State) (plan : Plan) (err : option error) : Prop :=
  ∃ o, Orders_valid o desired actual ∧ GeneratePlan o desired actual = (plan, err).

(** The order every loop follows when the maps are listed by [map_to_list]. *)
Definition Orders_default (desired actual : State) : Orders :=
  {| Orders_create := map_to_list (State_Clusters desired);
     Orders_update := map_to_list (State_Clusters desired);
     Orders_delete := map_to_list (State_Clusters actual);
     Orders_pools := map_to_list (State_NodePools desired) |}.

(** The variables of the loop of [PrintPlan]. *)
Record Printing := {
  Printing_output : string;
  Printing_creates : Z;
  Printing_updates : Z;
  Printing_deletes : Z
}.

(** [fmt.Sprintf("  <sign> %s %s (%s)\n", Kind, Name, ID)] *)
Definition plan_line (sign : string) (resource : ResourceID) : string :=
  "  " +:+ sign +:+ " " +:+ ResourceID_Kind resource +:+ " " +:+ ResourceID_Name resource +:+
  " (" +:+ ResourceID_ID resource +:+ ")" +:+ newline.

(** The body of [for _, action := range plan.Actions]: a [switch] without
    a default case. *)
Definition PrintPlan_step (s : Printing) (action : Action) : Printing :=
  if decide (Action_Type action = ActionCreate) then
    {| Printing_output := Printing_output s +:+ plan_line "+" (Action_Resource action);
       Printing_creates := Printing_creates s + 1;
       Printing_updates := Printing_updates s;
       Printing_deletes := Printing_deletes s |}
  else if decide (Action_Type action = ActionUpdate) then
    {| Printing_output := Printing_output s +:+ plan_line "~" (Action_Resource action);
       Printing_creates := Printing_creates s;
       Printing_updates := Printing_updates s + 1;
       Printing_deletes := Printing_deletes s |}
  else if decide (Action_Type action = ActionDelete) then
    {| Printing_output := Printing_output s +:+ plan_line "-" (Action_Resource action);
       Printing_creates := Printing_creates s;
       Printing_updates := Printing_updates s;
       Printing_deletes := Printing_deletes s + 1 |}
  else s.

Definition PrintPlan_loop (plan : Plan) : Printing :=
  foldl PrintPlan_step
    {| Printing_output := "Infrastructure Plan:" +:+ newline +:+ newline;
       Printing_creates := 0; Printing_updates := 0; Printing_deletes := 0 |}
    (Plan_Actions plan).

Definition PrintPlan (plan : Plan) : string :=
  let s := PrintPlan_loop plan in
  Printing_output s +:+
  newline +:+ "Plan: " +:+ pretty (Printing_creates s) +:+ " to create, " +:+
  pretty (Printing_updates s) +:+ " to update, " +:+
  pretty (Printing_deletes s) +:+ " to delete" +:+ newline.

End planner.
Import planner.

(** ** Package drift (pkg/drift/detector.go) *)

Module drift.

Definition DriftType := string.
Definition DriftConfigChange : DriftType := "config_change".
Definition DriftVersionSkew : DriftType := "version_skew".
Definition DriftScaleChange : DriftType := "scale_change".
Definition DriftNetworkChange : DriftType := "network_change".
Definition DriftSecurityChange : DriftType := "security_change".
Definition DriftResourceDeleted : DriftType := "resource_deleted".
Definition DriftResourceAdded : DriftType := "resource_added".

Definition Severity := string.
Definition SeverityCritical : Severity := "critical".
Definition SeverityHigh : Severity := "high".
Definition SeverityMedium : Severity := "medium".
Definition SeverityLow : Severity := "low".

Record ResourceDrift := {
  ResourceDrift_Resource : ResourceID;
  ResourceDrift_DriftType : DriftType;
  ResourceDrift_Field : string;
  ResourceDrift_Expected : Value;
  ResourceDrift_Actual : Value;
  ResourceDrift_Severity : Severity;
  ResourceDrift_Remediatable : bool
}.

Record DriftSummary := {
  DriftSummary_TotalDrifts : Z;
  DriftSummary_CriticalCount : Z;
  DriftSummary_HighCount : Z;
  DriftSummary_MediumCount : Z;
  DriftSummary_LowCount : Z;
  DriftSummary_RemediableCount : Z
}.

Record DriftReport := {
  DriftReport_DetectedAt : Time;
  DriftReport_HasDrift : bool;
  DriftReport_Drifts : list ResourceDrift;
  DriftReport_Summary : DriftSummary
}.

(** [DriftDetector]; what its logger writes is returned by each method. *)
Record DriftDetector := {
  DriftDetector_engine : Engine
}.

Definition NewDriftDetector (eng : Engine) : DriftDetector :=
  {| DriftDetector_engine := eng |}.

(** [getAllProviders] makes an empty map and returns it. *)
Definition getAllProviders (d : DriftDetector) : gmap string CloudProvider := ∅.

(** The detection state threaded through the loops: [report.Drifts] and the
    log. *)
Record Detection := {
  Detection_Drifts : list ResourceDrift;
  Detection_log : list LogRecord
}.

Definition add_drift (drift : ResourceDrift) (s : Detection) : Detection :=
  {| Detection_Drifts := Detection_Drifts s ++ [drift]; Detection_log := Detection_log s |}.
Definition add_log (r : LogRecord) (s : Detection) : Detection :=
  {| Detection_Drifts := Detection_Drifts s; Detection_log := Detection_log s ++ [r] |}.

(** The inner loop over [actualCluster.Spec.WorkerPools] for one desired
    pool: returns [foundPool] with the state. *)
Definition check_actual_pools (providerName id : string) (desiredPool : WorkerPoolSpec)
    (actualPools : list WorkerPoolSpec) (s : Detection) : bool * Detection :=
  foldl (λ '(foundPool, s) actualPool,
      if decide (WorkerPoolSpec_Name desiredPool = WorkerPoolSpec_Name actualPool) then
        (true,
         if decide (WorkerPoolSpec_DesiredSize desiredPool ≠ WorkerPoolSpec_DesiredSize actualPool)
         then
           add_drift
             {| ResourceDrift_Resource :=
                  {| ResourceID_Provider := providerName;
                     ResourceID_Kind := "NodePool";
                     ResourceID_ID := id +:+ "/" +:+ WorkerPoolSpec_Name desiredPool;
                     ResourceID_Name := WorkerPoolSpec_Name desiredPool |};
                ResourceDrift_DriftType := DriftScaleChange;
                ResourceDrift_Field := "desiredSize";
                ResourceDrift_Expected := Value_int (WorkerPoolSpec_DesiredSize desiredPool);
                ResourceDrift_Actual := Value_int (WorkerPoolSpec_DesiredSize actualPool);
                ResourceDrift_Severity := SeverityMedium;
                ResourceDrift_Remediatable := true |} s
         else s)
      else (foundPool, s))
    (false, s) actualPools.

(** The loop over [desiredCluster.Spec.WorkerPools]. *)
Definition check_pools (providerName id : string) (desiredCluster actualCluster : Cluster)
    (s : Detection) : Detection :=
  foldl (λ s desiredPool,
      let '(foundPool, s) :=
        check_actual_pools providerName id desiredPool
          (ClusterSpec_WorkerPools (Resource_Spec actualCluster)) s in
      if foundPool then s
      else
        add_drift
          {| ResourceDrift_Resource :=
               {| ResourceID_Provider := providerName;
                  ResourceID_Kind := "NodePool";
                  ResourceID_ID := id +:+ "/" +:+ WorkerPoolSpec_Name desiredPool;
                  ResourceID_Name := WorkerPoolSpec_Name desiredPool |};
             ResourceDrift_DriftType := DriftResourceDeleted;
             ResourceDrift_Field := "nodePool";
             ResourceDrift_Expected := Value_string "exists";
             ResourceDrift_Actual := Value_string "deleted";
             ResourceDrift_Severity := SeverityHigh;
             ResourceDrift_Remediatable := true |} s)
    s (ClusterSpec_WorkerPools (Resource_Spec desiredCluster)).

(** The body of [for id, desiredCluster := range desired.Clusters]. *)
Definition check_cluster (providerName : string) (actual : State) (id : string)
    (desiredCluster : Cluster) (s : Detection) : Detection :=
  if decide (ClusterSpec_Provider (Resource_Spec desiredCluster) ≠ providerName) then s
  else
    match State_Clusters actual !! id with
    | None =>
        add_drift
          {| ResourceDrift_Resource :=
               {| ResourceID_Provider := providerName;
                  ResourceID_Kind := "Cluster";
                  ResourceID_ID := id;
                  ResourceID_Name := ResourceMetadata_Name (Resource_Metadata desiredCluster) |};
             ResourceDrift_DriftType := DriftResourceDeleted;
             ResourceDrift_Field := "cluster";
             ResourceDrift_Expected := Value_string "exists";
             ResourceDrift_Actual := Value_string "deleted";
             ResourceDrift_Severity := SeverityCritical;
             ResourceDrift_Remediatable := true |} s
    | Some actualCluster =>
        (* Check version drift *)
        let s :=
          if decide (ControlPlaneSpec_Version (ClusterSpec_ControlPlane (Resource_Spec desiredCluster))
                     ≠ ControlPlaneSpec_Version (ClusterSpec_ControlPlane (Resource_Spec actualCluster)))
          then
            add_drift
              {| ResourceDrift_Resource :=
                   {| ResourceID_Provider := providerName;
                      ResourceID_Kind := "Cluster";
                      ResourceID_ID := id;
                      ResourceID_Name := ResourceMetadata_Name (Resource_Metadata desiredCluster) |};
                 ResourceDrift_DriftType := DriftVersionSkew;
                 ResourceDrift_Field := "controlPlane.version";
                 ResourceDrift_Expected :=
                   Value_string (ControlPlaneSpec_Version
                                   (ClusterSpec_ControlPlane (Resource_Spec desiredCluster)));
                 ResourceDrift_Actual :=
                   Value_string (ControlPlaneSpec_Version
                                   (ClusterSpec_ControlPlane (Resource_Spec actualCluster)));
                 ResourceDrift_Severity := SeverityHigh;
                 ResourceDrift_Remediatable := true |} s
          else s in
        (* Check worker pool drift *)
        check_pools providerName id desiredCluster actualCluster s
    end.

(** The body of [for providerName, provider := range d.getAllProviders()];
    [clusters] is the order in which this pass ranges over
    [desired.Clusters]. *)
Definition check_provider (desired : State) (clusters : list (string * Cluster))
    (providerName : string) (provider : CloudProvider) (s : Detection) : Detection :=
  let s := add_log {| LogRecord_level := LevelDebug;
                      LogRecord_msg := "checking drift for provider";
                      LogRecord_attrs := [("provider", Value_string providerName)] |} s in
  match CloudProvider_Reconcile provider desired State_zero with
  | Err err =>
      add_log {| LogRecord_level := LevelError;
                 LogRecord_msg := "failed to get actual state";
                 LogRecord_attrs := [("provider", Value_string providerName);
                                     ("error", Value_string err)] |} s
  | Ok actual =>
      foldl (λ s kv, check_cluster providerName actual kv.1 kv.2 s) s clusters
  end.

(** The number of drifts of [report.Drifts] that satisfy [P]: the counters
    of the summary loop. *)
Definition count_drifts (P : ResourceDrift → bool) (drifts : list ResourceDrift) : Z :=
  foldl (λ n drift, if P drift then n + 1 else n) 0 drifts.

(** The orders the [range] loops of [DetectDrift] follow: one over the
    providers, and for each provider one over [desired.Clusters]. *)
Record DetectOrders := {
  DetectOrders_providers : list (string * CloudProvider);
  DetectOrders_clusters : string → list (string * Cluster)
}.

Definition DetectDrift (o : DetectOrders) (d : DriftDetector) (now : Time) (desired : State)
    : DriftReport * option error * list LogRecord :=
  let s := {| Detection_Drifts := [];
              Detection_log := [ {| LogRecord_level := LevelInfo;
                                    LogRecord_msg := "starting drift detection";
                                    LogRecord_attrs := [] |} ] |} in
  (* Detect drift for each provider *)
  let s :=
    foldl (λ s kv, check_provider desired (DetectOrders_clusters o kv.1) kv.1 kv.2 s)
      s (DetectOrders_providers o) in
  (* Compute summary *)
  let drifts := Detection_Drifts s in
  let summary :=
    {| DriftSummary_TotalDrifts := Z.of_nat (length drifts);
       DriftSummary_CriticalCount :=
         count_drifts (λ drift, bool_decide (ResourceDrift_Severity drift = SeverityCritical)) drifts;
       DriftSummary_HighCount :=
         count_drifts (λ drift, bool_decide (ResourceDrift_Severity drift = SeverityHigh)) drifts;
       DriftSummary_MediumCount :=
         count_drifts (λ drift, bool_decide (ResourceDrift_Severity drift = SeverityMedium)) drifts;
       DriftSummary_LowCount :=
         count_drifts (λ drift, bool_decide (ResourceDrift_Severity drift = SeverityLow)) drifts;
       DriftSummary_RemediableCount := count_drifts ResourceDrift_Remediatable drifts |} in
  let report :=
    {| DriftReport_DetectedAt := now;
       DriftReport_HasDrift := bool_decide (0 < Z.of_nat (length drifts));
       DriftReport_Drifts := drifts;
       DriftReport_Summary := summary |} in
  let s := add_log {| LogRecord_level := LevelInfo;
                      LogRecord_msg := "drift detection complete";
                      LogRecord_attrs :=
                        [("total_drifts", Value_int (DriftSummary_TotalDrifts summary));
                         ("critical", Value_int (DriftSummary_CriticalCount summary));
                         ("high", Value_int (DriftSummary_HighCount summary))] |} s in
  (report, None, Detection_log s).

Definition DetectOrders_valid (o : DetectOrders) (d : DriftDetector) (desired : State) : Prop :=
  ranges (getAllProviders d) (DetectOrders_providers o) ∧
  ∀ providerName, ranges (State_Clusters desired) (DetectOrders_clusters o providerName).

(** [DetectDrift(ctx, desired)] at time [now] may return [(report, err)]. *)
Definition DetectDrift_returns (d : DriftDetector) (now : Time) (desired : State)
    (report : DriftReport) (err : option error) : Prop :=
  ∃ o, DetectOrders_valid o d desired ∧ (DetectDrift o d now desired).1 = (report, err).

Definition DetectOrders_default (d : DriftDetector) (desired : State) : DetectOrders :=
  {| DetectOrders_providers := map_to_list (getAllProviders d);
     DetectOrders_clusters := λ _, map_to_list (State_Clusters desired) |}.

(** [remediateDrift]: the error it returns, with what it logs. *)
Definition remediateDrift (d : DriftDetector) (drift : ResourceDrift)
    : option error * list LogRecord :=
  match GetProvider (DriftDetector_engine d) (ResourceID_Provider (ResourceDrift_Resource drift)) with
  | None =>
      (Some ("provider " +:+ ResourceID_Provider (ResourceDrift_Resource drift) +:+ " not found"), [])
  | Some provider =>
      if decide (ResourceDrift_DriftType drift = DriftResourceDeleted) then
        (None, [ {| LogRecord_level := LevelInfo;
                    LogRecord_msg := "recreating deleted resource";
                    LogRecord_attrs :=
                      [("resource", Value_string (ResourceID_Name (ResourceDrift_Resource drift)))] |} ])
      else if decide (ResourceDrift_DriftType drift = DriftVersionSkew) then
        (None, [ {| LogRecord_level := LevelInfo;
                    LogRecord_msg := "updating version";
                    LogRecord_attrs :=
                      [("resource", Value_string (ResourceID_Name (ResourceDrift_Resource drift)));
                       ("expected", ResourceDrift_Expected drift)] |} ])
      else if decide (ResourceDrift_DriftType drift = DriftScaleChange) then
        (None, [ {| LogRecord_level := LevelInfo;
                    LogRecord_msg := "adjusting scale";
                    LogRecord_attrs :=
                      [("resource", Value_string (ResourceID_Name (ResourceDrift_Resource drift)));
                       ("expected", ResourceDrift_Expected drift)] |} ])
      else (Some ("unsupported drift type: " +:+ ResourceDrift_DriftType drift), [])
  end.

(** The state of the loop of [Remediate]: [remediatedCount] and the log. *)
Record Remediation := {
  Remediation_remediatedCount : Z;
  Remediation_log : list LogRecord
}.

Definition log_not_remediatable (drift : ResourceDrift) : LogRecord :=
  {| LogRecord_level := LevelWarn;
     LogRecord_msg := "drift not remediatable";
     LogRecord_attrs :=
       [("resource", Value_string (ResourceID_Name (ResourceDrift_Resource drift)));
        ("type", Value_string (ResourceDrift_DriftType drift))] |}.

Definition log_remediating (drift : ResourceDrift) : LogRecord :=
  {| LogRecord_level := LevelInfo;
     LogRecord_msg := "remediating drift";
     LogRecord_attrs :=
       [("resource", Value_string (ResourceID_Name (ResourceDrift_Resource drift)));
        ("type", Value_string (ResourceDrift_DriftType drift));
        ("field", Value_string (ResourceDrift_Field drift))] |}.

Definition log_failed (drift : ResourceDrift) (err : error) : LogRecord :=
  {| LogRecord_level := LevelError;
     LogRecord_msg := "failed to remediate drift";
     LogRecord_attrs :=
       [("resource", Value_string (ResourceID_Name (ResourceDrift_Resource drift)));
        ("error", Value_string err)] |}.

(** The body of [for _, drift := range report.Drifts]. *)
Definition remediate_step (d : DriftDetector) (s : Remediation) (drift : ResourceDrift)
    : Remediation :=
  if negb (ResourceDrift_Remediatable drift) then
    {| Remediation_remediatedCount := Remediation_remediatedCount s;
       Remediation_log := Remediation_log s ++ [log_not_remediatable drift] |}
  else
    let '(err, logged) := remediateDrift d drift in
    match err with
    | Some err =>
        {| Remediation_remediatedCount := Remediation_remediatedCount s;
           Remediation_log :=
             Remediation_log s ++ [log_remediating drift] ++ logged ++ [log_failed drift err] |}
    | None =>
        {| Remediation_remediatedCount := Remediation_remediatedCount s + 1;
           Remediation_log := Remediation_log s ++ [log_remediating drift] ++ logged |}
    end.

(** [Remediate]: the error it returns, with what it logs. *)
Definition Remediate (d : DriftDetector) (report : DriftReport) : option error * list LogRecord :=
  let s := {| Remediation_remediatedCount := 0;
              Remediation_log :=
                [ {| LogRecord_level := LevelInfo;
                     LogRecord_msg := "starting drift remediation";
                     LogRecord_attrs :=
                       [("total_drifts",
                         Value_int (Z.of_nat (length (DriftReport_Drifts report))))] |} ] |} in
  let s := foldl (remediate_step d) s (DriftReport_Drifts report) in
  (None,
   Remediation_log s ++
   [ {| LogRecord_level := LevelInfo;
        LogRecord_msg := "drift remediation complete";
        LogRecord_attrs :=
          [("remediated", Value_int (Remediation_remediatedCount s));
           ("total", Value_int (Z.of_nat (length (DriftReport_Drifts report))))] |} ]).

End drift.
Import drift.

(** ** JSON documents (encoding/json, Go 1.21)

    A file is modelled by the JSON document its text is read as:
    [json.MarshalIndent] followed by writing, and reading followed by
    [json.Unmarshal], meet at the document.  A string that is not valid
    UTF-8 is not read back as it was written: [Marshal] writes the
    replacement character for every byte that starts no valid encoding, and
    [decoded] gives the document that the written text is read as.
    [Marshal] lists the keys of a map in sorted order, and [Unmarshal] of
    a map keeps the last value of a key that occurs twice. *)

Inductive JSON :=
| JNull
| JBool (b : bool)
| JNumber (n : Z)
| JString (s : string)
| JArray (items : list JSON)
| JObject (fields : list (string * JSON)).

Definition double_quote : string := String (ascii_of_nat 34) EmptyString.

Definition hex_digit (n : nat) : ascii :=
  ascii_of_nat (if decide (n < 10)%nat then 48 + n else 87 + n).

(** How [Marshal] writes a byte below [utf8.RuneSelf] (HTML escaping is
    on). *)
Definition escape_byte (c : ascii) : string :=
  let n := nat_of_ascii c in
  if decide (n = 34)%nat then "\" +:+ double_quote
  else if decide (n = 92)%nat then "\\"
  else if decide (n = 10)%nat then "\n"
  else if decide (n = 13)%nat then "\r"
  else if decide (n = 9)%nat then "\t"
  else if decide (n < 32 ∨ n = 60 ∨ n = 62 ∨ n = 38)%nat then
    "\u00" +:+ String (hex_digit (n / 16)) (String (hex_digit (n mod 16)) EmptyString)
  else String c EmptyString.

(** *** UTF-8 (unicode/utf8) *)

Definition between (lo hi : nat) (c : ascii) : bool :=
  bool_decide (lo ≤ nat_of_ascii c ≤ hi)%nat.

(** [utf8.DecodeRuneInString] at the front of a string that is not empty:
    the number of bytes of the rune encoded there, [None] where the answer
    is (RuneError, 1), no valid encoding starting the string. *)
Definition rune_size (s : string) : option nat :=
  match s with
  | EmptyString => None
  | String c0 rest =>
      if between 0 127 c0 then Some 1%nat
      else if between 194 223 c0 then
        match rest with
        | String c1 _ => if between 128 191 c1 then Some 2%nat else None
        | _ => None
        end
      else if between 224 239 c0 then
        match rest with
        | String c1 (String c2 _) =>
            if between (if between 224 224 c0 then 160 else 128)
                       (if between 237 237 c0 then 159 else 191) c1 &&
               between 128 191 c2
            then Some 3%nat else None
        | _ => None
        end
      else if between 240 244 c0 then
        match rest with
        | String c1 (String c2 (String c3 _)) =>
            if between (if between 240 240 c0 then 144 else 128)
                       (if between 244 244 c0 then 143 else 191) c1 &&
               between 128 191 c2 && between 128 191 c3
            then Some 4%nat else None
        | _ => None
        end
      else None
  end.

(** U+2028 and U+2029, the line and the paragraph separator, are the bytes
    E2 80 A8 and E2 80 A9. *)
Definition separator (c0 c1 c2 : ascii) : bool :=
  between 226 226 c0 && between 128 128 c1 && between 168 169 c2.

(** U+FFFD, the replacement character, is the bytes EF BF BD. *)
Definition RuneError : string :=
  String (ascii_of_nat 239) (String (ascii_of_nat 191) (String (ascii_of_nat 189) EmptyString)).

(** How [Marshal] writes the bytes of a string: a byte below
    [utf8.RuneSelf] by [escape_byte], the two separators and a byte that
    starts no valid encoding as escapes, every other rune as it is. *)
Fixpoint escape (s : string) : string :=
  match s with
  | EmptyString => EmptyString
  | String c0 s1 =>
      if between 0 127 c0 then escape_byte c0 +:+ escape s1
      else
        match rune_size s, s1 with
        | Some 2%nat, String c1 s2 => String c0 (String c1 (escape s2))
        | Some 3%nat, String c1 (String c2 s3) =>
            if separator c0 c1 c2 then
              "\u202" +:+ String (hex_digit (nat_of_ascii c2 mod 16)) (escape s3)
            else String c0 (String c1 (String c2 (escape s3)))
        | Some 4%nat, String c1 (String c2 (String c3 s4)) =>
            String c0 (String c1 (String c2 (String c3 (escape s4))))
        | _, _ => "\ufffd" +:+ escape s1
        end
  end.

(** The string that the text [Marshal] wrote for [s] is read as: every
    byte that starts no valid encoding has become the replacement
    character. *)
Fixpoint coerced (s : string) : string :=
  match s with
  | EmptyString => EmptyString
  | String c0 s1 =>
      if between 0 127 c0 then String c0 (coerced s1)
      else
        match rune_size s, s1 with
        | Some 2%nat, String c1 s2 => String c0 (String c1 (coerced s2))
        | Some 3%nat, String c1 (String c2 s3) =>
            String c0 (String c1 (String c2 (coerced s3)))
        | Some 4%nat, String c1 (String c2 (String c3 s4)) =>
            String c0 (String c1 (String c2 (String c3 (coerced s4))))
        | _, _ => RuneError +:+ coerced s1
        end
  end.

(** [utf8.ValidString] *)
Fixpoint ValidString (s : string) : bool :=
  match s with
  | EmptyString => true
  | String c0 s1 =>
      if between 0 127 c0 then ValidString s1
      else
        match rune_size s, s1 with
        | Some 2%nat, String c1 s2 => ValidString s2
        | Some 3%nat, String c1 (String c2 s3) => ValidString s3
        | Some 4%nat, String c1 (String c2 (String c3 s4)) => ValidString s4
        | _, _ => false
        end
  end.

Definition quoted (s : string) : string := double_quote +:+ escape s +:+ double_quote.

Fixpoint join (sep : string) (l : list string) : string :=
  match l with
  | [] => ""
  | [x] => x
  | x :: l' => x +:+ sep +:+ join sep l'
  end.

(** The text [json.Marshal] writes for a document. *)
Fixpoint render (j : JSON) : string :=
  match j with
  | JNull => "null"
  | JBool true => "true"
  | JBool false => "false"
  | JNumber n => pretty n
  | JString s => quoted s
  | JArray items => "[" +:+ join "," (map render items) +:+ "]"
  | JObject fields =>
      "{" +:+ join "," (map (λ kv, quoted kv.1 +:+ ":" +:+ render kv.2) fields) +:+ "}"
  end.

(** The document that the text of [j] is read as. *)
Fixpoint decoded (j : JSON) : JSON :=
  match j with
  | JString s => JString (coerced s)
  | JArray items => JArray (map decoded items)
  | JObject fields => JObject (map (λ kv, (coerced kv.1, decoded kv.2)) fields)
  | _ => j
  end.

(** Every string and every key of the document is valid UTF-8. *)
Fixpoint utf8_doc (j : JSON) : bool :=
  match j with
  | JString s => ValidString s
  | JArray items => forallb utf8_doc items
  | JObject fields => forallb (λ kv, ValidString kv.1 && utf8_doc kv.2) fields
  | _ => true
  end.

(** The value of key [k] in an object, [JNull] when the key is absent.  A
    document written by [Marshal] has no key twice. *)
Fixpoint field (k : string) (fields : list (string * JSON)) : JSON :=
  match fields with
  | [] => JNull
  | (k', v) :: rest => if String.eqb k k' then v else field k rest
  end.

Definition result_bind {A B} (r : result A) (k : A → result B) : result B :=
  match r with
  | Ok a => k a
  | Err e => Err e
  end.

Declare Scope result_scope.
Delimit Scope result_scope with res.
Notation "x ← y ; z" := (result_bind y (λ x : _, z))
  (at level 20, y at level 100, z at level 200, only parsing) : result_scope.

Fixpoint result_mapM {A B} (f : A → result B) (l : list A) : result (list B) :=
  match l with
  | [] => Ok []
  | x :: l' => (y ← f x; ys ← result_mapM f l'; Ok (y :: ys))%res
  end.

(** How a Go type is written to and read from a document.  [zero] is the
    type's zero value, which [Unmarshal] leaves in place for [null] and for
    an absent key; [empty] is the test behind [omitempty]. *)
Class Codec (A : Type) := {
  zero : A;
  empty : A → bool;
  marshal : A → JSON;
  unmarshal : JSON → result A
}.

Definition type_error {A} (what : string) : result A :=
  Err ("json: cannot unmarshal into Go value of type " +:+ what).

#[global] Instance Codec_string : Codec string := {
  zero := "";
  empty s := bool_decide (s = "");
  marshal s := JString s;
  unmarshal j :=
    match j with JNull => Ok "" | JString s => Ok s | _ => type_error "string" end
}.

#[global] Instance Codec_int : Codec Z := {
  zero := 0;
  empty n := bool_decide (n = 0);
  marshal n := JNumber n;
  unmarshal j :=
    match j with JNull => Ok 0 | JNumber n => Ok n | _ => type_error "int" end
}.

#[global] Instance Codec_bool : Codec bool := {
  zero := false;
  empty b := negb b;
  marshal b := JBool b;
  unmarshal j :=
    match j with JNull => Ok false | JBool b => Ok b | _ => type_error "bool" end
}.

(** Slices *)
#[global] Instance Codec_list {A} `{Codec A} : Codec (list A) := {
  zero := [];
  empty l := match l with [] => true | _ => false end;
  marshal l := JArray (map marshal l);
  unmarshal j :=
    match j with
    | JNull => Ok []
    | JArray items => result_mapM unmarshal items
    | _ => type_error "slice"
    end
}.

(** Maps with string keys: the entries are written in the order of their
    keys; reading sets the entries in the order of the text, so that the
    last value of a key stays. *)
Definition key_le {A} (a b : string * A) : Prop := String.le a.1 b.1.
#[global] Instance key_le_dec {A} : RelDecision (@key_le A).
Proof. intros a b. unfold key_le. apply _. Defined.
Definition sorted_by_key {A} (m : gmap string A) : list (string * A) :=
  merge_sort key_le (map_to_list m).

#[global] Instance Codec_map {A} `{Codec A} : Codec (gmap string A) := {
  zero := ∅;
  empty m := match map_to_list m with [] => true | _ => false end;
  marshal m := JObject (map (λ kv, (kv.1, marshal kv.2)) (sorted_by_key m));
  unmarshal j :=
    match j with
    | JNull => Ok ∅
    | JObject fields =>
        (entries ← result_mapM (λ kv, v ← unmarshal kv.2; Ok (kv.1, v)) fields;
         Ok (list_to_map (reverse entries)))%res
    | _ => type_error "map"
    end
}.

(** Pointers to structs: nil is written as [null]. *)
#[global] Instance Codec_pointer {A} `{Codec A} : Codec (option A) := {
  zero := None;
  empty p := match p with None => true | Some _ => false end;
  marshal p := match p with None => JNull | Some a => marshal a end;
  unmarshal j :=
    match j with
    | JNull => Ok None
    | _ => (a ← unmarshal j; Ok (Some a))%res
    end
}.

(** A struct field [json:"k"], a field [json:"k,omitempty"], and reading a
    field back. *)
Definition kv {A} `{Codec A} (k : string) (a : A) : list (string * JSON) :=
  [(k, marshal a)].
Definition kv_omitempty {A} `{Codec A} (k : string) (a : A) : list (string * JSON) :=
  if empty a then [] else [(k, marshal a)].
Definition get {A} `{Codec A} (k : string) (fields : list (string * JSON)) : result A :=
  unmarshal (field k fields).

(** Reading a struct: [null] leaves the zero value, an object is read field
    by field, anything else is a type error. *)
Definition object {A} (what : string) (z : A) (j : JSON)
    (read : list (string * JSON) → result A) : result A :=
  match j with
  | JNull => Ok z
  | JObject fields => read fields
  | _ => type_error what
  end.


(** *** The resource types of package api, by their [json] tags *)

Definition Taint_zero : Taint :=
  {| Taint_Key := ""; Taint_Value := ""; Taint_Effect := "" |}.
#[global] Instance Codec_Taint : Codec Taint := {
  zero := Taint_zero;
  empty _ := false;
  marshal t :=
    JObject (kv "key" (Taint_Key t) ++ kv "value" (Taint_Value t) ++
             kv "effect" (Taint_Effect t));
  unmarshal j :=
    object "Taint" Taint_zero j (λ fs,
      (key ← get "key" fs; value ← get "value" fs; effect ← get "effect" fs;
       Ok {| Taint_Key := key; Taint_Value := value; Taint_Effect := effect |})%res)
}.

Definition SpotConfig_zero : SpotConfig := {| SpotConfig_Enabled := false |}.
#[global] Instance Codec_SpotConfig : Codec SpotConfig := {
  zero := SpotConfig_zero;
  empty _ := false;
  marshal c := JObject (kv "enabled" (SpotConfig_Enabled c));
  unmarshal j :=
    object "SpotConfig" SpotConfig_zero j (λ fs,
      (enabled ← get "enabled" fs; Ok {| SpotConfig_Enabled := enabled |})%res)
}.

Definition WorkerPoolSpec_zero : WorkerPoolSpec :=
  {| WorkerPoolSpec_Name := ""; WorkerPoolSpec_InstanceType := "";
     WorkerPoolSpec_MinSize := 0; WorkerPoolSpec_MaxSize := 0;
     WorkerPoolSpec_DesiredSize := 0; WorkerPoolSpec_Spot := None;
     WorkerPoolSpec_Labels := ∅; WorkerPoolSpec_Taints := [] |}.
#[global] Instance Codec_WorkerPoolSpec : Codec WorkerPoolSpec := {
  zero := WorkerPoolSpec_zero;
  empty _ := false;
  marshal p :=
    JObject (kv "name" (WorkerPoolSpec_Name p) ++
             kv "instanceType" (WorkerPoolSpec_InstanceType p) ++
             kv "minSize" (WorkerPoolSpec_MinSize p) ++
             kv "maxSize" (WorkerPoolSpec_MaxSize p) ++
             kv_omitempty "desiredSize" (WorkerPoolSpec_DesiredSize p) ++
             kv_omitempty "spot" (WorkerPoolSpec_Spot p) ++
             kv_omitempty "labels" (WorkerPoolSpec_Labels p) ++
             kv_omitempty "taints" (WorkerPoolSpec_Taints p));
  unmarshal j :=
    object "WorkerPoolSpec" WorkerPoolSpec_zero j (λ fs,
      (name ← get "name" fs; instanceType ← get "instanceType" fs;
       minSize ← get "minSize" fs; maxSize ← get "maxSize" fs;
       desiredSize ← get "desiredSize" fs; spot ← get "spot" fs;
       labels ← get "labels" fs; taints ← get "taints" fs;
       Ok {| WorkerPoolSpec_Name := name; WorkerPoolSpec_InstanceType := instanceType;
             WorkerPoolSpec_MinSize := minSize; WorkerPoolSpec_MaxSize := maxSize;
             WorkerPoolSpec_DesiredSize := desiredSize; WorkerPoolSpec_Spot := spot;
             WorkerPoolSpec_Labels := labels; WorkerPoolSpec_Taints := taints |})%res)
}.

Definition IdentitySpec_zero : IdentitySpec :=
  {| IdentitySpec_Type := ""; IdentitySpec_ServiceAccounts := [];
     IdentitySpec_RoleARN := "" |}.
#[global] Instance Codec_IdentitySpec : Codec IdentitySpec := {
  zero := IdentitySpec_zero;
  empty _ := false;
  marshal i :=
    JObject (kv "type" (IdentitySpec_Type i) ++
             kv_omitempty "serviceAccounts" (IdentitySpec_ServiceAccounts i) ++
             kv_omitempty "roleArn" (IdentitySpec_RoleARN i));
  unmarshal j :=
    object "IdentitySpec" IdentitySpec_zero j (λ fs,
      (type ← get "type" fs; serviceAccounts ← get "serviceAccounts" fs;
       roleArn ← get "roleArn" fs;
       Ok {| IdentitySpec_Type := type; IdentitySpec_ServiceAccounts := serviceAccounts;
             IdentitySpec_RoleARN := roleArn |})%res)
}.

Definition ControlPlaneSpec_zero : ControlPlaneSpec :=
  {| ControlPlaneSpec_Type := ""; ControlPlaneSpec_Version := "";
     ControlPlaneSpec_InstanceType := ""; ControlPlaneSpec_Count := 0;
     ControlPlaneSpec_HA := false; ControlPlaneSpec_Identity := None |}.
#[global] Instance Codec_ControlPlaneSpec : Codec ControlPlaneSpec := {
  zero := ControlPlaneSpec_zero;
  empty _ := false;
  marshal c :=
    JObject (kv "type" (ControlPlaneSpec_Type c) ++
             kv "version" (ControlPlaneSpec_Version c) ++
             kv_omitempty "instanceType" (ControlPlaneSpec_InstanceType c) ++
             kv_omitempty "count" (ControlPlaneSpec_Count c) ++
             kv "ha" (ControlPlaneSpec_HA c) ++
             kv_omitempty "identity" (ControlPlaneSpec_Identity c));
  unmarshal j :=
    object "ControlPlaneSpec" ControlPlaneSpec_zero j (λ fs,
      (type ← get "type" fs; version ← get "version" fs;
       instanceType ← get "instanceType" fs; count ← get "count" fs;
       ha ← get "ha" fs; identity ← get "identity" fs;
       Ok {| ControlPlaneSpec_Type := type; ControlPlaneSpec_Version := version;
             ControlPlaneSpec_InstanceType := instanceType;
             ControlPlaneSpec_Count := count; ControlPlaneSpec_HA := ha;
             ControlPlaneSpec_Identity := identity |})%res)
}.

Definition Subnet_zero : Subnet :=
  {| Subnet_Name := ""; Subnet_CIDR := ""; Subnet_AvailabilityZone := "";
     Subnet_Public := false |}.
#[global] Instance Codec_Subnet : Codec Subnet := {
  zero := Subnet_zero;
  empty _ := false;
  marshal n :=
    JObject (kv "name" (Subnet_Name n) ++ kv "cidr" (Subnet_CIDR n) ++
             kv "availabilityZone" (Subnet_AvailabilityZone n) ++
             kv "public" (Subnet_Public n));
  unmarshal j :=
    object "Subnet" Subnet_zero j (λ fs,
      (name ← get "name" fs; cidr ← get "cidr" fs;
       availabilityZone ← get "availabilityZone" fs; public ← get "public" fs;
       Ok {| Subnet_Name := name; Subnet_CIDR := cidr;
             Subnet_AvailabilityZone := availabilityZone; Subnet_Public := public |})%res)
}.

Definition NetworkSpec_zero : NetworkSpec :=
  {| NetworkSpec_VPCCIDR := ""; NetworkSpec_AvailabilityZones := [];
     NetworkSpec_Subnets := []; NetworkSpec_NATGateway := false;
     NetworkSpec_PrivateCluster := false |}.
#[global] Instance Codec_NetworkSpec : Codec NetworkSpec := {
  zero := NetworkSpec_zero;
  empty _ := false;
  marshal n :=
    JObject (kv "vpcCidr" (NetworkSpec_VPCCIDR n) ++
             kv "availabilityZones" (NetworkSpec_AvailabilityZones n) ++
             kv_omitempty "subnets" (NetworkSpec_Subnets n) ++
             kv "natGateway" (NetworkSpec_NATGateway n) ++
             kv "privateCluster" (NetworkSpec_PrivateCluster n));
  unmarshal j :=
    object "NetworkSpec" NetworkSpec_zero j (λ fs,
      (vpcCidr ← get "vpcCidr" fs; availabilityZones ← get "availabilityZones" fs;
       subnets ← get "subnets" fs; natGateway ← get "natGateway" fs;
       privateCluster ← get "privateCluster" fs;
       Ok {| NetworkSpec_VPCCIDR := vpcCidr;
             NetworkSpec_AvailabilityZones := availabilityZones;
             NetworkSpec_Subnets := subnets; NetworkSpec_NATGateway := natGateway;
             NetworkSpec_PrivateCluster := privateCluster |})%res)
}.

Definition ClusterSpec_zero : ClusterSpec :=
  {| ClusterSpec_Provider := ""; ClusterSpec_Region := "";
     ClusterSpec_Network := NetworkSpec_zero;
     ClusterSpec_ControlPlane := ControlPlaneSpec_zero;
     ClusterSpec_WorkerPools := []; ClusterSpec_Tags := ∅ |}.
#[global] Instance Codec_ClusterSpec : Codec ClusterSpec := {
  zero := ClusterSpec_zero;
  empty _ := false;
  marshal c :=
    JObject (kv "provider" (ClusterSpec_Provider c) ++
             kv "region" (ClusterSpec_Region c) ++
             kv "network" (ClusterSpec_Network c) ++
             kv "controlPlane" (ClusterSpec_ControlPlane c) ++
             kv "workerPools" (ClusterSpec_WorkerPools c) ++
             kv_omitempty "tags" (ClusterSpec_Tags c));
  unmarshal j :=
    object "ClusterSpec" ClusterSpec_zero j (λ fs,
      (provider ← get "provider" fs; region ← get "region" fs;
       network ← get "network" fs; controlPlane ← get "controlPlane" fs;
       workerPools ← get "workerPools" fs; tags ← get "tags" fs;
       Ok {| ClusterSpec_Provider := provider; ClusterSpec_Region := region;
             ClusterSpec_Network := network; ClusterSpec_ControlPlane := controlPlane;
             ClusterSpec_WorkerPools := workerPools; ClusterSpec_Tags := tags |})%res)
}.

Definition ResourceMetadata_zero : ResourceMetadata :=
  {| ResourceMetadata_Name := ""; ResourceMetadata_Namespace := "";
     ResourceMetadata_Labels := ∅; ResourceMetadata_Annotations := ∅ |}.
#[global] Instance Codec_ResourceMetadata : Codec ResourceMetadata := {
  zero := ResourceMetadata_zero;
  empty _ := false;
  marshal m :=
    JObject (kv "name" (ResourceMetadata_Name m) ++
             kv_omitempty "namespace" (ResourceMetadata_Namespace m) ++
             kv_omitempty "labels" (ResourceMetadata_Labels m) ++
             kv_omitempty "annotations" (ResourceMetadata_Annotations m));
  unmarshal j :=
    object "ResourceMetadata" ResourceMetadata_zero j (λ fs,
      (name ← get "name" fs; namespace ← get "namespace" fs;
       labels ← get "labels" fs; annotations ← get "annotations" fs;
       Ok {| ResourceMetadata_Name := name; ResourceMetadata_Namespace := namespace;
             ResourceMetadata_Labels := labels;
             ResourceMetadata_Annotations := annotations |})%res)
}.

Definition ResourceStatus_zero : ResourceStatus :=
  {| ResourceStatus_Phase := ""; ResourceStatus_Message := "";
     ResourceStatus_Properties := ∅ |}.
#[global] Instance Codec_ResourceStatus : Codec ResourceStatus := {
  zero := ResourceStatus_zero;
  empty _ := false;
  marshal st :=
    JObject (kv "phase" (ResourceStatus_Phase st) ++
             kv_omitempty "message" (ResourceStatus_Message st) ++
             kv_omitempty "properties" (ResourceStatus_Properties st));
  unmarshal j :=
    object "ResourceStatus" ResourceStatus_zero j (λ fs,
      (phase ← get "phase" fs; message ← get "message" fs;
       properties ← get "properties" fs;
       Ok {| ResourceStatus_Phase := phase; ResourceStatus_Message := message;
             ResourceStatus_Properties := properties |})%res)
}.

Definition Resource_zero {T} `{Codec T} : Resource T :=
  {| Resource_ID := ""; Resource_Metadata := ResourceMetadata_zero;
     Resource_Spec := zero; Resource_Status := ResourceStatus_zero |}.
#[global] Instance Codec_Resource {T} `{Codec T} : Codec (Resource T) := {
  zero := Resource_zero;
  empty _ := false;
  marshal r :=
    JObject (kv "id" (Resource_ID r) ++ kv "metadata" (Resource_Metadata r) ++
             kv "spec" (Resource_Spec r) ++ kv "status" (Resource_Status r));
  unmarshal j :=
    object "Resource" Resource_zero j (λ fs,
      (id ← get "id" fs; metadata ← get "metadata" fs;
       spec ← get "spec" fs; status ← get "status" fs;
       Ok {| Resource_ID := id; Resource_Metadata := metadata;
             Resource_Spec := spec; Resource_Status := status |})%res)
}.

(** [engine.State] has no [json] tags: the keys are the field names. *)
#[global] Instance Codec_State : Codec State := {
  zero := State_zero;
  empty _ := false;
  marshal st :=
    JObject (kv "Clusters" (State_Clusters st) ++ kv "NodePools" (State_NodePools st));
  unmarshal j :=
    object "State" State_zero j (λ fs,
      (clusters ← get "Clusters" fs; nodePools ← get "NodePools" fs;
       Ok {| State_Clusters := clusters; State_NodePools := nodePools |})%res)
}.


(** ** Package snapshot (pkg/snapshot/manager.go) *)

Module snapshot.

Definition TriggerReason := string.
Definition TriggerManual : TriggerReason := "manual".
Definition TriggerPreUpgrade : TriggerReason := "pre_upgrade".
Definition TriggerPreDelete : TriggerReason := "pre_delete".
Definition TriggerScheduled : TriggerReason := "scheduled".
Definition TriggerPreApply : TriggerReason := "pre_apply".
Definition TriggerDriftRemediate : TriggerReason := "drift_remediate".

Record SnapshotMetadata := {
  SnapshotMetadata_Version : string;
  SnapshotMetadata_CreatedBy : string;
  SnapshotMetadata_TriggerReason : TriggerReason;
  SnapshotMetadata_ClusterCount : Z;
  SnapshotMetadata_NodePoolCount : Z;
  SnapshotMetadata_Tags : gmap string string
}.

Record Snapshot := {
  Snapshot_ID : string;
  Snapshot_CreatedAt : Time;
  Snapshot_Description : string;
  Snapshot_State : State;
  Snapshot_Metadata : SnapshotMetadata;
  Snapshot_Checksum : string
}.

(** The two structs have no [json] tags: the keys are the field names.
    [CreatedAt] is written as the number of its instant; Go writes the same
    instant as an RFC 3339 string. *)
Definition SnapshotMetadata_zero : SnapshotMetadata :=
  {| SnapshotMetadata_Version := ""; SnapshotMetadata_CreatedBy := "";
     SnapshotMetadata_TriggerReason := ""; SnapshotMetadata_ClusterCount := 0;
     SnapshotMetadata_NodePoolCount := 0; SnapshotMetadata_Tags := ∅ |}.
#[global] Instance Codec_SnapshotMetadata : Codec SnapshotMetadata := {
  zero := SnapshotMetadata_zero;
  empty _ := false;
  marshal m :=
    JObject (kv "Version" (SnapshotMetadata_Version m) ++
             kv "CreatedBy" (SnapshotMetadata_CreatedBy m) ++
             kv "TriggerReason" (SnapshotMetadata_TriggerReason m) ++
             kv "ClusterCount" (SnapshotMetadata_ClusterCount m) ++
             kv "NodePoolCount" (SnapshotMetadata_NodePoolCount m) ++
             kv "Tags" (SnapshotMetadata_Tags m));
  unmarshal j :=
    object "SnapshotMetadata" SnapshotMetadata_zero j (λ fs,
      (version ← get "Version" fs; createdBy ← get "CreatedBy" fs;
       triggerReason ← get "TriggerReason" fs; clusterCount ← get "ClusterCount" fs;
       nodePoolCount ← get "NodePoolCount" fs; tags ← get "Tags" fs;
       Ok {| SnapshotMetadata_Version := version; SnapshotMetadata_CreatedBy := createdBy;
             SnapshotMetadata_TriggerReason := triggerReason;
             SnapshotMetadata_ClusterCount := clusterCount;
             SnapshotMetadata_NodePoolCount := nodePoolCount;
             SnapshotMetadata_Tags := tags |})%res)
}.

Definition Snapshot_zero : Snapshot :=
  {| Snapshot_ID := ""; Snapshot_CreatedAt := 0; Snapshot_Description := "";
     Snapshot_State := State_zero; Snapshot_Metadata := SnapshotMetadata_zero;
     Snapshot_Checksum := "" |}.
#[global] Instance Codec_Snapshot : Codec Snapshot := {
  zero := Snapshot_zero;
  empty _ := false;
  marshal s :=
    JObject (kv "ID" (Snapshot_ID s) ++
             kv "CreatedAt" (Snapshot_CreatedAt s : Z) ++
             kv "Description" (Snapshot_Description s) ++
             kv "State" (Snapshot_State s) ++
             kv "Metadata" (Snapshot_Metadata s) ++
             kv "Checksum" (Snapshot_Checksum s));
  unmarshal j :=
    object "Snapshot" Snapshot_zero j (λ fs,
      (id ← get "ID" fs; createdAt ← get (A:=Z) "CreatedAt" fs;
       description ← get "Description" fs; state ← get "State" fs;
       metadata ← get "Metadata" fs; checksum ← get "Checksum" fs;
       Ok {| Snapshot_ID := id; Snapshot_CreatedAt := createdAt;
             Snapshot_Description := description; Snapshot_State := state;
             Snapshot_Metadata := metadata; Snapshot_Checksum := checksum |})%res)
}.

(** *** Time *)

(** The civil date (year, month, day) of a day number counted from
    1970-01-01, in the proleptic Gregorian calendar. *)
Definition civil_from_days (days : Z) : Z * Z * Z :=
  let z := days + 719468 in
  let era := z / 146097 in
  let doe := z - era * 146097 in
  let yoe := (doe - doe / 1460 + doe / 36524 - doe / 146096) / 365 in
  let doy := doe - (365 * yoe + yoe / 4 - yoe / 100) in
  let mp := (5 * doy + 2) / 153 in
  let d := doy - (153 * mp + 2) / 5 + 1 in
  let m := if decide (mp < 10)%Z then mp + 3 else mp - 9 in
  let y := yoe + era * 400 + (if decide (m ≤ 2)%Z then 1 else 0) in
  (y, m, d).

(** [n] in decimal, with zeros in front up to [width] digits. *)
Definition zero_padded (width : nat) (n : Z) : string :=
  let s := pretty n in
  String.concat "" (replicate (width - String.length s) "0") +:+ s.

(** [t.Format("20060102-150405")], in UTC: the layout has no field finer
    than the second. *)
Definition Format_20060102_150405 (t : Time) : string :=
  let secs := t / 1000000000 in
  let '(y, m, d) := civil_from_days (secs / 86400) in
  let sod := secs mod 86400 in
  zero_padded 4 y +:+ zero_padded 2 m +:+ zero_padded 2 d +:+ "-" +:+
  zero_padded 2 (sod / 3600) +:+ zero_padded 2 (sod mod 3600 / 60) +:+
  zero_padded 2 (sod mod 60).

Definition minDuration : Z := - 2 ^ 63.
Definition maxDuration : Z := 2 ^ 63 - 1.

(** [t.Sub(u)]: the difference in nanoseconds, kept within [int64]. *)
Definition Sub (t u : Time) : Z :=
  Z.max minDuration (Z.min maxDuration (t - u)).

(** [t.After(u)] *)
Definition After (t u : Time) : bool := bool_decide (u < t).

(** *** The manager's surroundings *)

(** [engine.StateManager]: the two methods the snapshot manager calls. *)
Class StateManager (SM : Type) := {
  GetState : SM → result State;
  SaveState : SM → State → option error * SM
}.

(** The [mockStateManager] of snapshot_test.go *)
Record mockStateManager := {
  mockStateManager_state : State
}.

#[global] Instance mockStateManager_StateManager : StateManager mockStateManager := {
  GetState m := Ok (mockStateManager_state m);
  SaveState m state := (None, {| mockStateManager_state := state |})
}.

(** What a [Manager] works on: the files of its snapshot directory, by
    name, each with the document it holds; its state manager; and the clock,
    given by what the successive calls of [time.Now()] return. *)
Record Env (SM : Type) := {
  Env_files : gmap string JSON;
  Env_state : SM;
  Env_clock : nat → Time;
  Env_reads : nat
}.
Arguments Env_files {SM} _.
Arguments Env_state {SM} _.
Arguments Env_clock {SM} _.
Arguments Env_reads {SM} _.

Section Manager.
Context {SM : Type} `{!StateManager SM}.

Definition set_files (f : gmap string JSON → gmap string JSON) (w : Env SM) : Env SM :=
  {| Env_files := f (Env_files w); Env_state := Env_state w;
     Env_clock := Env_clock w; Env_reads := Env_reads w |}.

(** [time.Now()] *)
Definition time_Now : M (Env SM) Time :=
  λ w, (Ok (Env_clock w (Env_reads w)),
        {| Env_files := Env_files w; Env_state := Env_state w;
           Env_clock := Env_clock w; Env_reads := S (Env_reads w) |}).

(** [m.state.GetState(ctx)] and [m.state.SaveState(ctx, state)] *)
Definition state_GetState : M (Env SM) State :=
  λ w, (GetState (Env_state w), w).
Definition state_SaveState (state : State) : M (Env SM) unit :=
  λ w, let '(answer, sm) := SaveState (Env_state w) state in
       (match answer with None => Ok tt | Some err => Err err end,
        {| Env_files := Env_files w; Env_state := sm;
           Env_clock := Env_clock w; Env_reads := Env_reads w |}).

(** [os.ReadFile], [os.WriteFile] and [os.Remove] on the file [name] of
    the snapshot directory, [filepath.Join(m.snapshotDir, name)] for a
    [name] without path separator.  A written file holds the document its
    text is read as.  Reading and removing fail when the file does not
    exist. *)
Definition os_ReadFile (name : string) : M (Env SM) JSON :=
  λ w, match Env_files w !! name with
       | Some doc => (Ok doc, w)
       | None => (Err ("open " +:+ name +:+ ": no such file or directory"), w)
       end.
Definition os_WriteFile (name : string) (doc : JSON) : M (Env SM) unit :=
  modify (set_files (<[name := decoded doc]>)).
Definition os_Remove (name : string) : M (Env SM) unit :=
  λ w, match Env_files w !! name with
       | Some _ => (Ok tt, set_files (delete name) w)
       | None => (Err ("remove " +:+ name +:+ ": no such file or directory"), w)
       end.

(** [os.ReadDir]: the names of the files, sorted. *)
Definition os_ReadDir : M (Env SM) (list string) :=
  gets (λ w, merge_sort String.le (map_to_list (Env_files w)).*1).

Definition generateSnapshotID : M (Env SM) string :=
  now ← time_Now;
  ret ("snapshot-" +:+ Format_20060102_150405 now).

(** [fmt.Sprintf("%x", len(data))] for [data] the text of the state *)
Definition calculateChecksum (state : State) : string :=
  HexadecimalString.NilZero.string_of_uint
    (N.to_hex_uint (N.of_nat (String.length (render (marshal state))))).

Definition saveSnapshot (snapshot : Snapshot) : M (Env SM) unit :=
  wrap_err (Errorf_w "failed to write snapshot file")
    (os_WriteFile (Snapshot_ID snapshot +:+ ".json") (marshal snapshot)).

Definition CreateSnapshot (description : string) (reason : TriggerReason)
    : M (Env SM) Snapshot :=
  (* Get current state *)
  currentState ← wrap_err (Errorf_w "failed to get current state") state_GetState;
  id ← generateSnapshotID;
  createdAt ← time_Now;
  let snapshot :=
    {| Snapshot_ID := id;
       Snapshot_CreatedAt := createdAt;
       Snapshot_Description := description;
       Snapshot_State := currentState;
       Snapshot_Metadata :=
         {| SnapshotMetadata_Version := "1.0";
            SnapshotMetadata_CreatedBy := "provctl";
            SnapshotMetadata_TriggerReason := reason;
            SnapshotMetadata_ClusterCount := Z.of_nat (size (State_Clusters currentState));
            SnapshotMetadata_NodePoolCount := Z.of_nat (size (State_NodePools currentState));
            SnapshotMetadata_Tags := ∅ |};
       (* Calculate checksum for integrity verification *)
       Snapshot_Checksum := calculateChecksum currentState |} in
  (* Persist snapshot *)
  wrap_err (Errorf_w "failed to save snapshot") (saveSnapshot snapshot) ;;
  ret snapshot.

Definition LoadSnapshot (snapshotID : string) : M (Env SM) Snapshot :=
  data ← wrap_err (Errorf_w "failed to read snapshot file")
           (os_ReadFile (snapshotID +:+ ".json"));
  match unmarshal data with
  | Ok snapshot => ret snapshot
  | Err err => throw (Errorf_w "failed to unmarshal snapshot" err)
  end.

Definition DeleteSnapshot (snapshotID : string) : M (Env SM) unit :=
  wrap_err (Errorf_w "failed to delete snapshot") (os_Remove (snapshotID +:+ ".json")).

End Manager.

(** *** Restore, list and prune *)

Definition ChangeAction := string.
Definition ActionAdd : ChangeAction := "add".
Definition ActionModify : ChangeAction := "modify".
Definition ActionRemove : ChangeAction := "remove".

(** [Before] and [After] are [interface{}]: nil, a [ClusterSpec] or a
    [WorkerPoolSpec]. *)
Record RestoreChange := {
  RestoreChange_Action : ChangeAction;
  RestoreChange_Resource : ResourceID;
  RestoreChange_Before : option ParamValue;
  RestoreChange_After : option ParamValue
}.

Record RestoreResult := {
  RestoreResult_SnapshotID : string;
  RestoreResult_BackupID : string;
  RestoreResult_RestoredAt : Time;
  RestoreResult_DryRun : bool;
  RestoreResult_Success : bool;
  RestoreResult_Changes : list RestoreChange
}.

(** [SnapshotInfo], without [SizeBytes]: the size of the file's text, which
    a document does not carry. *)
Record SnapshotInfo := {
  SnapshotInfo_ID : string;
  SnapshotInfo_CreatedAt : Time;
  SnapshotInfo_Description : string;
  SnapshotInfo_TriggerReason : TriggerReason;
  SnapshotInfo_ClusterCount : Z;
  SnapshotInfo_NodePoolCount : Z
}.

Record RetentionPolicy := {
  RetentionPolicy_MaxAge : Z;
  RetentionPolicy_MaxCount : Z
}.

(** [string(aJSON) == string(bJSON)] for the texts of the two specs *)
Definition clustersEqual (a b : Cluster) : bool :=
  String.eqb (render (marshal (Resource_Spec a))) (render (marshal (Resource_Spec b))).
Definition nodePoolsEqual (a b : NodePool) : bool :=
  String.eqb (render (marshal (Resource_Spec a))) (render (marshal (Resource_Spec b))).

(** The orders in which the four loops of [calculateRestoreChanges] visit
    their maps. *)
Record ChangeOrders := {
  ChangeOrders_snapshotClusters : list (string * Cluster);
  ChangeOrders_currentClusters : list (string * Cluster);
  ChangeOrders_snapshotPools : list (string * NodePool);
  ChangeOrders_currentPools : list (string * NodePool)
}.

Definition ChangeOrders_valid (o : ChangeOrders) (snapshot current : State) : Prop :=
  ranges (State_Clusters snapshot) (ChangeOrders_snapshotClusters o) ∧
  ranges (State_Clusters current) (ChangeOrders_currentClusters o) ∧
  ranges (State_NodePools snapshot) (ChangeOrders_snapshotPools o) ∧
  ranges (State_NodePools current) (ChangeOrders_currentPools o).

Definition resource_of (kind id name : string) : ResourceID :=
  {| ResourceID_Provider := ""; ResourceID_Kind := kind;
     ResourceID_ID := id; ResourceID_Name := name |}.

Definition calculateRestoreChanges (o : ChangeOrders) (snapshot current : State)
    : list RestoreChange :=
  let changes := [] in
  (* Check for clusters to add or modify *)
  let changes :=
    foldl (λ changes '(id, snapshotCluster),
      match State_Clusters current !! id with
      | Some currentCluster =>
          if negb (clustersEqual snapshotCluster currentCluster) then
            changes ++
            [ {| RestoreChange_Action := ActionModify;
                 RestoreChange_Resource :=
                   resource_of "Cluster" id
                     (ResourceMetadata_Name (Resource_Metadata snapshotCluster));
                 RestoreChange_Before := Some (Param_ClusterSpec (Resource_Spec currentCluster));
                 RestoreChange_After := Some (Param_ClusterSpec (Resource_Spec snapshotCluster)) |} ]
          else changes
      | None =>
          changes ++
          [ {| RestoreChange_Action := ActionAdd;
               RestoreChange_Resource :=
                 resource_of "Cluster" id
                   (ResourceMetadata_Name (Resource_Metadata snapshotCluster));
               RestoreChange_Before := None;
               RestoreChange_After := Some (Param_ClusterSpec (Resource_Spec snapshotCluster)) |} ]
      end) changes (ChangeOrders_snapshotClusters o) in
  (* Check for clusters to remove *)
  let changes :=
    foldl (λ changes '(id, currentCluster),
      match State_Clusters snapshot !! id with
      | None =>
          changes ++
          [ {| RestoreChange_Action := ActionRemove;
               RestoreChange_Resource :=
                 resource_of "Cluster" id
                   (ResourceMetadata_Name (Resource_Metadata currentCluster));
               RestoreChange_Before := Some (Param_ClusterSpec (Resource_Spec currentCluster));
               RestoreChange_After := None |} ]
      | Some _ => changes
      end) changes (ChangeOrders_currentClusters o) in
  (* Similar logic for node pools *)
  let changes :=
    foldl (λ changes '(id, snapshotPool),
      match State_NodePools current !! id with
      | Some currentPool =>
          if negb (nodePoolsEqual snapshotPool currentPool) then
            changes ++
            [ {| RestoreChange_Action := ActionModify;
                 RestoreChange_Resource :=
                   resource_of "NodePool" id
                     (ResourceMetadata_Name (Resource_Metadata snapshotPool));
                 RestoreChange_Before := Some (Param_WorkerPoolSpec (Resource_Spec currentPool));
                 RestoreChange_After := Some (Param_WorkerPoolSpec (Resource_Spec snapshotPool)) |} ]
          else changes
      | None =>
          changes ++
          [ {| RestoreChange_Action := ActionAdd;
               RestoreChange_Resource :=
                 resource_of "NodePool" id
                   (ResourceMetadata_Name (Resource_Metadata snapshotPool));
               RestoreChange_Before := None;
               RestoreChange_After := Some (Param_WorkerPoolSpec (Resource_Spec snapshotPool)) |} ]
      end) changes (ChangeOrders_snapshotPools o) in
  let changes :=
    foldl (λ changes '(id, currentPool),
      match State_NodePools snapshot !! id with
      | None =>
          changes ++
          [ {| RestoreChange_Action := ActionRemove;
               RestoreChange_Resource :=
                 resource_of "NodePool" id
                   (ResourceMetadata_Name (Resource_Metadata currentPool));
               RestoreChange_Before := Some (Param_WorkerPoolSpec (Resource_Spec currentPool));
               RestoreChange_After := None |} ]
      | Some _ => changes
      end) changes (ChangeOrders_currentPools o) in
  changes.

(** [filepath.Ext]: the suffix of [name] from its last dot on, empty when
    there is no dot. *)
Fixpoint has_dot (name : string) : bool :=
  match name with
  | EmptyString => false
  | String c rest => Ascii.eqb c "." || has_dot rest
  end.
Fixpoint Ext (name : string) : string :=
  match name with
  | EmptyString => ""
  | String c rest =>
      if has_dot rest then Ext rest
      else if Ascii.eqb c "." then name else ""
  end.

(** [sort.Slice(snapshots, less)] with [less] comparing [CreatedAt] by
    [After]: newest first.  [sort.Slice] is not stable; when the creation
    times differ, every sort returns this list. *)
Definition not_older (a b : SnapshotInfo) : Prop :=
  After (SnapshotInfo_CreatedAt b) (SnapshotInfo_CreatedAt a) = false.
#[global] Instance not_older_dec : RelDecision not_older.
Proof. intros a b. unfold not_older. apply _. Defined.
Definition sort_newest_first (snapshots : list SnapshotInfo) : list SnapshotInfo :=
  merge_sort not_older snapshots.

Section Manager.
Context {SM : Type} `{!StateManager SM}.

(** [o] gives, for the current state read during the restore, the orders
    [calculateRestoreChanges] follows. *)
Definition RestoreSnapshot (o : State → State → ChangeOrders) (snapshotID : string)
    (dryRun : bool) : M (Env SM) RestoreResult :=
  snapshot ← wrap_err (Errorf_w "failed to load snapshot") (LoadSnapshot snapshotID);
  (* Verify checksum *)
  if negb (String.eqb (calculateChecksum (Snapshot_State snapshot)) (Snapshot_Checksum snapshot))
  then throw "snapshot checksum mismatch - data may be corrupted"
  else
    restoredAt ← time_Now;
    (* Get current state *)
    currentState ← wrap_err (Errorf_w "failed to get current state") state_GetState;
    (* Determine changes needed *)
    let changes :=
      calculateRestoreChanges (o (Snapshot_State snapshot) currentState)
        (Snapshot_State snapshot) currentState in
    if negb dryRun then
      (* Create a backup of current state before restoring *)
      backup ← wrap_err (Errorf_w "failed to create backup")
                 (CreateSnapshot "Pre-restore backup" TriggerManual);
      (* Apply restore *)
      wrap_err (Errorf_w "failed to restore state")
        (state_SaveState (Snapshot_State snapshot)) ;;
      ret {| RestoreResult_SnapshotID := snapshotID;
             RestoreResult_BackupID := Snapshot_ID backup;
             RestoreResult_RestoredAt := restoredAt;
             RestoreResult_DryRun := dryRun;
             RestoreResult_Success := true;
             RestoreResult_Changes := changes |}
    else
      ret {| RestoreResult_SnapshotID := snapshotID;
             RestoreResult_BackupID := "";
             RestoreResult_RestoredAt := restoredAt;
             RestoreResult_DryRun := dryRun;
             RestoreResult_Success := false;
             RestoreResult_Changes := changes |}.

(** The body of the loop of [ListSnapshots] over the directory entries:
    the info of the file [name], if the loop adds one.  [LoadSnapshot] only
    reads. *)
Definition list_entry (w : Env SM) (name : string) : option SnapshotInfo :=
  if negb (String.eqb (Ext name) ".json") then None
  else
    let snapshotID := String.substring 0 (String.length name - 5) name in
    match (LoadSnapshot snapshotID w).1 with
    | Err _ => None (* Skip invalid snapshots *)
    | Ok snapshot =>
        Some {| SnapshotInfo_ID := Snapshot_ID snapshot;
                SnapshotInfo_CreatedAt := Snapshot_CreatedAt snapshot;
                SnapshotInfo_Description := Snapshot_Description snapshot;
                SnapshotInfo_TriggerReason :=
                  SnapshotMetadata_TriggerReason (Snapshot_Metadata snapshot);
                SnapshotInfo_ClusterCount :=
                  SnapshotMetadata_ClusterCount (Snapshot_Metadata snapshot);
                SnapshotInfo_NodePoolCount :=
                  SnapshotMetadata_NodePoolCount (Snapshot_Metadata snapshot) |}
    end.

Definition ListSnapshots : M (Env SM) (list SnapshotInfo) :=
  files ← wrap_err (Errorf_w "failed to read snapshot directory") os_ReadDir;
  w ← gets id;
  let snapshots := omap (list_entry w) files in
  (* Sort by creation time (newest first) *)
  ret (sort_newest_first snapshots).

(** The loop of [PruneSnapshots] from the snapshot it has reached on:
    [total] is [len(snapshots)], [deleted] the ids deleted so far.  The
    result is what [PruneSnapshots] returns, the ids with the error. *)
Fixpoint prune_loop (policy : RetentionPolicy) (now : Time) (total : Z)
    (snapshots : list SnapshotInfo) (deleted : list string) (w : Env SM)
    : (list string * option error) * Env SM :=
  match snapshots with
  | [] => ((deleted, None), w)
  | snapshot :: rest =>
      let shouldDelete := false in
      (* Age-based retention *)
      let shouldDelete :=
        if bool_decide (RetentionPolicy_MaxAge policy > 0)%Z &&
           bool_decide (Sub now (SnapshotInfo_CreatedAt snapshot) > RetentionPolicy_MaxAge policy)%Z
        then true else shouldDelete in
      (* Count-based retention (keep only N most recent) *)
      let shouldDelete :=
        if bool_decide (RetentionPolicy_MaxCount policy > 0)%Z &&
           bool_decide (total - Z.of_nat (length deleted) > RetentionPolicy_MaxCount policy)%Z
        then true else shouldDelete in
      if shouldDelete then
        match DeleteSnapshot (SnapshotInfo_ID snapshot) w with
        | (Err err, w) => ((deleted, Some err), w)
        | (Ok _, w) => prune_loop policy now total rest (deleted ++ [SnapshotInfo_ID snapshot]) w
        end
      else prune_loop policy now total rest deleted w
  end.

Definition PruneSnapshots (policy : RetentionPolicy) (w : Env SM)
    : (list string * option error) * Env SM :=
  match ListSnapshots w with
  | (Err err, w) => (([], Some err), w)
  | (Ok snapshots, w) =>
      match time_Now w with
      | (Ok now, w) =>
          prune_loop policy now (Z.of_nat (length snapshots)) snapshots [] w
      | (Err err, w) => (([], Some err), w)
      end
  end.

End Manager.

End snapshot.
Import snapshot.


(** ** Package reconciler (the second package of pkg/drift/detector.go) *)

Module reconciler.

(** The methods of [engine.CloudProvider] that [ReconcileCluster] calls,
    by what they answer.  [GetCluster] returns a cluster, or nil, or an
    error; the cluster [CreateCluster] returns is dropped by the caller. *)
Record ClusterMethods := {
  GetCluster : string → result (option Cluster);
  CreateCluster : ClusterSpec → result Cluster;
  UpdateCluster : Cluster → option error
}.

(** The calls [ReconcileCluster] makes on the provider, in order. *)
Inductive ProviderCall :=
| Call_GetCluster (clusterID : string)
| Call_CreateCluster (spec : ClusterSpec)
| Call_UpdateCluster (cluster : Cluster).

Record Reconciler := {
  Reconciler_engine : Engine
}.

Definition NewReconciler (eng : Engine) : Reconciler := {| Reconciler_engine := eng |}.

Definition needsUpdate (desired actual : Cluster) : bool :=
  bool_decide (ControlPlaneSpec_Version (ClusterSpec_ControlPlane (Resource_Spec desired))
               ≠ ControlPlaneSpec_Version (ClusterSpec_ControlPlane (Resource_Spec actual))).

(** What one call of [ReconcileCluster] leaves behind: the error it
    returns, the calls it made on the provider, and what it logged. *)
Record Reconciliation := {
  Reconciliation_err : option error;
  Reconciliation_calls : list ProviderCall;
  Reconciliation_log : list LogRecord
}.

Section ReconcileCluster.
(** The [CloudProvider] of the engine embedding carries [Name] and
    [Reconcile]; [methods] gives the cluster methods of a provider. *)
Context (methods : CloudProvider → ClusterMethods).

Definition ReconcileCluster (r : Reconciler) (cluster : Cluster) : Reconciliation :=
  let log :=
    [ {| LogRecord_level := LevelInfo;
         LogRecord_msg := "reconciling cluster";
         LogRecord_attrs :=
           [("id", Value_string (Resource_ID cluster));
            ("name", Value_string (ResourceMetadata_Name (Resource_Metadata cluster)));
            ("provider", Value_string (ClusterSpec_Provider (Resource_Spec cluster)))] |} ] in
  match GetProvider (Reconciler_engine r) (ClusterSpec_Provider (Resource_Spec cluster)) with
  | None =>
      {| Reconciliation_err :=
           Some ("provider " +:+ ClusterSpec_Provider (Resource_Spec cluster) +:+ " not found");
         Reconciliation_calls := [];
         Reconciliation_log := log |}
  | Some provider =>
      (* Get actual cluster state *)
      let calls := [Call_GetCluster (Resource_ID cluster)] in
      match GetCluster (methods provider) (Resource_ID cluster) with
      | Err err =>
          {| Reconciliation_err := Some (Errorf_w "failed to get cluster" err);
             Reconciliation_calls := calls;
             Reconciliation_log := log |}
      | Ok None =>
          (* If cluster doesn't exist, create it *)
          let log :=
            log ++ [ {| LogRecord_level := LevelInfo;
                        LogRecord_msg := "cluster not found, creating";
                        LogRecord_attrs := [("id", Value_string (Resource_ID cluster))] |} ] in
          let calls := calls ++ [Call_CreateCluster (Resource_Spec cluster)] in
          match CreateCluster (methods provider) (Resource_Spec cluster) with
          | Err err =>
              {| Reconciliation_err := Some (Errorf_w "failed to create cluster" err);
                 Reconciliation_calls := calls;
                 Reconciliation_log := log |}
          | Ok _ =>
              {| Reconciliation_err := None;
                 Reconciliation_calls := calls;
                 Reconciliation_log := log |}
          end
      | Ok (Some actual) =>
          (* Update cluster if needed *)
          if needsUpdate cluster actual then
            let log :=
              log ++ [ {| LogRecord_level := LevelInfo;
                          LogRecord_msg := "cluster needs update";
                          LogRecord_attrs := [("id", Value_string (Resource_ID cluster))] |} ] in
            let calls := calls ++ [Call_UpdateCluster cluster] in
            match UpdateCluster (methods provider) cluster with
            | Some err =>
                {| Reconciliation_err := Some (Errorf_w "failed to update cluster" err);
                   Reconciliation_calls := calls;
                   Reconciliation_log := log |}
            | None =>
                {| Reconciliation_err := None;
                   Reconciliation_calls := calls;
                   Reconciliation_log := log |}
            end
          else
            {| Reconciliation_err := None;
               Reconciliation_calls := calls;
               Reconciliation_log := log |}
      end
  end.

End ReconcileCluster.

End reconciler.

(** ** Packages aws and azure (pkg/providers/aws/provider.go) *)

Module providers.

(** [GetCluster] and [UpdateCluster] of both providers: after logging,
    the one returns [nil, nil] and the other nil. *)
Definition GetCluster (clusterID : string) : result (option Cluster) := Ok None.
Definition UpdateCluster (cluster : Cluster) : option error := None.

(** The cluster methods of the aws or azure provider, given what its
    [CreateCluster] answers. *)
Definition methods (createCluster : ClusterSpec → result Cluster) : reconciler.ClusterMethods :=
  {| reconciler.GetCluster := GetCluster;
     reconciler.CreateCluster := createCluster;
     reconciler.UpdateCluster := UpdateCluster |}.

End providers.

(** ** Reading a plan *)

(** The four actions [GeneratePlan] writes. *)
Definition createCluster (id : string) (cluster : Cluster) : Action :=
  {| Action_Type := ActionCreate;
     Action_Resource :=
       {| ResourceID_Provider := ClusterSpec_Provider (Resource_Spec cluster);
          ResourceID_Kind := "Cluster";
          ResourceID_ID := id;
          ResourceID_Name := ResourceMetadata_Name (Resource_Metadata cluster) |};
     Action_Parameters := {[ "spec" := Param_ClusterSpec (Resource_Spec cluster) ]} |}.

Definition updateCluster (id : string) (desiredCluster : Cluster) : Action :=
  {| Action_Type := ActionUpdate;
     Action_Resource :=
       {| ResourceID_Provider := ClusterSpec_Provider (Resource_Spec desiredCluster);
          ResourceID_Kind := "Cluster";
          ResourceID_ID := id;
          ResourceID_Name := ResourceMetadata_Name (Resource_Metadata desiredCluster) |};
     Action_Parameters := {[ "spec" := Param_ClusterSpec (Resource_Spec desiredCluster) ]} |}.

Definition deleteCluster (id : string) (cluster : Cluster) : Action :=
  {| Action_Type := ActionDelete;
     Action_Resource :=
       {| ResourceID_Provider := ClusterSpec_Provider (Resource_Spec cluster);
          ResourceID_Kind := "Cluster";
          ResourceID_ID := id;
          ResourceID_Name := ResourceMetadata_Name (Resource_Metadata cluster) |};
     Action_Parameters := ∅ |}.

Definition createNodePool (id : string) (pool : NodePool) : Action :=
  {| Action_Type := ActionCreate;
     Action_Resource :=
       {| ResourceID_Provider := "";
          ResourceID_Kind := "NodePool";
          ResourceID_ID := id;
          ResourceID_Name := ResourceMetadata_Name (Resource_Metadata pool) |};
     Action_Parameters := {[ "spec" := Param_WorkerPoolSpec (Resource_Spec pool) ]} |}.

(** The actions each loop of [GeneratePlan] adds for one map entry. *)
Definition clusterCreates (actual : State) (kv : string * Cluster) : list Action :=
  match State_Clusters actual !! kv.1 with
  | None => [createCluster kv.1 kv.2]
  | Some _ => []
  end.

Definition clusterUpdates (actual : State) (kv : string * Cluster) : list Action :=
  match State_Clusters actual !! kv.1 with
  | Some actualCluster => if needsUpdate kv.2 actualCluster then [updateCluster kv.1 kv.2] else []
  | None => []
  end.

Definition clusterDeletes (desired : State) (kv : string * Cluster) : list Action :=
  match State_Clusters desired !! kv.1 with
  | None => [deleteCluster kv.1 kv.2]
  | Some _ => []
  end.

Definition poolCreates (actual : State) (kv : string * NodePool) : list Action :=
  match State_NodePools actual !! kv.1 with
  | None => [createNodePool kv.1 kv.2]
  | Some _ => []
  end.

(** The kind and id an action is about. *)
Definition target (a : Action) : string * string :=
  (ResourceID_Kind (Action_Resource a), ResourceID_ID (Action_Resource a)).

(** In [plan], every action satisfying [P] is listed before every action
    satisfying [Q]. *)
Definition precedes (plan : Plan) (P Q : Action → Prop) : Prop :=
  ∀ i j a b,
    Plan_Actions plan !! i = Some a → Plan_Actions plan !! j = Some b →
    P a → Q b → (i < j)%nat.

Definition has_type (t : ActionType) (a : Action) : Prop := Action_Type a = t.
Definition has_kind (k : string) (a : Action) : Prop :=
  ResourceID_Kind (Action_Resource a) = k.

(** The position of an action's block in the plan. *)
Definition block (a : Action) : nat :=
  if decide (ResourceID_Kind (Action_Resource a) = "Cluster") then
    if decide (Action_Type a = ActionCreate) then 0
    else if decide (Action_Type a = ActionUpdate) then 1
    else if decide (Action_Type a = ActionDelete) then 2
    else 3
  else 4.


#[global] Instance has_type_dec t a : Decision (has_type t a).
Proof. unfold has_type. apply _. Defined.

(** What [PrintPlan] reads of an action: its type and the kind, name and id
    of its resource. *)
Definition printed (a : Action) : ActionType * string * string * string :=
  (Action_Type a, ResourceID_Kind (Action_Resource a), ResourceID_Name (Action_Resource a),
   ResourceID_ID (Action_Resource a)).

(** The actions [PrintPlan] has a case for. *)
Definition listed (a : Action) : Prop :=
  Action_Type a = ActionCreate ∨ Action_Type a = ActionUpdate ∨ Action_Type a = ActionDelete.
#[global] Instance listed_dec a : Decision (listed a).
Proof. unfold listed. apply _. Defined.

(** The entries of a map that the other map [m] has no key for, and the
    desired clusters that [actual] holds at another version. *)
Definition missing_from {T} (m : gmap string T) (kv : string * T) : Prop := m !! kv.1 = None.
#[global] Instance missing_from_dec {T} (m : gmap string T) kv : Decision (missing_from m kv).
Proof. unfold missing_from. apply _. Defined.

Definition outdated (actual : State) (kv : string * Cluster) : Prop :=
  match State_Clusters actual !! kv.1 with
  | Some actualCluster => needsUpdate kv.2 actualCluster = true
  | None => False
  end.
#[global] Instance outdated_dec actual kv : Decision (outdated actual kv).
Proof. unfold outdated. destruct (State_Clusters actual !! kv.1); apply _. Defined.
(** ** Reading a run of [Apply] *)

Section Apply_runs.
Context {ES : Type} `{!EventStore ES}.

(** The event [Apply] writes for an action. *)
Definition event_of (action : Action) : Event :=
  {| Event_Type := toEventType (Action_Type action);
     Event_Resource := Action_Resource action;
     Event_Payload := Action_Parameters action |}.

(** The actions [Apply] executed and the events it wrote (or tried to
    write), read off its calls. *)
Definition executed (calls : list Call) : list Action :=
  omap (λ c, match c with Call_executeAction a => Some a | _ => None end) calls.
Definition event_writes (calls : list Call) : list Event :=
  omap (λ c, match c with Call_RecordEvent ev => Some ev | _ => None end) calls.

(** Every action of [actions] executes without error and every event write
    is answered with nil, when the loop starts from the store [es]. *)
Fixpoint all_succeed (e : Engine) (actions : list Action) (es : ES) : Prop :=
  match actions with
  | [] => True
  | action :: rest =>
      (executeAction e action {| World_events := es; World_calls := [] |}).1 = Ok tt ∧
      (RecordEvent es (event_of action)).1 = None ∧
      all_succeed e rest (RecordEvent es (event_of action)).2
  end.

(** The first step of the loop that fails: the action at index [n] itself,
    or the write of its event. *)
Inductive Failure :=
| Failure_action (n : nat) (err : error)
| Failure_event (n : nat) (err : error).

Definition Failure_next (f : Failure) : Failure :=
  match f with
  | Failure_action n err => Failure_action (S n) err
  | Failure_event n err => Failure_event (S n) err
  end.

Fixpoint first_failure (e : Engine) (actions : list Action) (es : ES) : option Failure :=
  match actions with
  | [] => None
  | action :: rest =>
      match (executeAction e action {| World_events := es; World_calls := [] |}).1 with
      | Err err => Some (Failure_action 0 err)
      | Ok _ =>
          match RecordEvent es (event_of action) with
          | (Some err, _) => Some (Failure_event 0 err)
          | (None, es') => Failure_next <$> first_failure e rest es'
          end
      end
  end.

Definition step_calls (a : Action) : list Call :=
  [Call_executeAction a; Call_RecordEvent (event_of a)].

(** The calls the loop makes, given its first failure. *)
Definition loop_calls (actions : list Action) (f : option Failure) : list Call :=
  match f with
  | None => actions ≫= step_calls
  | Some (Failure_action n _) =>
      (take n actions ≫= step_calls) ++ (take 1 (drop n actions) ≫= λ a, [Call_executeAction a])
  | Some (Failure_event n _) => take (S n) actions ≫= step_calls
  end.

Definition loop_result (f : option Failure) : result unit :=
  match f with
  | None => Ok tt
  | Some (Failure_action _ err) | Some (Failure_event _ err) => Err err
  end.

(** The store after the writes of [events], one after the other, whatever
    each write answered. *)
Definition store_after (es : ES) (events : list Event) : ES :=
  foldl (λ es event, (RecordEvent es event).2) es events.

(** How many event writes a run of the loop over [actions] attempts, given
    its first failure. *)
Definition attempted_writes (actions : list Action) (f : option Failure) : nat :=
  match f with
  | None => length actions
  | Some (Failure_action n _) => n
  | Some (Failure_event n _) => S n
  end.

End Apply_runs.

Definition Failure_index (f : Failure) : nat :=
  match f with Failure_action n _ | Failure_event n _ => n end.
Definition Failure_error (f : Failure) : error :=
  match f with Failure_action _ err | Failure_event _ err => err end.
(** The events whose write was attempted before the loop stopped at [f]. *)
Definition Failure_writes (f : Failure) : nat :=
  match f with Failure_action n _ => n | Failure_event n _ => S n end.


(** The action types [toEventType] has a case for. *)
Definition listed_type (t : ActionType) : Prop :=
  t = ActionCreate ∨ t = ActionUpdate ∨ t = ActionDelete.
(** ** Reading the log of [Remediate] *)

(** The records that announce an attempt, and those that report a failure. *)
Definition is_attempt (r : LogRecord) : bool :=
  String.eqb (LogRecord_msg r) "remediating drift".
Definition is_failure (r : LogRecord) : bool :=
  bool_decide (LogRecord_level r = LevelError) && String.eqb (LogRecord_msg r) "failed to remediate drift".

(** The failure record [Remediate] logs for [drift], if it logs one. *)
Definition failure_of (d : DriftDetector) (drift : ResourceDrift) : option LogRecord :=
  if ResourceDrift_Remediatable drift then log_failed drift <$> (remediateDrift d drift).1
  else None.

(** What one pass of the loop of [Remediate] adds to the log. *)
Definition step_log (d : DriftDetector) (drift : ResourceDrift) : list LogRecord :=
  if negb (ResourceDrift_Remediatable drift) then [log_not_remediatable drift]
  else
    [log_remediating drift] ++ (remediateDrift d drift).2 ++
    match (remediateDrift d drift).1 with
    | Some err => [log_failed drift err]
    | None => []
    end.


(** ** Reading the drifts of a provider pass *)

(** What every drift written by the loops of [DetectDrift] for the provider
    [providerName] has in common. *)
Definition detected_for (providerName : string) (drift : ResourceDrift) : Prop :=
  ResourceID_Provider (ResourceDrift_Resource drift) = providerName ∧
  ResourceDrift_Remediatable drift = true ∧
  (ResourceDrift_DriftType drift = DriftResourceDeleted ∧
     (ResourceDrift_Severity drift = SeverityCritical ∧
        ResourceID_Kind (ResourceDrift_Resource drift) = "Cluster" ∨
      ResourceDrift_Severity drift = SeverityHigh ∧
        ResourceID_Kind (ResourceDrift_Resource drift) = "NodePool") ∨
   ResourceDrift_DriftType drift = DriftVersionSkew ∧
     ResourceDrift_Severity drift = SeverityHigh ∧
     ResourceID_Kind (ResourceDrift_Resource drift) = "Cluster" ∨
   ResourceDrift_DriftType drift = DriftScaleChange ∧
     ResourceDrift_Severity drift = SeverityMedium ∧
     ResourceID_Kind (ResourceDrift_Resource drift) = "NodePool").

(** A step of the detection keeps the drifts found so far and adds drifts
    that satisfy [P]. *)
Definition appends (P : ResourceDrift → Prop) (f : Detection → Detection) : Prop :=
  ∀ s, ∃ new, Detection_Drifts (f s) = Detection_Drifts s ++ new ∧ Forall P new.

(** The drifts [Remediate] counts as remediated. *)
Definition remediated (d : DriftDetector) (drift : ResourceDrift) : Prop :=
  ResourceDrift_Remediatable drift = true ∧ (remediateDrift d drift).1 = None.
#[global] Instance remediated_dec d drift : Decision (remediated d drift).
Proof. unfold remediated. apply _. Defined.

(** The two drifts [DetectDrift] writes for a desired worker pool: its
    size differs from that of an actual pool of its name, or no actual pool
    has its name. *)
Definition scale_drift (providerName id : string) (desiredPool actualPool : WorkerPoolSpec)
    : ResourceDrift :=
  {| ResourceDrift_Resource :=
       {| ResourceID_Provider := providerName;
          ResourceID_Kind := "NodePool";
          ResourceID_ID := id +:+ "/" +:+ WorkerPoolSpec_Name desiredPool;
          ResourceID_Name := WorkerPoolSpec_Name desiredPool |};
     ResourceDrift_DriftType := DriftScaleChange;
     ResourceDrift_Field := "desiredSize";
     ResourceDrift_Expected := Value_int (WorkerPoolSpec_DesiredSize desiredPool);
     ResourceDrift_Actual := Value_int (WorkerPoolSpec_DesiredSize actualPool);
     ResourceDrift_Severity := SeverityMedium;
     ResourceDrift_Remediatable := true |}.

Definition pool_deleted_drift (providerName id : string) (desiredPool : WorkerPoolSpec)
    : ResourceDrift :=
  {| ResourceDrift_Resource :=
       {| ResourceID_Provider := providerName;
          ResourceID_Kind := "NodePool";
          ResourceID_ID := id +:+ "/" +:+ WorkerPoolSpec_Name desiredPool;
          ResourceID_Name := WorkerPoolSpec_Name desiredPool |};
     ResourceDrift_DriftType := DriftResourceDeleted;
     ResourceDrift_Field := "nodePool";
     ResourceDrift_Expected := Value_string "exists";
     ResourceDrift_Actual := Value_string "deleted";
     ResourceDrift_Severity := SeverityHigh;
     ResourceDrift_Remediatable := true |}.
(** ** The laws of a codec *)

(** The laws of a codec: reading back what was written gives the value,
    [null] reads as the zero value, and only the zero value is empty. *)
Class CodecOk (A : Type) `{Codec A} := {
  unmarshal_marshal : ∀ a : A, unmarshal (marshal a) = Ok a;
  unmarshal_null : unmarshal JNull = Ok (zero : A);
  empty_zero : ∀ a : A, empty a = true → a = zero
}.

(** The type is never written as [null]. *)
Class NotNull (A : Type) `{Codec A} :=
  marshal_not_null : ∀ a : A, marshal a ≠ JNull.

(** ** Reading the retention policy *)

(** The age test of [PruneSnapshots] for one snapshot, [now] being the
    time read at the start of the pruning. *)
Definition expired (policy : RetentionPolicy) (now : Time) (snapshot : SnapshotInfo) : Prop :=
  RetentionPolicy_MaxAge policy > 0 ∧
  Sub now (SnapshotInfo_CreatedAt snapshot) > RetentionPolicy_MaxAge policy.
#[global] Instance expired_dec policy now snapshot : Decision (expired policy now snapshot).
Proof. unfold expired. apply _. Defined.


(** ** Reading a snapshot id *)

(** [id] holds a path separator.  For an id that holds none,
    [filepath.Join(m.snapshotDir, id+".json")] is the file [id.json] of the
    snapshot directory. *)
Fixpoint has_separator (id : string) : bool :=
  match id with
  | EmptyString => false
  | String c rest => Ascii.eqb c "/" || has_separator rest
  end.

(** The files of the snapshots [ids]. *)
Definition files_of (ids : list string) : list string := (λ id, id +:+ ".json") <$> ids.
(** ** Example data *)

Definition mkCluster (id name provider version : string) : Cluster :=
  {| Resource_ID := id;
     Resource_Metadata :=
       {| ResourceMetadata_Name := name; ResourceMetadata_Namespace := "";
          ResourceMetadata_Labels := ∅; ResourceMetadata_Annotations := ∅ |};
     Resource_Spec :=
       {| ClusterSpec_Provider := provider; ClusterSpec_Region := "";
          ClusterSpec_Network :=
            {| NetworkSpec_VPCCIDR := ""; NetworkSpec_AvailabilityZones := [];
               NetworkSpec_Subnets := []; NetworkSpec_NATGateway := false;
               NetworkSpec_PrivateCluster := false |};
          ClusterSpec_ControlPlane :=
            {| ControlPlaneSpec_Type := ""; ControlPlaneSpec_Version := version;
               ControlPlaneSpec_InstanceType := ""; ControlPlaneSpec_Count := 0;
               ControlPlaneSpec_HA := false; ControlPlaneSpec_Identity := None |};
          ClusterSpec_WorkerPools := []; ClusterSpec_Tags := ∅ |};
     Resource_Status :=
       {| ResourceStatus_Phase := ""; ResourceStatus_Message := "";
          ResourceStatus_Properties := ∅ |} |}.


Definition mkNodePool (id name : string) (desiredSize : Z) : NodePool :=
  {| Resource_ID := id;
     Resource_Metadata :=
       {| ResourceMetadata_Name := name; ResourceMetadata_Namespace := "";
          ResourceMetadata_Labels := ∅; ResourceMetadata_Annotations := ∅ |};
     Resource_Spec :=
       {| WorkerPoolSpec_Name := name; WorkerPoolSpec_InstanceType := "";
          WorkerPoolSpec_MinSize := 0; WorkerPoolSpec_MaxSize := 0;
          WorkerPoolSpec_DesiredSize := desiredSize; WorkerPoolSpec_Spot := None;
          WorkerPoolSpec_Labels := ∅; WorkerPoolSpec_Taints := [] |};
     Resource_Status :=
       {| ResourceStatus_Phase := ""; ResourceStatus_Message := "";
          ResourceStatus_Properties := ∅ |} |}.

(** One cluster to upgrade and one node pool to add. *)
Definition upgrade_desired : State :=
  {| State_Clusters := {[ "c1" := mkCluster "c1" "prod" "aws" "1.29" ]};
     State_NodePools := {[ "p1" := mkNodePool "p1" "workers" 3 ]} |}.
Definition upgrade_actual : State :=
  {| State_Clusters := {[ "c1" := mkCluster "c1" "prod" "aws" "1.28" ]};
     State_NodePools := ∅ |}.
Definition upgrade_plan : Plan :=
  {| Plan_Actions :=
       [ {| Action_Type := ActionUpdate;
            Action_Resource :=
              {| ResourceID_Provider := "aws"; ResourceID_Kind := "Cluster";
                 ResourceID_ID := "c1"; ResourceID_Name := "prod" |};
            Action_Parameters :=
              {[ "spec" := Param_ClusterSpec (Resource_Spec (mkCluster "c1" "prod" "aws" "1.29")) ]} |};
         {| Action_Type := ActionCreate;
            Action_Resource :=
              {| ResourceID_Provider := ""; ResourceID_Kind := "NodePool";
                 ResourceID_ID := "p1"; ResourceID_Name := "workers" |};
            Action_Parameters :=
              {[ "spec" := Param_WorkerPoolSpec (Resource_Spec (mkNodePool "p1" "workers" 3)) ]} |} ] |}.

(** A node pool that exists and is no longer wanted. *)
Definition orphan_pool_actual : State :=
  {| State_Clusters := ∅;
     State_NodePools := {[ "p1" := mkNodePool "p1" "workers" 3 ]} |}.


(** Two clusters wanted where none exists, and the two orders in which a
    loop over them can go. *)
Definition blue : Cluster := mkCluster "blue" "blue" "aws" "1.28".
Definition green : Cluster := mkCluster "green" "green" "azure" "1.28".
Definition two_clusters_desired : State :=
  {| State_Clusters := {[ "blue" := blue; "green" := green ]};
     State_NodePools := ∅ |}.
Definition blue_first : Orders :=
  {| Orders_create := [("blue", blue); ("green", green)];
     Orders_update := [("blue", blue); ("green", green)];
     Orders_delete := [];
     Orders_pools := [] |}.
Definition green_first : Orders :=
  {| Orders_create := [("green", green); ("blue", blue)];
     Orders_update := [("blue", blue); ("green", green)];
     Orders_delete := [];
     Orders_pools := [] |}.
(** An event store that keeps its events in a list and refuses a write
    once it holds [capacity] events. *)
Record BoundedStore := {
  BoundedStore_capacity : nat;
  BoundedStore_events : list Event
}.

#[global] Instance BoundedStore_EventStore : EventStore BoundedStore := {
  RecordEvent es event :=
    if decide (length (BoundedStore_events es) < BoundedStore_capacity es)%nat then
      (None, {| BoundedStore_capacity := BoundedStore_capacity es;
                BoundedStore_events := BoundedStore_events es ++ [event] |})
    else (Some "event store full", es)
}.

(** The drift scenario: cluster C1 is desired at version 1.29, and the
    registered provider aws reports it at 1.28. *)
Definition skew_desired : State :=
  {| State_Clusters := {[ "C1" := mkCluster "C1" "C1" "aws" "1.29" ]}; State_NodePools := ∅ |}.
Definition skew_live : State :=
  {| State_Clusters := {[ "C1" := mkCluster "C1" "C1" "aws" "1.28" ]}; State_NodePools := ∅ |}.
Definition skew_provider : CloudProvider :=
  {| CloudProvider_Name := "aws"; CloudProvider_Reconcile := λ _ _, Ok skew_live |}.
Definition skew_detector : DriftDetector :=
  NewDriftDetector (RegisterProvider NewEngine skew_provider).
Definition skew_drift : ResourceDrift :=
  {| ResourceDrift_Resource :=
       {| ResourceID_Provider := "aws"; ResourceID_Kind := "Cluster";
          ResourceID_ID := "C1"; ResourceID_Name := "C1" |};
     ResourceDrift_DriftType := DriftVersionSkew;
     ResourceDrift_Field := "controlPlane.version";
     ResourceDrift_Expected := Value_string "1.29";
     ResourceDrift_Actual := Value_string "1.28";
     ResourceDrift_Severity := SeverityHigh;
     ResourceDrift_Remediatable := true |}.

(** A report whose one drift is remediatable and of a type [remediateDrift]
    does not support. *)
Definition config_drift : ResourceDrift :=
  {| ResourceDrift_Resource :=
       {| ResourceID_Provider := "aws"; ResourceID_Kind := "Cluster";
          ResourceID_ID := "C1"; ResourceID_Name := "C1" |};
     ResourceDrift_DriftType := DriftConfigChange;
     ResourceDrift_Field := "tags";
     ResourceDrift_Expected := Value_string "team=a";
     ResourceDrift_Actual := Value_string "team=b";
     ResourceDrift_Severity := SeverityLow;
     ResourceDrift_Remediatable := true |}.
Definition config_report : DriftReport :=
  {| DriftReport_DetectedAt := 0;
     DriftReport_HasDrift := true;
     DriftReport_Drifts := [config_drift; skew_drift];
     DriftReport_Summary :=
       {| DriftSummary_TotalDrifts := 2; DriftSummary_CriticalCount := 0;
          DriftSummary_HighCount := 1; DriftSummary_MediumCount := 0;
          DriftSummary_LowCount := 1; DriftSummary_RemediableCount := 2 |} |}.


(** ** Reconciler examples *)

(** A provider that holds cluster C1 at version 1.28 and accepts every
    creation and update. *)
Definition skew_methods (provider : CloudProvider) : reconciler.ClusterMethods :=
  {| reconciler.GetCluster := λ clusterID, Ok (State_Clusters skew_live !! clusterID);
     reconciler.CreateCluster := λ spec,
       Ok {| Resource_ID := "new"; Resource_Metadata := Resource_Metadata (mkCluster "" "" "" "");
             Resource_Spec := spec; Resource_Status := Resource_Status (mkCluster "" "" "" "") |};
     reconciler.UpdateCluster := λ cluster, None |}.
Definition skew_reconciler : reconciler.Reconciler :=
  reconciler.NewReconciler (RegisterProvider NewEngine skew_provider).

(** A cluster whose list of worker pools names the pool workers twice,
    with three and with five nodes. *)
Definition twin_pools_cluster : Cluster :=
  {| Resource_ID := "C1";
     Resource_Metadata := Resource_Metadata (mkCluster "C1" "C1" "aws" "1.28");
     Resource_Spec :=
       {| ClusterSpec_Provider := "aws"; ClusterSpec_Region := "";
          ClusterSpec_Network := ClusterSpec_Network (Resource_Spec (mkCluster "C1" "C1" "aws" "1.28"));
          ClusterSpec_ControlPlane :=
            ClusterSpec_ControlPlane (Resource_Spec (mkCluster "C1" "C1" "aws" "1.28"));
          ClusterSpec_WorkerPools :=
            [Resource_Spec (mkNodePool "p1" "workers" 3); Resource_Spec (mkNodePool "p2" "workers" 5)];
          ClusterSpec_Tags := ∅ |};
     Resource_Status := Resource_Status (mkCluster "C1" "C1" "aws" "1.28") |}.

(** *** Snapshot examples *)

(** A clock that starts at 2024-02-03 00:00:00 UTC and advances by [step]
    nanoseconds with every reading. *)
Definition stepping_clock (step : Z) (n : nat) : Time :=
  1706918400 * 1000000000 + Z.of_nat n * step.

Definition fresh_env (step : Z) (state : State) : Env mockStateManager :=
  {| Env_files := ∅;
     Env_state := {| mockStateManager_state := state |};
     Env_clock := stepping_clock step;
     Env_reads := 0 |}.

(** The ids [ListSnapshots] returns, in its order. *)
Definition listed_ids (w : Env mockStateManager) : result (list string) :=
  match (ListSnapshots w).1 with
  | Ok snapshots => Ok (SnapshotInfo_ID <$> snapshots)
  | Err err => Err err
  end.
Definition listed_times (w : Env mockStateManager) : result (list Time) :=
  match (ListSnapshots w).1 with
  | Ok snapshots => Ok (SnapshotInfo_CreatedAt <$> snapshots)
  | Err err => Err err
  end.

(** Five snapshots taken one after the other, the clock advancing one
    second per reading. *)
Definition five_snapshots : Env mockStateManager :=
  let create := CreateSnapshot "Snapshot" TriggerManual in
  ((create ;; create ;; create ;; create ;; create) (fresh_env 1000000000 upgrade_actual)).2.

Definition keep_three : RetentionPolicy :=
  {| RetentionPolicy_MaxAge := 0; RetentionPolicy_MaxCount := 3 |}.

(** The loops of [calculateRestoreChanges] following [map_to_list]. *)
Definition ChangeOrders_default (snapshot current : State) : ChangeOrders :=
  {| ChangeOrders_snapshotClusters := map_to_list (State_Clusters snapshot);
     ChangeOrders_currentClusters := map_to_list (State_Clusters current);
     ChangeOrders_snapshotPools := map_to_list (State_NodePools snapshot);
     ChangeOrders_currentPools := map_to_list (State_NodePools current) |}.

(** [w] with the state of the snapshot stored under [id] replaced by
    [state], the rest of its record kept. *)
Definition tamper (id : string) (state : State) (w : Env mockStateManager)
    : Env mockStateManager :=
  match (LoadSnapshot id w).1 with
  | Ok snapshot =>
      set_files (<[id +:+ ".json" :=
                   marshal {| Snapshot_ID := Snapshot_ID snapshot;
                              Snapshot_CreatedAt := Snapshot_CreatedAt snapshot;
                              Snapshot_Description := Snapshot_Description snapshot;
                              Snapshot_State := state;
                              Snapshot_Metadata := Snapshot_Metadata snapshot;
                              Snapshot_Checksum := Snapshot_Checksum snapshot |}]>) w
  | Err _ => w
  end.





(** Two snapshots taken 20 ms apart, the state changing in between. *)
Definition first_snapshot : result Snapshot * Env mockStateManager :=
  CreateSnapshot "first" TriggerManual (fresh_env 10000000 upgrade_actual).
Definition second_snapshot : result Snapshot * Env mockStateManager :=
  (state_SaveState upgrade_desired ;; CreateSnapshot "second" TriggerPreApply) first_snapshot.2.

(** A snapshot restored 20 ms after it was taken. *)
Definition quick_restore : result RestoreResult * Env mockStateManager :=
  (state_SaveState upgrade_desired ;;
   RestoreSnapshot ChangeOrders_default "snapshot-20240203-000000" false) first_snapshot.2.



(** What [ListSnapshots] returns for [five_snapshots]. *)
Definition five_infos : list SnapshotInfo :=
  match (ListSnapshots five_snapshots).1 with
  | Ok snapshots => snapshots
  | Err _ => []
  end.

(** A directory with one snapshot of [upgrade_actual], whose stored state
    was then replaced by the empty state: the stored checksum no longer
    fits. *)
Definition corrupted_env : Env mockStateManager :=
  tamper "snapshot-20240203-000000" State_zero
    (CreateSnapshot "nightly" TriggerScheduled (fresh_env 1000000000 upgrade_actual)).2.

(** Keep what is younger than four seconds. *)
Definition keep_four_seconds : RetentionPolicy :=
  {| RetentionPolicy_MaxAge := 4000000000; RetentionPolicy_MaxCount := 0 |}.

(** A cluster name in Latin-1: the byte E9 at its end is no valid UTF-8.
    Read back from a document, the name ends in the replacement
    character. *)
Definition latin1_name : string := "caf" +:+ String (ascii_of_nat 233) EmptyString.
Definition replaced_name : string := "caf" +:+ RuneError.

Definition latin1_state : State :=
  {| State_Clusters := {[ "c1" := mkCluster "c1" latin1_name "aws" "1.28" ]};
     State_NodePools := ∅ |}.
Definition replaced_state : State :=
  {| State_Clusters := {[ "c1" := mkCluster "c1" replaced_name "aws" "1.28" ]};
     State_NodePools := ∅ |}.

(** A snapshot of [latin1_state] taken in a fresh directory. *)
Definition latin1_snapshot : result Snapshot * Env mockStateManager :=
  CreateSnapshot "nightly" TriggerScheduled (fresh_env 1000000000 latin1_state).

(** The snapshot that was returned, and the snapshot that is loaded by its
    id afterwards. *)
Definition latin1_created : Snapshot :=
  match latin1_snapshot.1 with
  | Ok snapshot => snapshot
  | Err _ => Snapshot_zero
  end.
Definition latin1_loaded : Snapshot :=
  match (LoadSnapshot (Snapshot_ID latin1_created) latin1_snapshot.2).1 with
  | Ok snapshot => snapshot
  | Err _ => Snapshot_zero
  end.
(** * Properties *)

(** * Planner *)

Section planner_facts.

Lemma for_range_actions {V} (body : string → V → Plan → Plan)
    (f : string * V → list Action) order plan :
  (∀ kv p, Plan_Actions (body kv.1 kv.2 p) = Plan_Actions p ++ f kv) →
  Plan_Actions (for_range order body plan) = Plan_Actions plan ++ (order ≫= f).
Proof.
  intros Hbody. unfold for_range. revert plan.
  induction order as [|kv order IH]; intros plan; simpl.
  - by rewrite app_nil_r.
  - rewrite IH, Hbody, <- app_assoc. done.
Qed.

(** The plan is the four blocks of actions, one per loop, in the order of
    the loops. *)
Lemma GeneratePlan_blocks o desired actual :
  Plan_Actions (GeneratePlan o desired actual).1 =
    (Orders_create o ≫= clusterCreates actual) ++
    (Orders_update o ≫= clusterUpdates actual) ++
    (Orders_delete o ≫= clusterDeletes desired) ++
    (Orders_pools o ≫= poolCreates actual).
Proof.
  unfold GeneratePlan. cbn [fst].
  rewrite (for_range_actions _ (poolCreates actual)).
  2:{ intros [id v] p. unfold poolCreates. cbn [fst snd].
      destruct (State_NodePools actual !! id); simpl; by rewrite ?app_nil_r. }
  rewrite (for_range_actions _ (clusterDeletes desired)).
  2:{ intros [id v] p. unfold clusterDeletes. cbn [fst snd].
      destruct (State_Clusters desired !! id); simpl; by rewrite ?app_nil_r. }
  rewrite (for_range_actions _ (clusterUpdates actual)).
  2:{ intros [id v] p. unfold clusterUpdates. cbn [fst snd].
      destruct (State_Clusters actual !! id); [destruct (needsUpdate _ _)|];
        simpl; by rewrite ?app_nil_r. }
  rewrite (for_range_actions _ (clusterCreates actual)).
  2:{ intros [id v] p. unfold clusterCreates. cbn [fst snd].
      destruct (State_Clusters actual !! id); simpl; by rewrite ?app_nil_r. }
  simpl. by rewrite <- !app_assoc.
Qed.

Lemma GeneratePlan_no_error o desired actual :
  (GeneratePlan o desired actual).2 = None.
Proof. done. Qed.

(** Every pair of states has a plan: the loops may follow [map_to_list]. *)
Lemma GeneratePlan_returns_default desired actual :
  GeneratePlan_returns desired actual
    (GeneratePlan (Orders_default desired actual) desired actual).1 None.
Proof.
  exists (Orders_default desired actual). split; [|done].
  unfold Orders_valid, ranges. by cbn.
Qed.

Lemma ranges_lookup {A} (m : gmap string A) l k v :
  ranges m l → (k, v) ∈ l ↔ m !! k = Some v.
Proof. unfold ranges. intros ->. apply elem_of_map_to_list. Qed.

End planner_facts.

Section planner_order.

Lemma bind_Forall {A B} (f : A → list B) (P : B → Prop) (l : list A) :
  (∀ x, Forall P (f x)) → Forall P (l ≫= f).
Proof.
  intros Hf. induction l as [|x l IH]; [constructor|].
  rewrite bind_cons. apply Forall_app. auto.
Qed.

Lemma clusterCreates_block actual kv : Forall (λ a, block a = 0%nat) (clusterCreates actual kv).
Proof. unfold clusterCreates. destruct (_ !! _); repeat constructor. Qed.

Lemma clusterUpdates_block actual kv : Forall (λ a, block a = 1%nat) (clusterUpdates actual kv).
Proof.
  unfold clusterUpdates. destruct (_ !! _); [destruct (needsUpdate _ _)|]; repeat constructor.
Qed.

Lemma clusterDeletes_block desired kv : Forall (λ a, block a = 2%nat) (clusterDeletes desired kv).
Proof. unfold clusterDeletes. destruct (_ !! _); repeat constructor. Qed.

Lemma poolCreates_block actual kv :
  Forall (λ a, block a = 4%nat ∧ has_type ActionCreate a) (poolCreates actual kv).
Proof. unfold poolCreates. destruct (_ !! _); repeat constructor. Qed.

Lemma constant_block_sorted (n : nat) (l : list Action) :
  Forall (λ a, block a = n) l → StronglySorted (λ a b, (block a ≤ block b)%nat) l.
Proof.
  induction 1 as [|a l Ha Hl IH]; constructor; [done|].
  eapply Forall_impl; [exact Hl|]. simpl. intros b Hb. lia.
Qed.

Lemma blocks_sorted (l0 l1 l2 l4 : list Action) :
  Forall (λ a, block a = 0%nat) l0 → Forall (λ a, block a = 1%nat) l1 →
  Forall (λ a, block a = 2%nat) l2 → Forall (λ a, block a = 4%nat) l4 →
  StronglySorted (λ a b, (block a ≤ block b)%nat) (l0 ++ l1 ++ l2 ++ l4).
Proof.
  intros H0 H1 H2 H4.
  pose proof (constant_block_sorted _ _ H0). pose proof (constant_block_sorted _ _ H1).
  pose proof (constant_block_sorted _ _ H2). pose proof (constant_block_sorted _ _ H4).
  rewrite Forall_forall in H0, H1, H2, H4.
  rewrite !StronglySorted_app.
  repeat split; try done;
    intros a b Ha Hb; rewrite ?elem_of_app in Hb;
    repeat match goal with
           | H : _ ∨ _ |- _ => destruct H
           | H : ?x ∈ ?l, F : ∀ y, y ∈ ?l → _ |- _ => apply F in H
           end; lia.
Qed.

Lemma StronglySorted_lookup_lt {A} (R : A → A → Prop) (l : list A) i j a b :
  StronglySorted R l → (i < j)%nat → l !! i = Some a → l !! j = Some b → R a b.
Proof.
  intros Hs. revert i j. induction Hs as [|x l Hs IH Hx]; intros i j Hij Hi Hj.
  - by rewrite lookup_nil in Hi.
  - destruct j as [|j]; [lia|]. destruct i as [|i]; simpl in *.
    + simplify_eq. rewrite Forall_forall in Hx. apply Hx.
      by eapply list_elem_of_lookup_2.
    + eapply (IH i j); [lia|done..].
Qed.

Lemma sorted_blocks_precede (plan : Plan) (P Q : Action → Prop) :
  StronglySorted (λ a b, (block a ≤ block b)%nat) (Plan_Actions plan) →
  (∀ a b, P a → Q b → (block a < block b)%nat) →
  precedes plan P Q.
Proof.
  intros Hs HPQ i j a b Hi Hj Ha Hb.
  specialize (HPQ a b Ha Hb).
  destruct (decide (i < j)%nat) as [|Hge]; [done|].
  destruct (decide (i = j)) as [->|Hne].
  - rewrite Hi in Hj. simplify_eq. lia.
  - assert (j < i)%nat as Hji by lia.
    pose proof (StronglySorted_lookup_lt _ _ j i b a Hs Hji Hj Hi) as Hba.
    cbv beta in Hba. lia.
Qed.

Lemma GeneratePlan_sorted o desired actual :
  StronglySorted (λ a b, (block a ≤ block b)%nat)
    (Plan_Actions (GeneratePlan o desired actual).1).
Proof.
  rewrite GeneratePlan_blocks. apply blocks_sorted.
  - apply bind_Forall, clusterCreates_block.
  - apply bind_Forall, clusterUpdates_block.
  - apply bind_Forall, clusterDeletes_block.
  - apply bind_Forall. intros kv. eapply Forall_impl; [apply poolCreates_block|].
    by intros a [? _].
Qed.

End planner_order.

Section planner_claims.

Lemma ranges_empty {A} (l : list (string * A)) : ranges (∅ : gmap string A) l → l = [].
Proof. unfold ranges. rewrite map_to_list_empty. apply Permutation_nil_r. Qed.

Lemma ranges_singleton {A} (k : string) (v : A) l :
  ranges ({[ k := v ]} : gmap string A) l → l = [(k, v)].
Proof. unfold ranges. rewrite map_to_list_singleton. apply Permutation_singleton_r. Qed.

Lemma bind_nil_forall {A B} (f : A → list B) (l : list A) :
  (∀ x, x ∈ l → f x = []) → l ≫= f = [].
Proof.
  induction l as [|x l IH]; intros Hf; [done|].
  rewrite bind_cons, Hf, IH; [done| |]; intros; try apply Hf; set_solver.
Qed.

Lemma needsUpdate_same (c : Cluster) : needsUpdate c c = false.
Proof. unfold needsUpdate. by rewrite bool_decide_eq_false; intros []. Qed.

(** C4. For every state [S], [GeneratePlan(S, S)] returns, and whatever it
    returns is a plan with an empty action list together with a nil error. *)
Theorem GeneratePlan_same_state_empty (S : State) :
  (∃ plan err, GeneratePlan_returns S S plan err) ∧
  (∀ plan err, GeneratePlan_returns S S plan err → Plan_Actions plan = [] ∧ err = None).
Proof.
  split.
  { eexists _, _. apply GeneratePlan_returns_default. }
  intros plan err (o & (Hc & Hu & Hd & Hp) & Heq).
  pose proof (GeneratePlan_blocks o S S) as Hblocks.
  pose proof (GeneratePlan_no_error o S S) as Herr.
  rewrite Heq in Hblocks, Herr. simpl in Hblocks, Herr. split; [|done].
  rewrite Hblocks.
  rewrite (bind_nil_forall (clusterCreates S)), (bind_nil_forall (clusterUpdates S)),
    (bind_nil_forall (clusterDeletes S)), (bind_nil_forall (poolCreates S)); [done|..].
  - intros [id v] Hin. apply (ranges_lookup _ _ _ _ Hp) in Hin.
    unfold poolCreates. simpl. by rewrite Hin.
  - intros [id v] Hin. apply (ranges_lookup _ _ _ _ Hd) in Hin.
    unfold clusterDeletes. simpl. by rewrite Hin.
  - intros [id v] Hin. apply (ranges_lookup _ _ _ _ Hu) in Hin.
    unfold clusterUpdates. simpl. by rewrite Hin, needsUpdate_same.
  - intros [id v] Hin. apply (ranges_lookup _ _ _ _ Hc) in Hin.
    unfold clusterCreates. simpl. by rewrite Hin.
Qed.

(** The plan for [upgrade_desired] against [upgrade_actual] is
    [upgrade_plan], whatever order the loops follow. *)
Lemma upgrade_plan_returned plan err :
  GeneratePlan_returns upgrade_desired upgrade_actual plan err ↔
  plan = upgrade_plan ∧ err = None.
Proof.
  split.
  - intros ([oc ou od op] & (Hc & Hu & Hd & Hp) & Heq). simpl in *.
    apply ranges_singleton in Hc, Hu, Hd, Hp. subst.
    vm_compute in Heq. by simplify_eq.
  - intros [-> ->]. exists (Orders_default upgrade_desired upgrade_actual).
    split; [|by vm_compute]. unfold Orders_valid, ranges. by cbn.
Qed.

(** C2, as stated, fails: for [upgrade_desired] and [upgrade_actual] the
    only plan [GeneratePlan] returns lists the Update of cluster c1 before
    the Create of node pool p1. *)
Lemma GeneratePlan_create_after_update :
  GeneratePlan_returns upgrade_desired upgrade_actual upgrade_plan None ∧
  ¬ precedes upgrade_plan (has_type ActionCreate) (has_type ActionUpdate).
Proof.
  split; [by apply upgrade_plan_returned|].
  intros Hprec.
  specialize (Hprec 1%nat 0%nat _ _ eq_refl eq_refl eq_refl eq_refl). lia.
Qed.

(** An action of a plan that is not about a cluster was written by the
    loop over the desired node pools. *)
Lemma GeneratePlan_other_kinds o desired actual (a : Action) :
  a ∈ Plan_Actions (GeneratePlan o desired actual).1 →
  ¬ has_kind "Cluster" a →
  has_type ActionCreate a.
Proof.
  rewrite GeneratePlan_blocks, !elem_of_app. intros Ha Hk.
  pose proof (proj1 (Forall_forall _ _)
    (bind_Forall _ _ (Orders_create o) (clusterCreates_block actual)) a) as H0.
  pose proof (proj1 (Forall_forall _ _)
    (bind_Forall _ _ (Orders_update o) (clusterUpdates_block actual)) a) as H1.
  pose proof (proj1 (Forall_forall _ _)
    (bind_Forall _ _ (Orders_delete o) (clusterDeletes_block desired)) a) as H2.
  pose proof (proj1 (Forall_forall _ _)
    (bind_Forall _ _ (Orders_pools o) (poolCreates_block actual)) a) as H4.
  cbv beta in *. unfold block, has_kind in *.
  destruct Ha as [Ha|[Ha|[Ha|Ha]]];
    [apply H0 in Ha|apply H1 in Ha|apply H2 in Ha|by apply H4 in Ha as [_ ?]];
    repeat case_decide; try lia; congruence.
Qed.

(** C2, amended. In every plan [GeneratePlan] returns the order holds kind
    by kind: among the actions of one resource kind every Create is listed
    before every Update and every Update before every Delete (and so every
    Create before every Delete); and every Cluster action is listed before
    every NodePool action. *)
Theorem GeneratePlan_order_by_kind desired actual plan err :
  GeneratePlan_returns desired actual plan err →
  (∀ kind,
     precedes plan (λ a, has_kind kind a ∧ has_type ActionCreate a)
                   (λ b, has_kind kind b ∧ has_type ActionUpdate b) ∧
     precedes plan (λ a, has_kind kind a ∧ has_type ActionUpdate a)
                   (λ b, has_kind kind b ∧ has_type ActionDelete b) ∧
     precedes plan (λ a, has_kind kind a ∧ has_type ActionCreate a)
                   (λ b, has_kind kind b ∧ has_type ActionDelete b)) ∧
  precedes plan (has_kind "Cluster") (has_kind "NodePool").
Proof.
  intros (o & _ & Heq).
  pose proof (GeneratePlan_sorted o desired actual) as Hs.
  pose proof (GeneratePlan_other_kinds o desired actual) as Hother.
  rewrite Heq in Hs, Hother. simpl in Hs, Hother.
  split.
  - intros kind. destruct (decide (kind = "Cluster")) as [->|Hkind].
    + repeat split; apply sorted_blocks_precede; try done;
        unfold has_kind, has_type, block, ActionCreate, ActionUpdate, ActionDelete;
        intros a b Ha Hb'; destruct_and?;
        repeat case_decide; try lia; congruence.
    + assert (∀ i a, Plan_Actions plan !! i = Some a → has_kind kind a →
                has_type ActionCreate a) as Hcreate.
      { intros i a Hi Hk. apply Hother; [by eapply list_elem_of_lookup_2|].
        unfold has_kind in *. congruence. }
      repeat split; intros i j a b Hi Hj [Hka Hta] [Hkb Htb];
        pose proof (Hcreate _ _ Hi Hka) as Ha; pose proof (Hcreate _ _ Hj Hkb) as Hb';
        unfold has_type, ActionCreate, ActionUpdate, ActionDelete in *; exfalso; congruence.
  - apply sorted_blocks_precede; [done|].
    unfold has_kind, block. intros a b Ha Hb'.
    repeat case_decide; try lia; congruence.
Qed.

(** The amended C2 at [upgrade_desired] and [upgrade_actual]. *)
Lemma GeneratePlan_order_by_kind_witness :
  GeneratePlan_returns upgrade_desired upgrade_actual upgrade_plan None ∧
  precedes upgrade_plan (has_kind "Cluster") (has_kind "NodePool").
Proof.
  split.
  - by apply upgrade_plan_returned.
  - apply (GeneratePlan_order_by_kind upgrade_desired upgrade_actual upgrade_plan None).
    by apply upgrade_plan_returned.
Defined.

(** C3 at a failing input. With nothing desired and node pool p1 in the
    actual state, [GeneratePlan] returns the empty plan: p1 gets no Delete
    action, although it is in [actual] and not in [desired]. *)
Theorem GeneratePlan_omits_node_pool_delete :
  (∃ plan err, GeneratePlan_returns State_zero orphan_pool_actual plan err) ∧
  (∀ plan err, GeneratePlan_returns State_zero orphan_pool_actual plan err →
     Plan_Actions plan = [] ∧ err = None).
Proof.
  split.
  { eexists _, _. apply GeneratePlan_returns_default. }
  intros plan err ([oc ou od op] & (Hc & Hu & Hd & Hp) & Heq). simpl in *.
  apply ranges_empty in Hc, Hu, Hd, Hp. subst.
  vm_compute in Heq. by simplify_eq.
Qed.

End planner_claims.

(** * Reconciliation engine *)

Section Apply_facts.
Context {ES : Type} `{!EventStore ES}.
Implicit Types (e : Engine) (w : World ES) (es : ES) (a : Action).

Lemma executeAction_run e a w :
  executeAction e a w =
    (match GetProvider e (ResourceID_Provider (Action_Resource a)) with
     | None => Err ErrProviderNotFound
     | Some _ => Ok tt
     end,
     {| World_events := World_events w;
        World_calls := World_calls w ++ [Call_executeAction a] |}).
Proof.
  unfold executeAction, bind, call, modify, throw, executeCreate, executeUpdate,
    executeDelete, ret.
  destruct (GetProvider e _); [|done]. by repeat case_decide.
Qed.

Lemma executeAction_ok_iff e a w :
  (executeAction e a w).1 = Ok tt ↔
  is_Some (GetProvider e (ResourceID_Provider (Action_Resource a))).
Proof.
  rewrite executeAction_run. simpl. destruct (GetProvider e _); split; try done.
Qed.

Lemma first_failure_None_iff e actions es :
  first_failure e actions es = None ↔ all_succeed e actions es.
Proof.
  revert es. induction actions as [|a rest IH]; intros es; simpl; [done|].
  rewrite executeAction_run. simpl.
  destruct (GetProvider e _); [|naive_solver].
  destruct (RecordEvent es (event_of a)) as [[err|] es'] eqn:Hrec; simpl; [naive_solver|].
  rewrite fmap_None, IH. naive_solver.
Qed.

Lemma Apply_loop_run e actions w :
  ∃ es',
    Apply_loop e actions w =
      (loop_result (first_failure e actions (World_events w)),
       {| World_events := es';
          World_calls :=
            World_calls w ++ loop_calls actions (first_failure e actions (World_events w)) |}).
Proof.
  revert w. induction actions as [|a rest IH]; intros w.
  - exists (World_events w). simpl. unfold ret. rewrite app_nil_r. by destruct w.
  - cbn [Apply_loop first_failure]. unfold bind at 1. rewrite !executeAction_run. simpl.
    destruct (GetProvider e _) as [p|].
    2:{ eexists. reflexivity. }
    unfold bind at 1, recordEvent at 1. simpl. fold (event_of a).
    destruct (RecordEvent (World_events w) (event_of a)) as [[err|] es1] eqn:Hrec.
    { eexists. simpl. rewrite <- app_assoc. reflexivity. }
    edestruct IH as [es' ->]. exists es'. simpl.
    destruct (first_failure e rest es1) as [[n err|n err]|]; simpl;
      rewrite <- !app_assoc; reflexivity.
Qed.

Lemma first_failure_lt e actions es n err :
  first_failure e actions es = Some (Failure_action n err) ∨
  first_failure e actions es = Some (Failure_event n err) →
  (n < length actions)%nat.
Proof.
  revert es n. induction actions as [|a rest IH]; intros es n; simpl; [naive_solver|].
  destruct (executeAction e a _).1; [|intros [|]; simplify_eq; lia].
  destruct (RecordEvent es (event_of a)) as [[err'|] es1]; [intros [|]; simplify_eq; lia|].
  destruct (first_failure e rest es1) as [[m err'|m err']|] eqn:Hf; simpl;
    intros [|]; simplify_eq; specialize (IH es1 m); rewrite Hf in IH;
    apply le_n_S, IH; auto.
Qed.

(** An action failure is always the missing provider, at an action whose
    provider is not registered. *)
Lemma first_failure_action e actions es n err :
  first_failure e actions es = Some (Failure_action n err) →
  err = ErrProviderNotFound ∧
  ∃ a, actions !! n = Some a ∧ GetProvider e (ResourceID_Provider (Action_Resource a)) = None.
Proof.
  revert es n. induction actions as [|a rest IH]; intros es n; simpl; [done|].
  rewrite executeAction_run. simpl.
  destruct (GetProvider e _) eqn:Hp.
  - destruct (RecordEvent es (event_of a)) as [[err'|] es1]; [done|].
    destruct (first_failure e rest es1) as [[m err'|m err']|] eqn:Hf; simpl; try done.
    intros ?; simplify_eq. apply (IH es1 m Hf).
  - intros ?; simplify_eq. eauto.
Qed.

(** The loop does not get past an action whose provider is missing. *)
Lemma first_failure_before_missing e actions es n a :
  actions !! n = Some a →
  GetProvider e (ResourceID_Provider (Action_Resource a)) = None →
  ∃ m err, (m ≤ n)%nat ∧
    (first_failure e actions es = Some (Failure_action m err) ∨
     (m < n)%nat ∧ first_failure e actions es = Some (Failure_event m err)).
Proof.
  revert es n. induction actions as [|a' rest IH]; intros es n Hn Hp; [done|].
  simpl. rewrite executeAction_run. simpl.
  destruct n as [|n]; simpl in Hn.
  - simplify_eq. rewrite Hp. exists 0%nat, ErrProviderNotFound. auto.
  - destruct (GetProvider e (ResourceID_Provider (Action_Resource a'))).
    2:{ exists 0%nat, ErrProviderNotFound. split; [lia|auto]. }
    destruct (RecordEvent es (event_of a')) as [[err'|] es1].
    { exists 0%nat, err'. split; [lia|]. right. split; [lia|done]. }
    destruct (IH es1 n Hn Hp) as (m & err & Hm & [Hf|[Hlt Hf]]); rewrite Hf; simpl;
      exists (S m), err; (split; [lia|]); [left|right]; auto with lia.
Qed.

Lemma executed_steps (actions : list Action) :
  executed (actions ≫= step_calls) = actions.
Proof. induction actions as [|a rest IH]; [done|]. rewrite bind_cons. simpl. by f_equal. Qed.

Lemma event_writes_steps (actions : list Action) :
  event_writes (actions ≫= step_calls) = event_of <$> actions.
Proof. induction actions as [|a rest IH]; [done|]. rewrite bind_cons. simpl. by f_equal. Qed.

Lemma Commit_not_in_steps (actions : list Action) : Call_Commit ∉ actions ≫= step_calls.
Proof.
  intros (a & Hin & _)%list_elem_of_bind. unfold step_calls in Hin. set_solver.
Qed.

Lemma all_succeed_until_missing e actions es n a :
  actions !! n = Some a →
  GetProvider e (ResourceID_Provider (Action_Resource a)) = None →
  all_succeed e (take n actions) es →
  first_failure e actions es = Some (Failure_action n ErrProviderNotFound).
Proof.
  revert es n. induction actions as [|a' rest IH]; intros es n Hn Hp Hok; [done|].
  destruct n as [|n]; simpl in *.
  - simplify_eq. rewrite executeAction_run. simpl. by rewrite Hp.
  - destruct Hok as (Hx & Hr & Hok). rewrite Hx.
    destruct (RecordEvent es (event_of a')) as [ans es1]. simpl in *. subst ans.
    by rewrite (IH es1 n Hn Hp Hok).
Qed.

Lemma Apply_run commit e plan w :
  ∃ es',
    Apply commit e plan w =
      (match first_failure e (Plan_Actions plan) (World_events w) with
       | None => match commit with None => Ok tt | Some err => Err err end
       | Some f => Err (Failure_error f)
       end,
       {| World_events := es';
          World_calls :=
            World_calls w ++
            [Call_BeginTransaction] ++
            loop_calls (Plan_Actions plan) (first_failure e (Plan_Actions plan) (World_events w)) ++
            match first_failure e (Plan_Actions plan) (World_events w) with
            | None => [Call_Commit; Call_Rollback]
            | Some _ => [Call_Rollback]
            end |}).
Proof.
  unfold Apply. unfold bind at 1, call at 1, modify at 1.
  edestruct (Apply_loop_run e (Plan_Actions plan)) as [es' ->]. simpl.
  exists es'.
  destruct (first_failure e (Plan_Actions plan) (World_events w)) as [[n err|n err]|];
    simpl; unfold call, modify; simpl; rewrite <- ?app_assoc; simpl; reflexivity.
Qed.

End Apply_facts.

Section Apply_claims.
Context {ES : Type} `{!EventStore ES}.

(** C7. [Apply] opens a transaction and, through the deferred call, always
    ends with [Rollback].  It calls [Commit] if and only if every action
    executed and every event write succeeded, and then it executed every
    action, wrote every event and returns what [Commit] answered.  Otherwise
    it returns the error of the first failing step, has executed the actions
    up to the failing one and none after it, and has not committed.  When an
    action's provider is not registered, [Apply] fails, no event is written
    for that action or a later one, and the error is [ErrProviderNotFound]
    when the steps before that action succeed. *)
Theorem Apply_commits_iff_all_succeed
    (commit : option error) (e : Engine) (plan : Plan) (w : World ES) :
  ∃ calls,
    let out := Apply commit e plan w in
    let actions := Plan_Actions plan in
    World_calls out.2 = World_calls w ++ calls ∧
    head calls = Some Call_BeginTransaction ∧
    last calls = Some Call_Rollback ∧
    (Call_Commit ∈ calls ↔ all_succeed e actions (World_events w)) ∧
    (all_succeed e actions (World_events w) →
       out.1 = match commit with None => Ok tt | Some err => Err err end ∧
       executed calls = actions ∧
       event_writes calls = event_of <$> actions) ∧
    (∀ f, first_failure e actions (World_events w) = Some f →
       ¬ all_succeed e actions (World_events w) ∧
       out.1 = Err (Failure_error f) ∧
       executed calls = take (S (Failure_index f)) actions ∧
       event_writes calls = event_of <$> take (Failure_writes f) actions ∧
       Call_Commit ∉ calls) ∧
    (∀ n a, actions !! n = Some a →
       GetProvider e (ResourceID_Provider (Action_Resource a)) = None →
       (∃ err, out.1 = Err err) ∧
       (∃ k, (k ≤ n)%nat ∧ event_writes calls = event_of <$> take k actions) ∧
       (all_succeed e (take n actions) (World_events w) →
          out.1 = Err ErrProviderNotFound ∧
          executed calls = take (S n) actions ∧
          event_writes calls = event_of <$> take n actions)).
Proof.
  destruct (Apply_run commit e plan w) as [es' Hrun].
  set (actions := Plan_Actions plan) in *.
  set (ff := first_failure e actions (World_events w)) in *.
  exists ([Call_BeginTransaction] ++ loop_calls actions ff ++
          match ff with None => [Call_Commit; Call_Rollback] | Some _ => [Call_Rollback] end).
  cbv zeta. rewrite Hrun. cbn [fst snd World_calls]. fold actions. fold ff.
  (* what the calls show, by the kind of run *)
  assert (Hsuccess : ff = None →
            executed ([Call_BeginTransaction] ++ loop_calls actions ff ++ [Call_Commit; Call_Rollback])
              = actions ∧
            event_writes ([Call_BeginTransaction] ++ loop_calls actions ff ++ [Call_Commit; Call_Rollback])
              = event_of <$> actions).
  { intros ->. simpl. unfold executed, event_writes.
    rewrite !omap_app. fold (executed (actions ≫= step_calls)).
    fold (event_writes (actions ≫= step_calls)).
    rewrite executed_steps, event_writes_steps. simpl. by rewrite !app_nil_r. }
  assert (Hfailure : ∀ f, ff = Some f →
            executed ([Call_BeginTransaction] ++ loop_calls actions ff ++ [Call_Rollback])
              = take (S (Failure_index f)) actions ∧
            event_writes ([Call_BeginTransaction] ++ loop_calls actions ff ++ [Call_Rollback])
              = event_of <$> take (Failure_writes f) actions ∧
            Call_Commit ∉ [Call_BeginTransaction] ++ loop_calls actions ff ++ [Call_Rollback]).
  { intros f Hf. rewrite Hf.
    assert (Failure_index f < length actions)%nat as Hlt.
    { destruct f as [n err|n err]; eapply (first_failure_lt e actions (World_events w) n err);
        [left|right]; exact Hf. }
    destruct (lookup_lt_is_Some_2 actions _ Hlt) as [a Ha].
    destruct f as [n err|n err]; simpl in *.
    - rewrite (take_S_r _ _ _ Ha), (drop_S _ _ _ Ha). simpl.
      unfold executed, event_writes. rewrite !omap_app.
      fold (executed (take n actions ≫= step_calls)).
      fold (event_writes (take n actions ≫= step_calls)).
      rewrite executed_steps, event_writes_steps. simpl. rewrite ?app_nil_r.
      repeat split; try done.
      rewrite not_elem_of_cons, !not_elem_of_app.
      pose proof (Commit_not_in_steps (take n actions)). set_solver.
    - unfold executed, event_writes. rewrite !omap_app.
      fold (executed (take (S n) actions ≫= step_calls)).
      fold (event_writes (take (S n) actions ≫= step_calls)).
      rewrite executed_steps, event_writes_steps. simpl. rewrite ?app_nil_r.
      repeat split; try done.
      rewrite not_elem_of_cons, !not_elem_of_app.
      pose proof (Commit_not_in_steps (take (S n) actions)). set_solver. }
  split; [done|]. split; [done|]. split.
  { destruct ff; by rewrite !last_app. }
  split.
  { rewrite <- first_failure_None_iff. fold ff. split.
    - intros Hin. destruct ff as [f|] eqn:Hff; [|done].
      by apply (Hfailure f eq_refl) in Hin.
    - intros ->. set_solver. }
  split.
  { intros Hok. apply first_failure_None_iff in Hok. fold ff in Hok.
    destruct (Hsuccess Hok) as [? ?]. by rewrite Hok in *. }
  split.
  { intros f Hf. destruct (Hfailure f Hf) as (? & ? & ?). rewrite Hf in *.
    repeat split; try done.
    rewrite <- first_failure_None_iff. fold ff. by rewrite Hf. }
  intros n a Hn Hp.
  destruct (first_failure_before_missing e actions (World_events w) n a Hn Hp)
    as (m & err & Hm & Hf).
  fold ff in Hf.
  split; [|split].
  - destruct Hf as [Hf|[_ Hf]]; rewrite Hf; eauto.
  - destruct Hf as [Hf|[Hlt Hf]]; destruct (Hfailure _ Hf) as (_ & Hw & _); rewrite Hf in *.
    + exists m. split; [lia|done].
    + exists (S m). split; [lia|done].
  - intros Hok.
    pose proof (all_succeed_until_missing e actions (World_events w) n a Hn Hp Hok) as Hf'.
    fold ff in Hf'. destruct (Hfailure _ Hf') as (? & ? & _). rewrite Hf' in *. done.
Qed.

End Apply_claims.

(** * Drift detector *)

Section drift_claims.

(** No provider is ever visited: the report is empty for every detector
    and every desired state. *)
Lemma DetectDrift_visits_no_provider o d now desired :
  DetectOrders_valid o d desired →
  (DetectDrift o d now desired).1 =
    ({| DriftReport_DetectedAt := now;
        DriftReport_HasDrift := false;
        DriftReport_Drifts := [];
        DriftReport_Summary :=
          {| DriftSummary_TotalDrifts := 0; DriftSummary_CriticalCount := 0;
             DriftSummary_HighCount := 0; DriftSummary_MediumCount := 0;
             DriftSummary_LowCount := 0; DriftSummary_RemediableCount := 0 |} |}, None).
Proof.
  intros [Hp _]. unfold getAllProviders in Hp. apply ranges_empty in Hp.
  unfold DetectDrift. rewrite Hp. reflexivity.
Qed.

Lemma DetectDrift_returns_default d now desired :
  ∃ report err, DetectDrift_returns d now desired report err.
Proof.
  eexists _, _. exists (DetectOrders_default d desired). split; [|by apply surjective_pairing].
  unfold DetectOrders_valid, ranges. simpl. split; [done|]. by intros _.
Qed.

(** The loop body does find the version skew, once it is given the
    provider. *)
Example check_provider_finds_skew :
  Detection_Drifts
    (check_provider skew_desired (map_to_list (State_Clusters skew_desired)) "aws" skew_provider
       {| Detection_Drifts := []; Detection_log := [] |}) = [skew_drift].
Proof. by vm_compute. Qed.

(** C5 at its scenario. The provider aws is registered and reports C1 at
    1.28 while 1.29 is desired; [DetectDrift] returns a report without any
    drift and with [HasDrift] false, where the claim expects the one
    version_skew drift. *)
Theorem DetectDrift_misses_version_skew (now : Time) :
  GetProvider (DriftDetector_engine skew_detector) "aws" = Some skew_provider ∧
  CloudProvider_Reconcile skew_provider skew_desired State_zero = Ok skew_live ∧
  (∃ report err, DetectDrift_returns skew_detector now skew_desired report err) ∧
  (∀ report err, DetectDrift_returns skew_detector now skew_desired report err →
     DriftReport_Drifts report = [] ∧ DriftReport_HasDrift report = false ∧ err = None).
Proof.
  split; [by vm_compute|]. split; [done|]. split; [apply DetectDrift_returns_default|].
  intros report err (o & Hv & Heq).
  rewrite (DetectDrift_visits_no_provider o _ _ _ Hv) in Heq. by simplify_eq.
Qed.

Lemma remediate_loop_log d s drifts :
  Remediation_log (foldl (remediate_step d) s drifts) =
    Remediation_log s ++ (drifts ≫= step_log d).
Proof.
  revert s. induction drifts as [|drift drifts IH]; intros s; simpl.
  - by rewrite app_nil_r.
  - rewrite IH. unfold remediate_step, step_log.
    destruct (ResourceDrift_Remediatable drift); simpl.
    + destruct (remediateDrift d drift) as [[err|] logged]; simpl;
        rewrite <- ?app_assoc; simpl; rewrite <- ?app_assoc; by rewrite ?app_nil_r.
    + by rewrite <- app_assoc.
Qed.

Lemma filter_bind {A B} (P : B → Prop) `{!∀ x, Decision (P x)} (f : A → list B) (l : list A) :
  filter P (l ≫= f) = l ≫= (λ x, filter P (f x)).
Proof.
  induction l as [|x l IH]; [done|]. by rewrite !bind_cons, filter_app, IH.
Qed.

Lemma remediateDrift_log_neutral d drift :
  filter is_attempt (remediateDrift d drift).2 = [] ∧
  filter is_failure (remediateDrift d drift).2 = [].
Proof.
  unfold remediateDrift. destruct (GetProvider _ _); [|done].
  repeat case_decide; done.
Qed.

(** C6, as stated, fails: with no provider registered, remediation of the
    remediatable drifts of [config_report] fails, and [Remediate] still
    returns nil, the same answer it gives when every item succeeds. *)
Lemma Remediate_returns_nil_after_failure :
  let d := NewDriftDetector NewEngine in
  config_drift ∈ DriftReport_Drifts config_report ∧
  ResourceDrift_Remediatable config_drift = true ∧
  (remediateDrift d config_drift).1 = Some "provider aws not found" ∧
  (Remediate d config_report).1 = None.
Proof. cbv zeta. split; [set_solver|]. by vm_compute. Qed.

(** C6, amended. [Remediate] does not stop at a failing item: it announces
    an attempt for every remediatable drift of the report, in order.  Each
    failure is written to the log as one error record naming the resource
    and the error, in order, and the value returned to the caller is nil
    whether or not items failed. *)
Theorem Remediate_best_effort_and_nil (d : DriftDetector) (report : DriftReport) :
  (Remediate d report).1 = None ∧
  filter is_attempt (Remediate d report).2 =
    log_remediating <$> filter (λ drift, ResourceDrift_Remediatable drift)
                               (DriftReport_Drifts report) ∧
  filter is_failure (Remediate d report).2 =
    omap (failure_of d) (DriftReport_Drifts report).
Proof.
  split; [done|].
  unfold Remediate. cbn [snd]. rewrite remediate_loop_log. cbn [Remediation_log].
  rewrite !filter_app, !filter_bind.
  split.
  - change (filter is_attempt [_]) with (@nil LogRecord). rewrite app_nil_r.
    cbn [app]. change (filter is_attempt [_]) with (@nil LogRecord).
    induction (DriftReport_Drifts report) as [|drift drifts IH]; [done|].
    rewrite bind_cons, IH, filter_cons. unfold step_log.
    destruct (ResourceDrift_Remediatable drift) eqn:Hr; simpl.
    + rewrite filter_app, (proj1 (remediateDrift_log_neutral d drift)).
      by destruct (remediateDrift d drift).1.
    + done.
  - change (filter is_failure [_]) with (@nil LogRecord). rewrite app_nil_r.
    cbn [app]. change (filter is_failure [_]) with (@nil LogRecord).
    induction (DriftReport_Drifts report) as [|drift drifts IH]; [done|].
    rewrite bind_cons, IH. unfold step_log, failure_of. simpl.
    destruct (ResourceDrift_Remediatable drift) eqn:Hr; simpl; [|done].
    rewrite filter_cons, filter_app.
    rewrite (proj2 (remediateDrift_log_neutral d drift)).
    destruct (remediateDrift d drift).1; done.
Qed.

End drift_claims.

(** * JSON round trips *)

Section codec_laws.

#[global] Instance CodecOk_string : CodecOk string.
Proof. split; [done..|]. intros s. simpl. by intros ?%bool_decide_eq_true. Qed.

#[global] Instance CodecOk_int : CodecOk Z.
Proof. split; [done..|]. intros s. simpl. by intros ?%bool_decide_eq_true. Qed.

#[global] Instance CodecOk_bool : CodecOk bool.
Proof. split; [done..|]. by intros []. Qed.

#[global] Instance CodecOk_list {A} `{CodecOk A} : CodecOk (list A).
Proof.
  split; [|done|by intros []].
  intros l. simpl. induction l as [|a l IH]; [done|].
  simpl. by rewrite unmarshal_marshal, IH.
Qed.

#[global] Instance CodecOk_map {A} `{CodecOk A} : CodecOk (gmap string A).
Proof.
  split; [|done|].
  - intros m. simpl.
    assert (∀ l : list (string * A),
              result_mapM (λ kv, (v ← unmarshal kv.2; Ok (kv.1, v))%res)
                (map (λ kv, (kv.1, marshal kv.2)) l) = Ok l) as ->.
    { induction l as [|[k a] l IH]; [done|]. simpl. by rewrite unmarshal_marshal, IH. }
    simpl. f_equal. unfold sorted_by_key.
    rewrite <- (list_to_map_to_list m) at 2.
    symmetry. apply list_to_map_proper; [apply NoDup_fst_map_to_list|].
    by rewrite reverse_Permutation, merge_sort_Permutation.
  - intros m. simpl. destruct (map_to_list m) eqn:Hm; [|done].
    intros _. by apply map_to_list_empty_iff.
Qed.

#[global] Instance CodecOk_pointer {A} `{CodecOk A} `{!NotNull A} : CodecOk (option A).
Proof.
  split; [|done|by intros []].
  intros [a|]; [|done]. simpl.
  pose proof (marshal_not_null a) as Hnn. pose proof (unmarshal_marshal a) as Hrt.
  destruct (marshal a); try done; by rewrite Hrt.
Qed.

Lemma field_here k v rest : field k ((k, v) :: rest) = v.
Proof. simpl. by rewrite String.eqb_refl. Qed.

Lemma field_skip k k' v rest : k ≠ k' → field k ((k', v) :: rest) = field k rest.
Proof. intros Hne. simpl. by apply String.eqb_neq in Hne as ->. Qed.

End codec_laws.

(** Reads the fields of a struct back from the document [marshal] wrote. *)
Ltac read_fields :=
  repeat first
    [ rewrite field_here
    | rewrite field_skip by done
    | rewrite unmarshal_marshal
    | rewrite unmarshal_null
    | progress cbn [field result_bind app] ].

(** The round trip of a struct whose codec is [inst]: one case for every
    way its [omitempty] fields can be empty. *)
Ltac struct_round_trip inst :=
  unfold marshal at 1, unmarshal at 1; cbn [inst object];
  unfold get, kv, kv_omitempty;
  repeat match goal with
         | |- context [if empty ?a then _ else _] =>
             let E := fresh "E" in
             destruct (empty a) eqn:E; [apply empty_zero in E|clear E]
         end;
  cbn [app]; read_fields;
  match goal with |- Ok _ = Ok ?a => destruct a end;
  simpl in *; subst; done.

Section codec_structs.

#[global] Instance CodecOk_Taint : CodecOk Taint.
Proof. split; [|done|done]. intros a. struct_round_trip Codec_Taint. Qed.

#[global] Instance CodecOk_SpotConfig : CodecOk SpotConfig.
Proof. split; [|done|done]. intros a. struct_round_trip Codec_SpotConfig. Qed.

#[global] Instance NotNull_SpotConfig : NotNull SpotConfig.
Proof. by intros []. Qed.

#[global] Instance CodecOk_WorkerPoolSpec : CodecOk WorkerPoolSpec.
Proof. split; [|done|done]. intros a. struct_round_trip Codec_WorkerPoolSpec. Qed.

#[global] Instance CodecOk_IdentitySpec : CodecOk IdentitySpec.
Proof. split; [|done|done]. intros a. struct_round_trip Codec_IdentitySpec. Qed.

#[global] Instance NotNull_IdentitySpec : NotNull IdentitySpec.
Proof. by intros []. Qed.

#[global] Instance CodecOk_ControlPlaneSpec : CodecOk ControlPlaneSpec.
Proof. split; [|done|done]. intros a. struct_round_trip Codec_ControlPlaneSpec. Qed.

#[global] Instance CodecOk_Subnet : CodecOk Subnet.
Proof. split; [|done|done]. intros a. struct_round_trip Codec_Subnet. Qed.

#[global] Instance CodecOk_NetworkSpec : CodecOk NetworkSpec.
Proof. split; [|done|done]. intros a. struct_round_trip Codec_NetworkSpec. Qed.

#[global] Instance CodecOk_ClusterSpec : CodecOk ClusterSpec.
Proof. split; [|done|done]. intros a. struct_round_trip Codec_ClusterSpec. Qed.

#[global] Instance CodecOk_ResourceMetadata : CodecOk ResourceMetadata.
Proof. split; [|done|done]. intros a. struct_round_trip Codec_ResourceMetadata. Qed.

#[global] Instance CodecOk_ResourceStatus : CodecOk ResourceStatus.
Proof. split; [|done|done]. intros a. struct_round_trip Codec_ResourceStatus. Qed.

#[global] Instance CodecOk_Resource {T} `{CodecOk T} : CodecOk (Resource T).
Proof. split; [|done|done]. intros a. struct_round_trip (@Codec_Resource). Qed.

#[global] Instance CodecOk_State : CodecOk State.
Proof. split; [|done|done]. intros a. struct_round_trip Codec_State. Qed.

End codec_structs.


(** *** Valid UTF-8 is read back as written *)

Section utf8.

Lemma coerced_ValidString_aux (n : nat) (s : string) :
  (String.length s ≤ n)%nat → ValidString s = true → coerced s = s.
Proof.
  revert s. induction n as [|n IH]; intros s Hlen Hvalid.
  { destruct s; [done|simpl in Hlen; lia]. }
  destruct s as [|c0 s1]; [done|].
  cbn [ValidString coerced] in *.
  destruct (between 0 127 c0).
  { f_equal. apply IH; [simpl in Hlen; lia|done]. }
  destruct (rune_size (String c0 s1)) as [[|[|[|[|[|k]]]]]|]; try done.
  - destruct s1 as [|c1 s2]; [done|].
    do 2 f_equal. apply IH; [simpl in Hlen; lia|done].
  - destruct s1 as [|c1 [|c2 s3]]; try done.
    do 3 f_equal. apply IH; [simpl in Hlen; lia|done].
  - destruct s1 as [|c1 [|c2 [|c3 s4]]]; try done.
    do 4 f_equal. apply IH; [simpl in Hlen; lia|done].
Qed.

Lemma coerced_ValidString (s : string) : ValidString s = true → coerced s = s.
Proof. by apply (coerced_ValidString_aux (String.length s)). Qed.

Lemma JSON_nested_ind (P : JSON → Prop) :
  P JNull → (∀ b, P (JBool b)) → (∀ n, P (JNumber n)) → (∀ s, P (JString s)) →
  (∀ items, Forall P items → P (JArray items)) →
  (∀ fields, Forall (λ kv, P kv.2) fields → P (JObject fields)) →
  ∀ j, P j.
Proof.
  intros Hnull Hbool Hnumber Hstring Harray Hobject.
  fix IH 1. intros [|b|n|s|items|fields]; [done..| |].
  - apply Harray. induction items as [|item items IHitems]; constructor; [apply IH|done].
  - apply Hobject. induction fields as [|[k v] fields IHfields]; constructor; [apply IH|done].
Qed.

Lemma decoded_utf8_doc (j : JSON) : utf8_doc j = true → decoded j = j.
Proof.
  induction j as [| | |s|items IH|fields IH] using JSON_nested_ind; try done.
  - simpl. intros Hs. by rewrite coerced_ValidString.
  - simpl. intros Hitems. f_equal.
    induction IH as [|item items Hitem _ IHitems]; [done|].
    simpl in Hitems. apply andb_prop in Hitems as [? ?].
    simpl. by rewrite Hitem, IHitems.
  - simpl. intros Hfields. f_equal.
    induction IH as [|[k v] fields Hv _ IHfields]; [done|].
    simpl in Hfields. apply andb_prop in Hfields as [[? ?]%andb_prop ?].
    simpl in *. by rewrite coerced_ValidString, Hv, IHfields.
Qed.

End utf8.
(** * Snapshot manager *)

Section snapshot_codec.

#[global] Instance CodecOk_SnapshotMetadata : CodecOk SnapshotMetadata.
Proof. split; [|done|done]. intros a. struct_round_trip Codec_SnapshotMetadata. Qed.

#[global] Instance CodecOk_Snapshot : CodecOk Snapshot.
Proof. split; [|done|done]. intros a. struct_round_trip Codec_Snapshot. Qed.

End snapshot_codec.

Section snapshot_round_trip.
Context {SM : Type} `{!StateManager SM}.

(** What a successful [CreateSnapshot] returns and leaves behind. *)
Lemma CreateSnapshot_Ok (w w' : Env SM) description reason snapshot :
  CreateSnapshot description reason w = (Ok snapshot, w') →
  GetState (Env_state w) = Ok (Snapshot_State snapshot) ∧
  Snapshot_ID snapshot = "snapshot-" +:+ Format_20060102_150405 (Env_clock w (Env_reads w)) ∧
  Snapshot_CreatedAt snapshot = Env_clock w (S (Env_reads w)) ∧
  Snapshot_Description snapshot = description ∧
  Snapshot_Checksum snapshot = calculateChecksum (Snapshot_State snapshot) ∧
  Env_files w' =
    <[Snapshot_ID snapshot +:+ ".json" := decoded (marshal snapshot)]> (Env_files w) ∧
  Env_state w' = Env_state w.
Proof.
  unfold CreateSnapshot, bind, wrap_err, state_GetState, generateSnapshotID, time_Now,
    saveSnapshot, os_WriteFile, modify, ret, set_files.
  cbn [fst snd Env_files Env_state Env_clock Env_reads].
  destruct (GetState (Env_state w)) as [state|err]; [|done].
  cbv beta iota zeta delta [bind wrap_err ret fst snd].
  cbn [Env_files Env_state Env_clock Env_reads].
  intros Heq. apply pair_equal_spec in Heq as [Hsnapshot <-].
  injection Hsnapshot as <-.
  cbn [Snapshot_ID Snapshot_State Snapshot_CreatedAt Snapshot_Description
    Snapshot_Checksum Env_files Env_state].
  repeat split; reflexivity.
Qed.

Lemma LoadSnapshot_written (w : Env SM) (snapshot : Snapshot) id :
  Env_files w !! (id +:+ ".json") = Some (marshal snapshot) →
  LoadSnapshot id w = (Ok snapshot, w).
Proof.
  intros Hfile. unfold LoadSnapshot, bind, wrap_err, os_ReadFile, ret.
  rewrite Hfile. by rewrite unmarshal_marshal.
Qed.

(** The verification of [RestoreSnapshot] *)
Lemma RestoreSnapshot_mismatch o (id : string) (dryRun : bool) (w : Env SM)
    (stored : Snapshot) :
  (LoadSnapshot id w).1 = Ok stored →
  calculateChecksum (Snapshot_State stored) ≠ Snapshot_Checksum stored →
  (RestoreSnapshot o id dryRun w).1 =
    Err "snapshot checksum mismatch - data may be corrupted".
Proof.
  intros Hload Hsum. unfold RestoreSnapshot. unfold bind at 1, wrap_err at 1.
  destruct (LoadSnapshot id w) as [[stored'|err] w1]; cbn [fst] in Hload; [|discriminate].
  injection Hload as ->.
  by apply String.eqb_neq in Hsum as ->.
Qed.

End snapshot_round_trip.

Section snapshot_prune.
Context {SM : Type} `{!StateManager SM}.

Lemma append_cons a (s t : string) : String a s +:+ t = String a (s +:+ t).
Proof. reflexivity. Qed.

Lemma append_length (s t : string) :
  String.length (s +:+ t) = (String.length s + String.length t)%nat.
Proof. induction s as [|a s IH]; [done|]. rewrite append_cons. simpl. by rewrite IH. Qed.

Lemma pair_fst {A B} (x : A * B) (a : A) : x.1 = a → x = (a, x.2).
Proof. destruct x. simpl. by intros ->. Qed.

Lemma DeleteSnapshot_Ok (w w' : Env SM) id :
  DeleteSnapshot id w = (Ok tt, w') →
  is_Some (Env_files w !! (id +:+ ".json")) ∧ w' = set_files (delete (id +:+ ".json")) w.
Proof.
  unfold DeleteSnapshot, wrap_err, os_Remove.
  destruct (Env_files w !! (id +:+ ".json")) as [doc|]; [|done].
  intros [= <-]. eauto.
Qed.

Lemma DeleteSnapshot_Err (w w' : Env SM) id err :
  DeleteSnapshot id w = (Err err, w') →
  w' = w ∧ ∃ cause, err = Errorf_w "failed to delete snapshot" cause.
Proof.
  unfold DeleteSnapshot, wrap_err, os_Remove.
  destruct (Env_files w !! (id +:+ ".json")) as [doc|]; [done|].
  intros [= <- <-]. eauto.
Qed.

Lemma lookup_foldl_delete (ids : list string) (files : gmap string JSON) (name : string) :
  foldl (λ files id, delete (id +:+ ".json") files) files ids !! name =
    if decide (name ∈ files_of ids) then None else files !! name.
Proof.
  unfold files_of. revert files. induction ids as [|id ids IH]; intros files.
  - cbn [foldl]. rewrite fmap_nil.
    destruct (decide (name ∈ [])) as [Hin|]; [by apply elem_of_nil in Hin|done].
  - cbn [foldl]. rewrite IH, fmap_cons.
    destruct (decide (name ∈ (λ id, id +:+ ".json") <$> ids)) as [Hin|Hnotin];
      destruct (decide (name ∈ (id +:+ ".json") :: ((λ id, id +:+ ".json") <$> ids)))
        as [Hin'|Hnotin']; try done.
    + exfalso. apply Hnotin'. by apply list_elem_of_further.
    + apply elem_of_cons in Hin' as [->|?]; [|done]. apply lookup_delete_eq.
    + apply lookup_delete_ne. intros <-. apply Hnotin'. apply list_elem_of_here.
Qed.

(** A run of the loop of [PruneSnapshots] that ends without error has
    removed the files of the ids it adds to [deleted], one after the other,
    and nothing else. *)
Lemma prune_loop_files policy now total snapshots deleted (w w' : Env SM) out :
  prune_loop policy now total snapshots deleted w = ((out, None), w') →
  ∃ more, out = deleted ++ more ∧
    Env_files w' = foldl (λ files id, delete (id +:+ ".json") files) (Env_files w) more ∧
    Env_state w' = Env_state w.
Proof.
  revert deleted w. induction snapshots as [|snapshot rest IH]; intros deleted w Hrun.
  - injection Hrun as <- <-. exists []. by rewrite app_nil_r.
  - cbn [prune_loop] in Hrun.
    match type of Hrun with
    | context [if (if ?b1 then true else if ?b2 then true else false) then _ else _] => idtac
    | _ => idtac
    end.
    destruct (if bool_decide (RetentionPolicy_MaxCount policy > 0) &&
                 bool_decide (total - Z.of_nat (length deleted) > RetentionPolicy_MaxCount policy)
              then true
              else if bool_decide (RetentionPolicy_MaxAge policy > 0) &&
                      bool_decide (Sub now (SnapshotInfo_CreatedAt snapshot)
                                   > RetentionPolicy_MaxAge policy)
                   then true else false).
    + destruct (DeleteSnapshot (SnapshotInfo_ID snapshot) w) as [[[]|err] w1] eqn:Hdelete;
        [|done].
      apply DeleteSnapshot_Ok in Hdelete as [_ ->].
      apply IH in Hrun as (more & -> & Hfiles & Hstate).
      exists (SnapshotInfo_ID snapshot :: more). by rewrite <- app_assoc.
    + by apply IH.
Qed.

(** Without an age limit, the loop deletes nothing more once no more than
    [MaxCount] snapshots are left. *)
Lemma prune_loop_done policy now total snapshots deleted (w : Env SM) :
  RetentionPolicy_MaxAge policy ≤ 0 →
  total - Z.of_nat (length deleted) ≤ RetentionPolicy_MaxCount policy →
  prune_loop policy now total snapshots deleted w = ((deleted, None), w).
Proof.
  intros Hage Hcount. induction snapshots as [|snapshot rest IH]; [done|].
  cbn [prune_loop].
  rewrite (bool_decide_eq_false_2 (RetentionPolicy_MaxAge policy > 0)) by lia.
  rewrite (bool_decide_eq_false_2 (total - _ > _)) by lia.
  rewrite andb_false_r. cbn [andb]. exact IH.
Qed.

(** Without an age limit and with a count limit, a run of the loop that
    ends without error has deleted from the front of the list it was given,
    as long as more than [MaxCount] snapshots were left: [m] more snapshots,
    the first [m] it met. *)
Lemma prune_loop_front policy now total (m : nat) snapshots deleted (w w' : Env SM) out :
  RetentionPolicy_MaxAge policy ≤ 0 →
  0 < RetentionPolicy_MaxCount policy →
  total - Z.of_nat (length deleted) = RetentionPolicy_MaxCount policy + Z.of_nat m →
  (m ≤ length snapshots)%nat →
  prune_loop policy now total snapshots deleted w = ((out, None), w') →
  out = deleted ++ (SnapshotInfo_ID <$> take m snapshots).
Proof.
  intros Hage Hmax. revert snapshots deleted w.
  induction m as [|m IH]; intros snapshots deleted w Hcount Hlen Hrun.
  - rewrite prune_loop_done in Hrun by lia. injection Hrun as <- <-.
    by rewrite take_0, app_nil_r.
  - destruct snapshots as [|snapshot rest]; [simpl in Hlen; lia|].
    cbn [prune_loop] in Hrun.
    rewrite (bool_decide_eq_false_2 (RetentionPolicy_MaxAge policy > 0)) in Hrun by lia.
    rewrite (bool_decide_eq_true_2 (RetentionPolicy_MaxCount policy > 0)) in Hrun by lia.
    rewrite (bool_decide_eq_true_2 (total - _ > _)) in Hrun by lia.
    cbn [andb] in Hrun.
    destruct (DeleteSnapshot (SnapshotInfo_ID snapshot) w) as [[[]|err] w1]; [|done].
    apply IH in Hrun.
    + by rewrite Hrun, firstn_cons, fmap_cons, <- app_assoc.
    + rewrite length_app. simpl. lia.
    + simpl in Hlen. lia.
Qed.

End snapshot_prune.

Section snapshot_claims.

(** C8 at a failing input. The persisted state holds a cluster whose name
    ends in the byte E9, an e with acute accent in Latin-1 and no valid
    UTF-8.  [CreateSnapshot] succeeds and returns a snapshot of that state.
    [LoadSnapshot] of its id succeeds, but the state it returns is another
    one: the name ends in the replacement character.  The checksum computed
    again over the loaded state is not the stored checksum, which is the
    checksum of the state at creation, and [RestoreSnapshot] of the snapshot
    just taken fails with the checksum mismatch, dry run or not. *)
Theorem LoadSnapshot_changes_invalid_utf8 :
  ∃ (created loaded : Snapshot),
    GetState (Env_state (fresh_env 1000000000 latin1_state)) = Ok latin1_state ∧
    latin1_snapshot.1 = Ok created ∧
    Snapshot_State created = latin1_state ∧
    Snapshot_Checksum created = calculateChecksum latin1_state ∧
    (LoadSnapshot (Snapshot_ID created) latin1_snapshot.2).1 = Ok loaded ∧
    Snapshot_State loaded = replaced_state ∧
    Snapshot_State loaded ≠ latin1_state ∧
    Snapshot_Checksum loaded = calculateChecksum latin1_state ∧
    calculateChecksum (Snapshot_State loaded) ≠ Snapshot_Checksum loaded ∧
    ∀ o dryRun,
      (RestoreSnapshot o (Snapshot_ID created) dryRun latin1_snapshot.2).1
        = Err "snapshot checksum mismatch - data may be corrupted".
Proof.
  exists latin1_created, latin1_loaded.
  assert ((LoadSnapshot (Snapshot_ID latin1_created) latin1_snapshot.2).1 = Ok latin1_loaded)
    as Hload by (by vm_compute).
  assert (Snapshot_State latin1_loaded = replaced_state) as Hstate by (by vm_compute).
  assert (calculateChecksum (Snapshot_State latin1_loaded) ≠ Snapshot_Checksum latin1_loaded)
    as Hsum by (by vm_compute).
  split; [done|]. split; [by vm_compute|]. split; [by vm_compute|]. split; [by vm_compute|].
  split; [exact Hload|]. split; [exact Hstate|].
  split.
  { rewrite Hstate. intros Heq.
    apply (f_equal (λ state,
             (λ c : Cluster, String.length (ResourceMetadata_Name (Resource_Metadata c)))
               <$> State_Clusters state !! "c1")) in Heq.
    vm_compute in Heq. discriminate. }
  split; [by vm_compute|]. split; [exact Hsum|].
  intros o dryRun.
  exact (RestoreSnapshot_mismatch o (Snapshot_ID latin1_created) dryRun latin1_snapshot.2
           latin1_loaded Hload Hsum).
Qed.

(** C1 at a failing input. The directory holds five snapshots with
    different creation times.  [PruneSnapshots] with [MaxCount] 3 and no
    [MaxAge] deletes two snapshots and returns their ids, but they are the two
    newest, and the three oldest remain. *)
Theorem PruneSnapshots_deletes_the_newest :
  listed_ids five_snapshots =
    Ok ["snapshot-20240203-000008"; "snapshot-20240203-000006"; "snapshot-20240203-000004";
        "snapshot-20240203-000002"; "snapshot-20240203-000000"] ∧
  listed_times five_snapshots =
    Ok [1706918409000000000; 1706918407000000000; 1706918405000000000;
        1706918403000000000; 1706918401000000000] ∧
  (PruneSnapshots keep_three five_snapshots).1 =
    (["snapshot-20240203-000008"; "snapshot-20240203-000006"], None) ∧
  listed_ids (PruneSnapshots keep_three five_snapshots).2 =
    Ok ["snapshot-20240203-000004"; "snapshot-20240203-000002"; "snapshot-20240203-000000"].
Proof. repeat split; by vm_compute. Qed.

End snapshot_claims.

Section snapshot_claims_2.



(** C9 at a failing input. Two calls of [CreateSnapshot] 20 ms apart both
    succeed and get the same id, since the id has the resolution of a second:
    the second call writes the file of the first, and the first snapshot can
    no longer be loaded.  In the same way the backup that [RestoreSnapshot]
    takes 20 ms after a snapshot was created replaces that snapshot. *)
Theorem CreateSnapshot_overwrites_within_a_second :
  ∃ (s1 s2 : Snapshot) (restored : RestoreResult) (backup : Snapshot),
    first_snapshot.1 = Ok s1 ∧ second_snapshot.1 = Ok s2 ∧
    Snapshot_CreatedAt s1 = 1706918400010000000 ∧
    Snapshot_CreatedAt s2 = 1706918400030000000 ∧
    Snapshot_ID s1 = "snapshot-20240203-000000" ∧
    Snapshot_ID s2 = "snapshot-20240203-000000" ∧
    Snapshot_State s1 = upgrade_actual ∧ Snapshot_State s2 = upgrade_desired ∧
    (LoadSnapshot "snapshot-20240203-000000" first_snapshot.2).1 = Ok s1 ∧
    (LoadSnapshot "snapshot-20240203-000000" second_snapshot.2).1 = Ok s2 ∧
    listed_ids second_snapshot.2 = Ok ["snapshot-20240203-000000"] ∧
    quick_restore.1 = Ok restored ∧
    RestoreResult_BackupID restored = "snapshot-20240203-000000" ∧
    (LoadSnapshot "snapshot-20240203-000000" quick_restore.2).1 = Ok backup ∧
    Snapshot_Description backup = "Pre-restore backup" ∧
    Snapshot_State backup = upgrade_desired ∧
    listed_ids quick_restore.2 = Ok ["snapshot-20240203-000000"].
Proof.
  eexists _, _, _, _.
  split; [vm_compute; reflexivity|]. split; [vm_compute; reflexivity|].
  split; [reflexivity|]. split; [reflexivity|]. split; [reflexivity|]. split; [reflexivity|].
  split; [by vm_compute|]. split; [by vm_compute|].
  split; [by vm_compute|]. split; [by vm_compute|]. split; [by vm_compute|].
  split; [vm_compute; reflexivity|]. split; [reflexivity|].
  split; [vm_compute; reflexivity|]. split; [reflexivity|].
  split; by vm_compute.
Qed.

End snapshot_claims_2.
(** * More on the planner *)

Section planner_content.

Lemma or_iff (P P' Q Q' : Prop) : (P ↔ P') → (Q ↔ Q') → (P ∨ Q ↔ P' ∨ Q').
Proof. tauto. Qed.

(** X1. What a plan holds, for every order the loops follow: a Create for
    each cluster desired and not actual, an Update for each cluster in both
    whose versions differ, a Delete for each cluster actual and not desired,
    and a Create for each node pool desired and not actual; and nothing
    else.  Node pools get no Update and no Delete. *)
Theorem GeneratePlan_actions desired actual plan err :
  GeneratePlan_returns desired actual plan err →
  ∀ a, a ∈ Plan_Actions plan ↔
    (∃ id c, State_Clusters desired !! id = Some c ∧ State_Clusters actual !! id = None ∧
             a = createCluster id c) ∨
    (∃ id c c', State_Clusters desired !! id = Some c ∧ State_Clusters actual !! id = Some c' ∧
                needsUpdate c c' = true ∧ a = updateCluster id c) ∨
    (∃ id c, State_Clusters actual !! id = Some c ∧ State_Clusters desired !! id = None ∧
             a = deleteCluster id c) ∨
    (∃ id p, State_NodePools desired !! id = Some p ∧ State_NodePools actual !! id = None ∧
             a = createNodePool id p).
Proof.
  intros (o & (Hc & Hu & Hd & Hp) & Heq) a.
  pose proof (GeneratePlan_blocks o desired actual) as Hb.
  rewrite Heq in Hb. simpl in Hb. rewrite Hb, !elem_of_app, !list_elem_of_bind.
  apply or_iff; [|apply or_iff; [|apply or_iff]].
  - split.
    + intros ([id c] & Ha & Hin). apply (ranges_lookup _ _ _ _ Hc) in Hin.
      unfold clusterCreates in Ha. simpl in Ha.
      destruct (State_Clusters actual !! id) eqn:Hact; [by apply elem_of_nil in Ha|].
      apply list_elem_of_singleton in Ha. eauto 10.
    + intros (id & c & Hdes & Hact & ->). exists (id, c).
      split; [|by apply (ranges_lookup _ _ _ _ Hc)].
      unfold clusterCreates. simpl. rewrite Hact. by apply list_elem_of_singleton.
  - split.
    + intros ([id c] & Ha & Hin). apply (ranges_lookup _ _ _ _ Hu) in Hin.
      unfold clusterUpdates in Ha. simpl in Ha.
      destruct (State_Clusters actual !! id) as [c'|] eqn:Hact; [|by apply elem_of_nil in Ha].
      destruct (needsUpdate c c') eqn:Hneeds; [|by apply elem_of_nil in Ha].
      apply list_elem_of_singleton in Ha. eauto 10.
    + intros (id & c & c' & Hdes & Hact & Hneeds & ->). exists (id, c).
      split; [|by apply (ranges_lookup _ _ _ _ Hu)].
      unfold clusterUpdates. simpl. rewrite Hact, Hneeds. by apply list_elem_of_singleton.
  - split.
    + intros ([id c] & Ha & Hin). apply (ranges_lookup _ _ _ _ Hd) in Hin.
      unfold clusterDeletes in Ha. simpl in Ha.
      destruct (State_Clusters desired !! id) eqn:Hdes; [by apply elem_of_nil in Ha|].
      apply list_elem_of_singleton in Ha. eauto 10.
    + intros (id & c & Hact & Hdes & ->). exists (id, c).
      split; [|by apply (ranges_lookup _ _ _ _ Hd)].
      unfold clusterDeletes. simpl. rewrite Hdes. by apply list_elem_of_singleton.
  - split.
    + intros ([id p] & Ha & Hin). apply (ranges_lookup _ _ _ _ Hp) in Hin.
      unfold poolCreates in Ha. simpl in Ha.
      destruct (State_NodePools actual !! id) eqn:Hact; [by apply elem_of_nil in Ha|].
      apply list_elem_of_singleton in Ha. eauto 10.
    + intros (id & p & Hdes & Hact & ->). exists (id, p).
      split; [|by apply (ranges_lookup _ _ _ _ Hp)].
      unfold poolCreates. simpl. rewrite Hact. by apply list_elem_of_singleton.
Qed.

Lemma ranges_NoDup_keys {A} (m : gmap string A) l : ranges m l → NoDup l.*1.
Proof. unfold ranges. intros ->. apply NoDup_fst_map_to_list. Qed.

(** The targets of a block are targets of the entries it was made from, in
    their order. *)
Lemma block_targets {V} (kind : string) (f : string * V → list Action) (l : list (string * V)) :
  (∀ kv, f kv = [] ∨ ∃ a, f kv = [a] ∧ target a = (kind, kv.1)) →
  target <$> (l ≫= f) `sublist_of` (pair kind <$> l.*1).
Proof.
  intros Hf. induction l as [|kv l IH]; [done|].
  rewrite bind_cons, fmap_app. simpl.
  destruct (Hf kv) as [->|(a & -> & Ha)]; simpl.
  - by apply sublist_cons.
  - rewrite Ha. by apply sublist_skip.
Qed.

(** X2. No resource is the target of two actions of a plan: the pairs of
    kind and id of the actions are pairwise different. *)
Theorem GeneratePlan_targets_NoDup desired actual plan err :
  GeneratePlan_returns desired actual plan err →
  NoDup (target <$> Plan_Actions plan).
Proof.
  intros (o & (Hc & Hu & Hd & Hp) & Heq).
  pose proof (GeneratePlan_blocks o desired actual) as Hb.
  rewrite Heq in Hb. simpl in Hb. rewrite Hb.
  assert (∀ {V} kind (f : string * V → list Action) (m : gmap string V) l,
            ranges m l →
            (∀ kv, f kv = [] ∨ ∃ a, f kv = [a] ∧ target a = (kind, kv.1)) →
            NoDup (target <$> (l ≫= f))) as Hblock.
  { intros V kind f m l Hl Hf. eapply sublist_NoDup; [|by apply block_targets].
    apply NoDup_fmap_2; [by intros ?? [= ->]|]. by eapply ranges_NoDup_keys. }
  assert (∀ a, a ∈ Orders_create o ≫= clusterCreates actual →
            ∃ id, target a = ("Cluster", id) ∧ State_Clusters actual !! id = None ∧
                  is_Some (State_Clusters desired !! id)) as Hin1.
  { intros a ([id c] & Ha & Hin)%list_elem_of_bind.
    apply (ranges_lookup _ _ _ _ Hc) in Hin. unfold clusterCreates in Ha. simpl in Ha.
    destruct (State_Clusters actual !! id) eqn:?; [by apply elem_of_nil in Ha|].
    apply list_elem_of_singleton in Ha as ->. eauto 10. }
  assert (∀ a, a ∈ Orders_update o ≫= clusterUpdates actual →
            ∃ id, target a = ("Cluster", id) ∧ is_Some (State_Clusters actual !! id) ∧
                  is_Some (State_Clusters desired !! id)) as Hin2.
  { intros a ([id c] & Ha & Hin)%list_elem_of_bind.
    apply (ranges_lookup _ _ _ _ Hu) in Hin. unfold clusterUpdates in Ha. simpl in Ha.
    destruct (State_Clusters actual !! id) as [c'|] eqn:?; [|by apply elem_of_nil in Ha].
    destruct (needsUpdate c c'); [|by apply elem_of_nil in Ha].
    apply list_elem_of_singleton in Ha as ->. eauto 10. }
  assert (∀ a, a ∈ Orders_delete o ≫= clusterDeletes desired →
            ∃ id, target a = ("Cluster", id) ∧ State_Clusters desired !! id = None) as Hin3.
  { intros a ([id c] & Ha & _)%list_elem_of_bind. unfold clusterDeletes in Ha. simpl in Ha.
    destruct (State_Clusters desired !! id) eqn:?; [by apply elem_of_nil in Ha|].
    apply list_elem_of_singleton in Ha as ->. eauto. }
  assert (∀ a, a ∈ Orders_pools o ≫= poolCreates actual →
            ∃ id, target a = ("NodePool", id)) as Hin4.
  { intros a ([id p] & Ha & _)%list_elem_of_bind. unfold poolCreates in Ha. simpl in Ha.
    destruct (State_NodePools actual !! id) eqn:?; [by apply elem_of_nil in Ha|].
    apply list_elem_of_singleton in Ha as ->. eauto. }
  rewrite !fmap_app.
  apply NoDup_app; split; [|split; [|apply NoDup_app; split; [|split; [|apply NoDup_app;
    split; [|split]]]]].
  - apply (Hblock _ "Cluster" _ _ _ Hc). intros [id c]. unfold clusterCreates. simpl.
    destruct (State_Clusters actual !! id); eauto.
  - intros t (a & -> & Ha)%list_elem_of_fmap Hin.
    destruct (Hin1 a Ha) as (id & Ht & Hnone & [? Hdes]).
    rewrite !elem_of_app in Hin.
    destruct Hin as [Hin|[Hin|Hin]]; apply list_elem_of_fmap in Hin as (b & Hb' & Hin).
    + destruct (Hin2 b Hin) as (id' & Ht' & [? Hsome] & _). congruence.
    + destruct (Hin3 b Hin) as (id' & Ht' & Hnone'). congruence.
    + destruct (Hin4 b Hin) as (id' & Ht'). congruence.
  - apply (Hblock _ "Cluster" _ _ _ Hu). intros [id c]. unfold clusterUpdates. simpl.
    destruct (State_Clusters actual !! id); [destruct (needsUpdate _ _)|]; eauto.
  - intros t (a & -> & Ha)%list_elem_of_fmap Hin.
    destruct (Hin2 a Ha) as (id & Ht & _ & [? Hsome]).
    rewrite !elem_of_app in Hin.
    destruct Hin as [Hin|Hin]; apply list_elem_of_fmap in Hin as (b & Hb' & Hin).
    + destruct (Hin3 b Hin) as (id' & Ht' & Hnone'). congruence.
    + destruct (Hin4 b Hin) as (id' & Ht'). congruence.
  - apply (Hblock _ "Cluster" _ _ _ Hd). intros [id c]. unfold clusterDeletes. simpl.
    destruct (State_Clusters desired !! id); eauto.
  - intros t (a & -> & Ha)%list_elem_of_fmap Hin. destruct (Hin3 a Ha) as (id & Ht & _).
    apply list_elem_of_fmap in Hin as (b & Hb' & Hin).
    destruct (Hin4 b Hin) as (id' & Ht'). congruence.
  - apply (Hblock _ "NodePool" _ _ _ Hp). intros [id p]. unfold poolCreates. simpl.
    destruct (State_NodePools actual !! id); eauto.
Qed.

(** X1 at [upgrade_desired] and [upgrade_actual]. *)
Lemma GeneratePlan_actions_witness :
  GeneratePlan_returns upgrade_desired upgrade_actual upgrade_plan None ∧
  updateCluster "c1" (mkCluster "c1" "prod" "aws" "1.29") ∈ Plan_Actions upgrade_plan.
Proof.
  assert (GeneratePlan_returns upgrade_desired upgrade_actual upgrade_plan None) as Hret
    by (by apply upgrade_plan_returned).
  split; [exact Hret|].
  apply (GeneratePlan_actions upgrade_desired upgrade_actual upgrade_plan None Hret).
  right. left. exists "c1", (mkCluster "c1" "prod" "aws" "1.29"), (mkCluster "c1" "prod" "aws" "1.28").
  repeat split; by vm_compute.
Defined.

(** X2 at [upgrade_desired] and [upgrade_actual]. *)
Lemma GeneratePlan_targets_NoDup_witness :
  GeneratePlan_returns upgrade_desired upgrade_actual upgrade_plan None ∧
  NoDup (target <$> Plan_Actions upgrade_plan).
Proof.
  assert (GeneratePlan_returns upgrade_desired upgrade_actual upgrade_plan None) as Hret
    by (by apply upgrade_plan_returned).
  split; [exact Hret|].
  exact (GeneratePlan_targets_NoDup upgrade_desired upgrade_actual upgrade_plan None Hret).
Defined.

(** X3. The order of map iteration is all that two runs of [GeneratePlan]
    on the same states can differ in: the plans hold the same actions, each
    as often, and both errors are nil. *)
Theorem GeneratePlan_same_up_to_order desired actual plan1 err1 plan2 err2 :
  GeneratePlan_returns desired actual plan1 err1 →
  GeneratePlan_returns desired actual plan2 err2 →
  Plan_Actions plan1 ≡ₚ Plan_Actions plan2 ∧ err1 = None ∧ err2 = None.
Proof.
  intros (o1 & (Hc1 & Hu1 & Hd1 & Hp1) & Heq1) (o2 & (Hc2 & Hu2 & Hd2 & Hp2) & Heq2).
  pose proof (GeneratePlan_blocks o1 desired actual) as Hb1.
  pose proof (GeneratePlan_blocks o2 desired actual) as Hb2.
  pose proof (GeneratePlan_no_error o1 desired actual) as He1.
  pose proof (GeneratePlan_no_error o2 desired actual) as He2.
  rewrite Heq1 in Hb1, He1. rewrite Heq2 in Hb2, He2. simpl in *.
  split; [|done]. rewrite Hb1, Hb2. unfold ranges in *.
  by rewrite Hc1, Hu1, Hd1, Hp1, Hc2, Hu2, Hd2, Hp2.
Qed.

Lemma ranges_two {A} (k1 k2 : string) (v1 v2 : A) :
  k1 ≠ k2 →
  ranges ({[ k1 := v1; k2 := v2 ]} : gmap string A) [(k1, v1); (k2, v2)] ∧
  ranges ({[ k1 := v1; k2 := v2 ]} : gmap string A) [(k2, v2); (k1, v1)].
Proof.
  intros Hne. unfold ranges.
  assert (map_to_list ({[ k1 := v1; k2 := v2 ]} : gmap string A) ≡ₚ [(k1, v1); (k2, v2)])
    as ->.
  { rewrite map_to_list_insert by (by apply lookup_singleton_ne).
    by rewrite map_to_list_singleton. }
  split; [done|apply perm_swap].
Qed.

(** X3 at two clusters to create: visited in the one order and in the
    other, the loops give two plans that differ, the Create of blue first in
    the one and the Create of green first in the other, and that hold the
    same actions. *)
Lemma GeneratePlan_same_up_to_order_witness :
  GeneratePlan_returns two_clusters_desired State_zero
    (GeneratePlan blue_first two_clusters_desired State_zero).1 None ∧
  GeneratePlan_returns two_clusters_desired State_zero
    (GeneratePlan green_first two_clusters_desired State_zero).1 None ∧
  target <$> Plan_Actions (GeneratePlan blue_first two_clusters_desired State_zero).1
    = [("Cluster", "blue"); ("Cluster", "green")] ∧
  target <$> Plan_Actions (GeneratePlan green_first two_clusters_desired State_zero).1
    = [("Cluster", "green"); ("Cluster", "blue")] ∧
  Plan_Actions (GeneratePlan blue_first two_clusters_desired State_zero).1
    ≡ₚ Plan_Actions (GeneratePlan green_first two_clusters_desired State_zero).1.
Proof.
  destruct (ranges_two "blue" "green" blue green) as [Hblue Hgreen]; [done|].
  assert (ranges (∅ : gmap string Cluster) []) as Hnone.
  { unfold ranges. by rewrite map_to_list_empty. }
  assert (ranges (∅ : gmap string NodePool) []) as Hpools.
  { unfold ranges. by rewrite map_to_list_empty. }
  assert (GeneratePlan_returns two_clusters_desired State_zero
            (GeneratePlan blue_first two_clusters_desired State_zero).1 None) as Hret1.
  { exists blue_first. split; [by repeat split|reflexivity]. }
  assert (GeneratePlan_returns two_clusters_desired State_zero
            (GeneratePlan green_first two_clusters_desired State_zero).1 None) as Hret2.
  { exists green_first. split; [by repeat split|reflexivity]. }
  split; [exact Hret1|]. split; [exact Hret2|].
  split; [reflexivity|]. split; [reflexivity|].
  exact (proj1 (GeneratePlan_same_up_to_order two_clusters_desired State_zero
                  _ None _ None Hret1 Hret2)).
Defined.

End planner_content.

Section planner_printing.

Lemma PrintPlan_step_unlisted s a : ¬ listed a → PrintPlan_step s a = s.
Proof. unfold listed, PrintPlan_step. intros Hn. repeat case_decide; tauto. Qed.

Lemma PrintPlan_step_printed s a b : printed a = printed b → PrintPlan_step s a = PrintPlan_step s b.
Proof. unfold printed, PrintPlan_step, plan_line. intros [= -> -> -> ->]. done. Qed.

Lemma PrintPlan_fold_listed s l :
  foldl PrintPlan_step s l = foldl PrintPlan_step s (filter listed l).
Proof.
  revert s. induction l as [|a l IH]; intros s; [done|].
  rewrite filter_cons. destruct (decide (listed a)) as [Hl|Hl]; simpl.
  - apply IH.
  - rewrite PrintPlan_step_unlisted by done. apply IH.
Qed.

Lemma PrintPlan_fold_printed s l1 l2 :
  printed <$> l1 = printed <$> l2 → foldl PrintPlan_step s l1 = foldl PrintPlan_step s l2.
Proof.
  revert s l2. induction l1 as [|a l1 IH]; intros s [|b l2] Heq; try done.
  rewrite !fmap_cons in Heq.
  assert (printed a = printed b) as Hab by congruence.
  assert (printed <$> l1 = printed <$> l2) as Htl by congruence.
  simpl. rewrite (PrintPlan_step_printed s a b Hab). by apply IH.
Qed.

(** X4. [PrintPlan] reads of a plan only the actions of type create, update
    or delete, and of these only the type and the kind, name and id of the
    resource: two plans that agree there are printed alike.  Actions of
    another type, noop among them, get no line and are not counted; the
    provider and the parameters are not shown. *)
Theorem PrintPlan_reads (plan1 plan2 : Plan) :
  printed <$> filter listed (Plan_Actions plan1) = printed <$> filter listed (Plan_Actions plan2) →
  PrintPlan plan1 = PrintPlan plan2.
Proof.
  intros Heq. unfold PrintPlan, PrintPlan_loop.
  rewrite (PrintPlan_fold_listed _ (Plan_Actions plan1)),
    (PrintPlan_fold_listed _ (Plan_Actions plan2)).
  by rewrite (PrintPlan_fold_printed _ _ _ Heq).
Qed.

(** X4 at [upgrade_plan] and the same plan with a noop action in front. *)
Lemma PrintPlan_reads_witness :
  PrintPlan upgrade_plan =
  PrintPlan {| Plan_Actions :=
                 {| Action_Type := ActionNoop;
                    Action_Resource := resource_of "Cluster" "c2" "test";
                    Action_Parameters := ∅ |} :: Plan_Actions upgrade_plan |}.
Proof. apply PrintPlan_reads. by vm_compute. Defined.

Lemma PrintPlan_fold_counts s l :
  Printing_creates (foldl PrintPlan_step s l) =
    Printing_creates s + Z.of_nat (length (filter (has_type ActionCreate) l)) ∧
  Printing_updates (foldl PrintPlan_step s l) =
    Printing_updates s + Z.of_nat (length (filter (has_type ActionUpdate) l)) ∧
  Printing_deletes (foldl PrintPlan_step s l) =
    Printing_deletes s + Z.of_nat (length (filter (has_type ActionDelete) l)).
Proof.
  revert s. induction l as [|a l IH]; intros s; simpl; [lia|].
  destruct (IH (PrintPlan_step s a)) as (-> & -> & ->).
  rewrite !filter_cons. unfold PrintPlan_step, has_type, ActionCreate, ActionUpdate, ActionDelete.
  repeat case_decide; simpl; try congruence; lia.
Qed.

Lemma bind_filter_length {A B} (P : A → Prop) `{!∀ x, Decision (P x)} (Q : B → Prop)
    `{!∀ y, Decision (Q y)} (f : A → list B) (l : list A) :
  (∀ x, P x → ∃ y, f x = [y] ∧ Q y) → (∀ x, ¬ P x → f x = []) →
  length (filter Q (l ≫= f)) = length (filter P l) ∧ length (l ≫= f) = length (filter P l).
Proof.
  intros Hyes Hno. induction l as [|x l [IH1 IH2]]; [done|].
  rewrite bind_cons, filter_app, !length_app, filter_cons, IH1, IH2.
  destruct (decide (P x)) as [Hx|Hx].
  - destruct (Hyes x Hx) as (y & -> & Hy). rewrite filter_cons, decide_True by done. done.
  - by rewrite (Hno x Hx).
Qed.

Lemma bind_filter_none {A B} (Q : B → Prop) `{!∀ y, Decision (Q y)} (f : A → list B)
    (l : list A) :
  (∀ x y, y ∈ f x → ¬ Q y) → filter Q (l ≫= f) = [].
Proof.
  intros Hf. induction l as [|x l IH]; [done|].
  rewrite bind_cons, filter_app, IH, app_nil_r.
  specialize (Hf x). induction (f x) as [|y k IHk]; [done|].
  rewrite filter_cons, decide_False by (apply Hf; set_solver).
  apply IHk. intros ? ?. apply Hf. set_solver.
Qed.

Lemma ranges_filter_length {A} (P : string * A → Prop) `{!∀ x, Decision (P x)}
    (m : gmap string A) l :
  ranges m l → length (filter P l) = size (filter P m).
Proof.
  unfold ranges. intros ->.
  rewrite map_filter_alt, <- length_map_to_list, map_to_list_to_map; [done|].
  eapply sublist_NoDup; [apply (NoDup_fst_map_to_list m)|].
  apply fmap_sublist, sublist_filter.
Qed.

(** X5. The numbers in the last line of [PrintPlan], for a plan that
    [GeneratePlan] returned: to create are the desired clusters and the
    desired node pools that the actual state lacks, to update the desired
    clusters the actual state holds at another version, to delete the actual
    clusters that are not desired.  Together they count every action of the
    plan. *)
Theorem PrintPlan_counts_plan desired actual plan err :
  GeneratePlan_returns desired actual plan err →
  Printing_creates (PrintPlan_loop plan) =
    Z.of_nat (size (filter (missing_from (State_Clusters actual)) (State_Clusters desired)) +
              size (filter (missing_from (State_NodePools actual)) (State_NodePools desired))) ∧
  Printing_updates (PrintPlan_loop plan) =
    Z.of_nat (size (filter (outdated actual) (State_Clusters desired))) ∧
  Printing_deletes (PrintPlan_loop plan) =
    Z.of_nat (size (filter (missing_from (State_Clusters desired)) (State_Clusters actual))) ∧
  Printing_creates (PrintPlan_loop plan) + Printing_updates (PrintPlan_loop plan) +
    Printing_deletes (PrintPlan_loop plan) = Z.of_nat (length (Plan_Actions plan)).
Proof.
  intros (o & (Hc & Hu & Hd & Hp) & Heq).
  pose proof (GeneratePlan_blocks o desired actual) as Hb.
  rewrite Heq in Hb. simpl in Hb.
  unfold PrintPlan_loop.
  destruct (PrintPlan_fold_counts
              {| Printing_output := "Infrastructure Plan:" +:+ newline +:+ newline;
                 Printing_creates := 0; Printing_updates := 0; Printing_deletes := 0 |}
              (Plan_Actions plan)) as (-> & -> & ->).
  cbn [Printing_creates Printing_updates Printing_deletes].
  rewrite Hb, !filter_app, !length_app.
  (* the four blocks, type by type *)
  assert (∀ t, length (filter (has_type t) (Orders_create o ≫= clusterCreates actual)) =
               if decide (t = ActionCreate)
               then size (filter (missing_from (State_Clusters actual)) (State_Clusters desired))
               else 0%nat) as Hcreate.
  { intros t. case_decide as Ht.
    - subst t. rewrite <- (ranges_filter_length _ _ _ Hc).
      apply bind_filter_length.
      + intros [id c] Hm. unfold missing_from in Hm. unfold clusterCreates. rewrite Hm. by eexists.
      + intros [id c] Hm. unfold missing_from in Hm. unfold clusterCreates.
        by destruct (State_Clusters actual !! (id, c).1).
    - rewrite bind_filter_none; [done|]. intros [id c] a Ha. unfold clusterCreates in Ha.
      destruct (State_Clusters actual !! (id, c).1); [by apply elem_of_nil in Ha|].
      apply list_elem_of_singleton in Ha as ->. unfold has_type. simpl. congruence. }
  assert (∀ t, length (filter (has_type t) (Orders_update o ≫= clusterUpdates actual)) =
               if decide (t = ActionUpdate)
               then size (filter (outdated actual) (State_Clusters desired))
               else 0%nat) as Hupdate.
  { intros t. case_decide as Ht.
    - subst t. rewrite <- (ranges_filter_length _ _ _ Hu).
      apply bind_filter_length.
      + intros [id c] Hm. unfold outdated in Hm. unfold clusterUpdates.
        destruct (State_Clusters actual !! (id, c).1); [|done]. rewrite Hm. by eexists.
      + intros [id c] Hm. unfold outdated in Hm. unfold clusterUpdates.
        destruct (State_Clusters actual !! (id, c).1); [|done].
        by destruct (needsUpdate _ _).
    - rewrite bind_filter_none; [done|]. intros [id c] a Ha. unfold clusterUpdates in Ha.
      destruct (State_Clusters actual !! (id, c).1); [|by apply elem_of_nil in Ha].
      destruct (needsUpdate _ _); [|by apply elem_of_nil in Ha].
      apply list_elem_of_singleton in Ha as ->. unfold has_type. simpl. congruence. }
  assert (∀ t, length (filter (has_type t) (Orders_delete o ≫= clusterDeletes desired)) =
               if decide (t = ActionDelete)
               then size (filter (missing_from (State_Clusters desired)) (State_Clusters actual))
               else 0%nat) as Hdelete.
  { intros t. case_decide as Ht.
    - subst t. rewrite <- (ranges_filter_length _ _ _ Hd).
      apply bind_filter_length.
      + intros [id c] Hm. unfold missing_from in Hm. unfold clusterDeletes. rewrite Hm. by eexists.
      + intros [id c] Hm. unfold missing_from in Hm. unfold clusterDeletes.
        by destruct (State_Clusters desired !! (id, c).1).
    - rewrite bind_filter_none; [done|]. intros [id c] a Ha. unfold clusterDeletes in Ha.
      destruct (State_Clusters desired !! (id, c).1); [by apply elem_of_nil in Ha|].
      apply list_elem_of_singleton in Ha as ->. unfold has_type. simpl. congruence. }
  assert (∀ t, length (filter (has_type t) (Orders_pools o ≫= poolCreates actual)) =
               if decide (t = ActionCreate)
               then size (filter (missing_from (State_NodePools actual)) (State_NodePools desired))
               else 0%nat) as Hpools.
  { intros t. case_decide as Ht.
    - subst t. rewrite <- (ranges_filter_length _ _ _ Hp).
      apply bind_filter_length.
      + intros [id c] Hm. unfold missing_from in Hm. unfold poolCreates. rewrite Hm. by eexists.
      + intros [id c] Hm. unfold missing_from in Hm. unfold poolCreates.
        by destruct (State_NodePools actual !! (id, c).1).
    - rewrite bind_filter_none; [done|]. intros [id c] a Ha. unfold poolCreates in Ha.
      destruct (State_NodePools actual !! (id, c).1); [by apply elem_of_nil in Ha|].
      apply list_elem_of_singleton in Ha as ->. unfold has_type. simpl. congruence. }
  assert (length (Orders_create o ≫= clusterCreates actual) =
            size (filter (missing_from (State_Clusters actual)) (State_Clusters desired))) as Lc.
  { rewrite <- (ranges_filter_length _ _ _ Hc).
    eapply (bind_filter_length _ (has_type ActionCreate)).
    - intros [id c] Hm. unfold missing_from in Hm. unfold clusterCreates. rewrite Hm. by eexists.
    - intros [id c] Hm. unfold missing_from in Hm. unfold clusterCreates.
      by destruct (State_Clusters actual !! (id, c).1). }
  assert (length (Orders_update o ≫= clusterUpdates actual) =
            size (filter (outdated actual) (State_Clusters desired))) as Lu.
  { rewrite <- (ranges_filter_length _ _ _ Hu).
    eapply (bind_filter_length _ (has_type ActionUpdate)).
    - intros [id c] Hm. unfold outdated in Hm. unfold clusterUpdates.
      destruct (State_Clusters actual !! (id, c).1); [|done]. rewrite Hm. by eexists.
    - intros [id c] Hm. unfold outdated in Hm. unfold clusterUpdates.
      destruct (State_Clusters actual !! (id, c).1); [|done].
      by destruct (needsUpdate _ _). }
  assert (length (Orders_delete o ≫= clusterDeletes desired) =
            size (filter (missing_from (State_Clusters desired)) (State_Clusters actual))) as Ld.
  { rewrite <- (ranges_filter_length _ _ _ Hd).
    eapply (bind_filter_length _ (has_type ActionDelete)).
    - intros [id c] Hm. unfold missing_from in Hm. unfold clusterDeletes. rewrite Hm. by eexists.
    - intros [id c] Hm. unfold missing_from in Hm. unfold clusterDeletes.
      by destruct (State_Clusters desired !! (id, c).1). }
  assert (length (Orders_pools o ≫= poolCreates actual) =
            size (filter (missing_from (State_NodePools actual)) (State_NodePools desired))) as Lp.
  { rewrite <- (ranges_filter_length _ _ _ Hp).
    eapply (bind_filter_length _ (has_type ActionCreate)).
    - intros [id c] Hm. unfold missing_from in Hm. unfold poolCreates. rewrite Hm. by eexists.
    - intros [id c] Hm. unfold missing_from in Hm. unfold poolCreates.
      by destruct (State_NodePools actual !! (id, c).1). }
  rewrite !Hcreate, !Hupdate, !Hdelete, !Hpools, Lc, Lu, Ld, Lp.
  unfold ActionCreate, ActionUpdate, ActionDelete.
  repeat (case_decide; [try discriminate|try congruence]). lia.
Qed.

(** X5 at [upgrade_desired] and [upgrade_actual]: one to create, one to
    update, none to delete. *)
Lemma PrintPlan_counts_plan_witness :
  GeneratePlan_returns upgrade_desired upgrade_actual upgrade_plan None ∧
  Printing_creates (PrintPlan_loop upgrade_plan) + Printing_updates (PrintPlan_loop upgrade_plan) +
    Printing_deletes (PrintPlan_loop upgrade_plan) = Z.of_nat (length (Plan_Actions upgrade_plan)).
Proof.
  assert (GeneratePlan_returns upgrade_desired upgrade_actual upgrade_plan None) as Hret
    by (by apply upgrade_plan_returned).
  split; [exact Hret|].
  apply (PrintPlan_counts_plan upgrade_desired upgrade_actual upgrade_plan None Hret).
Defined.

End planner_printing.
(** * More on the engine *)

Section Apply_store.
Context {ES : Type} `{!EventStore ES}.
Implicit Types (e : Engine) (w : World ES) (es : ES) (a : Action).

Lemma Apply_loop_events e actions w :
  World_events (Apply_loop e actions w).2 =
    store_after (World_events w)
      (event_of <$> take (attempted_writes actions (first_failure e actions (World_events w)))
                         actions).
Proof.
  revert w. induction actions as [|a rest IH]; intros w; [done|].
  cbn [Apply_loop first_failure]. unfold bind at 1. rewrite !executeAction_run. simpl.
  destruct (GetProvider e _) as [p|]; [|done].
  unfold bind at 1, recordEvent at 1. simpl. fold (event_of a).
  destruct (RecordEvent (World_events w) (event_of a)) as [[err|] es1] eqn:Hrec.
  { simpl. by rewrite Hrec. }
  rewrite IH. simpl.
  destruct (first_failure e rest es1) as [[n err|n err]|]; simpl; by rewrite Hrec.
Qed.

(** X6. The events [Apply] wrote stay written.  The event store it leaves
    behind is the store after the writes it attempted, in plan order: all of
    them when no step failed, even if [Commit] then answers with an error;
    those up to the failing step otherwise.  The deferred [Rollback] takes
    nothing back. *)
Theorem Apply_keeps_events (commit : option error) e (plan : Plan) w :
  World_events (Apply commit e plan w).2 =
    store_after (World_events w)
      (event_of <$>
         take (attempted_writes (Plan_Actions plan)
                 (first_failure e (Plan_Actions plan) (World_events w)))
              (Plan_Actions plan)).
Proof.
  pose proof (Apply_loop_events e (Plan_Actions plan)
                {| World_events := World_events w;
                   World_calls := World_calls w ++ [Call_BeginTransaction] |}) as Hloop.
  cbn [World_events] in Hloop. rewrite <- Hloop.
  unfold Apply. unfold bind at 1, call at 1, modify at 1.
  destruct (Apply_loop e (Plan_Actions plan) _) as [[[]|err] w']; reflexivity.
Qed.

(** X7. On an engine without any registered provider, [Apply] of a plan
    with at least one action returns [ErrProviderNotFound]: it opens the
    transaction, enters [executeAction] for the first action only, writes no
    event and ends with [Rollback], without a [Commit]. *)
Theorem Apply_NewEngine_fails (commit : option error) a (rest : list Action) w :
  Apply commit NewEngine {| Plan_Actions := a :: rest |} w =
    (Err ErrProviderNotFound,
     {| World_events := World_events w;
        World_calls :=
          World_calls w ++ [Call_BeginTransaction; Call_executeAction a; Call_Rollback] |}).
Proof.
  unfold Apply. unfold bind at 1, call at 1, modify at 1. cbn [Plan_Actions Apply_loop].
  unfold bind at 1. rewrite executeAction_run.
  unfold GetProvider, NewEngine. cbn [Engine_providers]. rewrite lookup_empty.
  cbn. unfold call, modify. cbn. by rewrite <- !app_assoc.
Qed.

(** X30. A plan with a node pool to create cannot be applied by an engine
    whose providers all have a name.  [GeneratePlan] leaves the provider of a
    node pool action empty, and [executeAction] looks the provider up by that
    name: when a desired node pool is missing from the actual state and no
    provider is registered under the empty name, [Apply] of every plan
    [GeneratePlan] returns ends with an error, whatever [Commit] would
    answer. *)
Theorem Apply_fails_on_node_pool_create (commit : option error) e (desired actual : State)
    (plan : Plan) (err : option error) (id : string) (pool : NodePool) w :
  GeneratePlan_returns desired actual plan err →
  State_NodePools desired !! id = Some pool →
  State_NodePools actual !! id = None →
  GetProvider e "" = None →
  createNodePool id pool ∈ Plan_Actions plan ∧
  ∃ err', (Apply commit e plan w).1 = Err err'.
Proof.
  intros (o & (Hc & Hu & Hd & Hp) & Heq) Hdes Hact Hnone.
  pose proof (GeneratePlan_blocks o desired actual) as Hb.
  rewrite Heq in Hb. simpl in Hb.
  assert (createNodePool id pool ∈ Plan_Actions plan) as Hin.
  { rewrite Hb, !elem_of_app. right. right. right.
    apply list_elem_of_bind. exists (id, pool). split.
    - unfold poolCreates. cbn [fst snd]. rewrite Hact. apply list_elem_of_here.
    - by apply (ranges_lookup _ _ _ _ Hp). }
  split; [done|].
  apply list_elem_of_lookup in Hin as [n Hn].
  destruct (first_failure_before_missing e (Plan_Actions plan) (World_events w) n _ Hn Hnone)
    as (m & err' & _ & Hf).
  destruct (Apply_run commit e plan w) as [es' Hrun]. rewrite Hrun. cbn [fst].
  destruct Hf as [Hf|[_ Hf]]; rewrite Hf; by eexists.
Qed.

End Apply_store.

Section Apply_store_example.

(** X30 for the plan of [upgrade_desired] against [upgrade_actual], on an
    engine with the provider aws. *)
Lemma Apply_fails_on_node_pool_create_witness :
  GeneratePlan_returns upgrade_desired upgrade_actual upgrade_plan None ∧
  ∃ err',
    (Apply None (RegisterProvider NewEngine skew_provider) upgrade_plan
       {| World_events := {| BoundedStore_capacity := 10; BoundedStore_events := [] |};
          World_calls := [] |}).1 = Err err'.
Proof.
  assert (GeneratePlan_returns upgrade_desired upgrade_actual upgrade_plan None) as Hret
    by (by apply upgrade_plan_returned).
  split; [exact Hret|].
  apply (Apply_fails_on_node_pool_create None (RegisterProvider NewEngine skew_provider)
           upgrade_desired upgrade_actual upgrade_plan None "p1" (mkNodePool "p1" "workers" 3)
           {| World_events := {| BoundedStore_capacity := 10; BoundedStore_events := [] |};
              World_calls := [] |} Hret); by vm_compute.
Defined.

End Apply_store_example.

Section engine_registry.

(** X8. [RegisterProvider] files a provider under its own name: afterwards
    [GetProvider] returns it for that name, in place of a provider registered
    under the name before, and returns for every other name what it returned
    before.  On a new engine [GetProvider] returns nil for every name. *)
Theorem GetProvider_RegisterProvider (e : Engine) (provider : CloudProvider) (name : string) :
  GetProvider (RegisterProvider e provider) name =
    (if decide (name = CloudProvider_Name provider) then Some provider else GetProvider e name) ∧
  GetProvider NewEngine name = None.
Proof.
  unfold GetProvider, RegisterProvider, NewEngine. cbn [Engine_providers]. split.
  - case_decide as Hn.
    + subst. apply lookup_insert_eq.
    + by apply lookup_insert_ne.
  - apply lookup_empty.
Qed.

(** X9. The event [Apply] writes for an action has type Created, Updated or
    Deleted for the action types create, update and delete, each its own, and
    the empty type for every other action type, noop among them; it is never
    Failed. *)
Theorem toEventType_cases (actionType : ActionType) :
  (actionType = ActionCreate ↔ toEventType actionType = EventCreated) ∧
  (actionType = ActionUpdate ↔ toEventType actionType = EventUpdated) ∧
  (actionType = ActionDelete ↔ toEventType actionType = EventDeleted) ∧
  (¬ listed_type actionType ↔ toEventType actionType = "") ∧
  toEventType ActionNoop = "" ∧
  toEventType actionType ≠ EventFailed.
Proof.
  unfold toEventType, listed_type, ActionCreate, ActionUpdate, ActionDelete, ActionNoop,
    EventCreated, EventUpdated, EventDeleted, EventFailed.
  repeat split; repeat case_decide; subst; try tauto; try discriminate; try congruence;
    intros; try tauto; try discriminate.
Qed.

End engine_registry.
(** * More on the drift detector *)

Section drift_detection.

(** X10. [DetectDrift] never reports a drift.  Whatever providers the
    engine holds and whatever is desired, every report it returns has no
    drift, [HasDrift] false and a summary of zeros, with a nil error: the
    loop over [getAllProviders] has nothing to visit. *)
Theorem DetectDrift_reports_nothing (d : DriftDetector) (now : Time) (desired : State)
    (report : DriftReport) (err : option error) :
  DetectDrift_returns d now desired report err →
  report = {| DriftReport_DetectedAt := now;
              DriftReport_HasDrift := false;
              DriftReport_Drifts := [];
              DriftReport_Summary :=
                {| DriftSummary_TotalDrifts := 0; DriftSummary_CriticalCount := 0;
                   DriftSummary_HighCount := 0; DriftSummary_MediumCount := 0;
                   DriftSummary_LowCount := 0; DriftSummary_RemediableCount := 0 |} |} ∧
  err = None.
Proof.
  intros (o & Hv & Heq).
  rewrite (DetectDrift_visits_no_provider o _ _ _ Hv) in Heq. by simplify_eq.
Qed.

(** X10 for the detector of the version skew scenario. *)
Lemma DetectDrift_reports_nothing_witness :
  ∃ report err,
    DetectDrift_returns skew_detector 0 skew_desired report err ∧
    DriftReport_Drifts report = [] ∧ err = None.
Proof.
  destruct (DetectDrift_returns_default skew_detector 0 skew_desired) as (report & err & Hret).
  exists report, err. split; [exact Hret|].
  destruct (DetectDrift_reports_nothing skew_detector 0 skew_desired report err Hret)
    as [-> ->].
  done.
Defined.

Lemma appends_id P : appends P (λ s, s).
Proof. intros s. exists []. by rewrite app_nil_r. Qed.

Lemma appends_add_drift P drift : P drift → appends P (add_drift drift).
Proof. intros Hd s. exists [drift]. split; [done|]. by apply Forall_singleton. Qed.

Lemma appends_compose P f g : appends P f → appends P g → appends P (λ s, g (f s)).
Proof.
  intros Hf Hg s. destruct (Hf s) as (new1 & Heq1 & H1).
  destruct (Hg (f s)) as (new2 & Heq2 & H2).
  exists (new1 ++ new2). rewrite Heq2, Heq1, <- app_assoc. split; [done|].
  by apply Forall_app.
Qed.

Lemma appends_foldl {A} P (f : Detection → A → Detection) (l : list A) :
  (∀ x, appends P (λ s, f s x)) → appends P (λ s, foldl f s l).
Proof.
  intros Hf. induction l as [|x l IH]; simpl; [apply appends_id|].
  apply (appends_compose P (λ s, f s x) (λ s, foldl f s l)); [apply Hf|apply IH].
Qed.

Lemma check_actual_pools_appends providerName id desiredPool actualPools :
  appends (detected_for providerName)
    (λ s, (check_actual_pools providerName id desiredPool actualPools s).2).
Proof.
  unfold check_actual_pools.
  assert (∀ found, appends (detected_for providerName) (λ s,
            (foldl (λ '(foundPool, s) actualPool,
               if decide (WorkerPoolSpec_Name desiredPool = WorkerPoolSpec_Name actualPool) then
                 (true,
                  if decide (WorkerPoolSpec_DesiredSize desiredPool
                             ≠ WorkerPoolSpec_DesiredSize actualPool)
                  then
                    add_drift
                      {| ResourceDrift_Resource :=
                           {| ResourceID_Provider := providerName;
                              ResourceID_Kind := "NodePool";
                              ResourceID_ID := id +:+ "/" +:+ WorkerPoolSpec_Name desiredPool;
                              ResourceID_Name := WorkerPoolSpec_Name desiredPool |};
                         ResourceDrift_DriftType := DriftScaleChange;
                         ResourceDrift_Field := "desiredSize";
                         ResourceDrift_Expected :=
                           Value_int (WorkerPoolSpec_DesiredSize desiredPool);
                         ResourceDrift_Actual := Value_int (WorkerPoolSpec_DesiredSize actualPool);
                         ResourceDrift_Severity := SeverityMedium;
                         ResourceDrift_Remediatable := true |} s
                  else s)
               else (foundPool, s))
             (found, s) actualPools).2)) as H; [|apply H].
  induction actualPools as [|actualPool rest IH]; intros found; simpl; [apply appends_id|].
  case_decide; [|apply IH].
  case_decide; [|apply IH].
  apply (appends_compose _ (add_drift _) (λ s, (foldl _ (true, s) rest).2)); [|apply IH].
  apply appends_add_drift. unfold detected_for. simpl. tauto.
Qed.

Lemma check_pools_appends providerName id desiredCluster actualCluster :
  appends (detected_for providerName) (check_pools providerName id desiredCluster actualCluster).
Proof.
  unfold check_pools. apply appends_foldl. intros desiredPool s.
  destruct (check_actual_pools_appends providerName id desiredPool
              (ClusterSpec_WorkerPools (Resource_Spec actualCluster)) s) as (new & Heq & Hnew).
  destruct (check_actual_pools _ _ _ _ s) as [[] s']; simpl in *; [by exists new|].
  exists (new ++ [ {| ResourceDrift_Resource :=
                        {| ResourceID_Provider := providerName;
                           ResourceID_Kind := "NodePool";
                           ResourceID_ID := id +:+ "/" +:+ WorkerPoolSpec_Name desiredPool;
                           ResourceID_Name := WorkerPoolSpec_Name desiredPool |};
                      ResourceDrift_DriftType := DriftResourceDeleted;
                      ResourceDrift_Field := "nodePool";
                      ResourceDrift_Expected := Value_string "exists";
                      ResourceDrift_Actual := Value_string "deleted";
                      ResourceDrift_Severity := SeverityHigh;
                      ResourceDrift_Remediatable := true |} ]).
  rewrite Heq, <- app_assoc. split; [done|].
  apply Forall_app. split; [done|]. apply Forall_singleton.
  unfold detected_for. simpl. tauto.
Qed.

Lemma check_cluster_appends providerName actual id desiredCluster :
  appends (detected_for providerName) (check_cluster providerName actual id desiredCluster).
Proof.
  unfold check_cluster. case_decide; [apply appends_id|].
  destruct (State_Clusters actual !! id) as [actualCluster|].
  - apply (appends_compose _ _ (check_pools providerName id desiredCluster actualCluster));
      [|apply check_pools_appends].
    case_decide; [|apply appends_id].
    apply appends_add_drift. unfold detected_for. simpl. tauto.
  - apply appends_add_drift. unfold detected_for. simpl. tauto.
Qed.

Lemma check_provider_pass desired clusters providerName provider :
  appends (detected_for providerName) (check_provider desired clusters providerName provider).
Proof.
  intros s. unfold check_provider.
  destruct (CloudProvider_Reconcile provider desired State_zero) as [actual|err].
  - destruct (appends_foldl (detected_for providerName)
                (λ s kv, check_cluster providerName actual kv.1 kv.2 s) clusters
                (λ kv, check_cluster_appends providerName actual kv.1 kv.2)
                (add_log {| LogRecord_level := LevelDebug;
                            LogRecord_msg := "checking drift for provider";
                            LogRecord_attrs := [("provider", Value_string providerName)] |} s))
      as (new & Heq & Hnew).
    by exists new.
  - exists []. by rewrite app_nil_r.
Qed.

(** X11. One pass of the provider loop of [DetectDrift] keeps the drifts
    found before it and adds only drifts that name the provider of the pass,
    are marked remediatable and are of one of three shapes: a deleted cluster
    (critical), a deleted node pool or a version skew of a cluster (high), a
    scale change of a node pool (medium).  No drift of low severity and none
    of the types config_change, network_change, security_change and
    resource_added is ever written. *)
Theorem check_provider_appends (desired : State) (clusters : list (string * Cluster))
    (providerName : string) (provider : CloudProvider) (s : Detection) :
  ∃ new,
    Detection_Drifts (check_provider desired clusters providerName provider s)
      = Detection_Drifts s ++ new ∧
    Forall (detected_for providerName) new ∧
    Forall (λ drift, ResourceDrift_Severity drift ≠ SeverityLow ∧
                     ResourceDrift_DriftType drift ≠ DriftConfigChange ∧
                     ResourceDrift_DriftType drift ≠ DriftNetworkChange ∧
                     ResourceDrift_DriftType drift ≠ DriftSecurityChange ∧
                     ResourceDrift_DriftType drift ≠ DriftResourceAdded) new.
Proof.
  destruct (check_provider_pass desired clusters providerName provider s) as (new & Heq & Hnew).
  exists new. split; [done|]. split; [done|].
  eapply Forall_impl; [exact Hnew|]. intros drift (_ & _ & Hshape).
  unfold DriftResourceDeleted, DriftVersionSkew, DriftScaleChange, SeverityCritical,
    SeverityHigh, SeverityMedium, SeverityLow, DriftConfigChange, DriftNetworkChange,
    DriftSecurityChange, DriftResourceAdded in *.
  destruct Hshape as [[-> [[-> _]|[-> _]]]|[(-> & -> & _)|(-> & -> & _)]]; by repeat split.
Qed.

Lemma remediateDrift_ok_iff (d : DriftDetector) (drift : ResourceDrift) :
  (remediateDrift d drift).1 = None ↔
  is_Some (GetProvider (DriftDetector_engine d)
             (ResourceID_Provider (ResourceDrift_Resource drift))) ∧
  (ResourceDrift_DriftType drift = DriftResourceDeleted ∨
   ResourceDrift_DriftType drift = DriftVersionSkew ∨
   ResourceDrift_DriftType drift = DriftScaleChange).
Proof.
  unfold remediateDrift. destruct (GetProvider _ _) as [p|].
  - repeat case_decide; simpl; split; try done; try (intros [_ ?]; tauto); eauto 10.
  - simpl. split; [done|]. by intros [[? [=]] _].
Qed.

(** X12. Every drift a provider pass of [DetectDrift] writes is one that
    [remediateDrift] supports: when the provider of the pass is registered on
    the engine, [remediateDrift] returns nil for it. *)
Theorem remediateDrift_supports_detected (d : DriftDetector) (desired : State)
    (clusters : list (string * Cluster)) (providerName : string) (provider : CloudProvider)
    (drift : ResourceDrift) :
  is_Some (GetProvider (DriftDetector_engine d) providerName) →
  drift ∈ Detection_Drifts
            (check_provider desired clusters providerName provider
               {| Detection_Drifts := []; Detection_log := [] |}) →
  (remediateDrift d drift).1 = None.
Proof.
  intros Hp Hin.
  destruct (check_provider_pass desired clusters providerName provider
              {| Detection_Drifts := []; Detection_log := [] |}) as (new & Heq & Hnew).
  rewrite Heq in Hin. simpl in Hin.
  apply (proj1 (Forall_forall _ _) Hnew) in Hin as (Hprov & _ & Htype).
  apply remediateDrift_ok_iff. rewrite Hprov. split; [done|]. tauto.
Qed.

(** X12 for the version skew scenario. *)
Lemma remediateDrift_supports_detected_witness :
  is_Some (GetProvider (DriftDetector_engine skew_detector) "aws") ∧
  skew_drift ∈ Detection_Drifts
                 (check_provider skew_desired (map_to_list (State_Clusters skew_desired)) "aws"
                    skew_provider {| Detection_Drifts := []; Detection_log := [] |}) ∧
  (remediateDrift skew_detector skew_drift).1 = None.
Proof.
  assert (is_Some (GetProvider (DriftDetector_engine skew_detector) "aws")) as Hp
    by (by vm_compute; eexists).
  assert (skew_drift ∈ Detection_Drifts
            (check_provider skew_desired (map_to_list (State_Clusters skew_desired)) "aws"
               skew_provider {| Detection_Drifts := []; Detection_log := [] |})) as Hin
    by (rewrite check_provider_finds_skew; apply list_elem_of_here).
  split; [exact Hp|]. split; [exact Hin|].
  exact (remediateDrift_supports_detected skew_detector skew_desired
           (map_to_list (State_Clusters skew_desired)) "aws" skew_provider skew_drift Hp Hin).
Defined.





Lemma appends_keeps P f s x :
  appends P f → x ∈ Detection_Drifts s → x ∈ Detection_Drifts (f s).
Proof. intros Hf Hx. destruct (Hf s) as (new & -> & _). set_solver. Qed.

Lemma pool_pass_appends providerName id actualPools desiredPool :
  appends (detected_for providerName)
    (λ s, let '(foundPool, s) :=
            check_actual_pools providerName id desiredPool actualPools s in
          if foundPool then s
          else add_drift (pool_deleted_drift providerName id desiredPool) s).
Proof.
  intros s.
  destruct (check_actual_pools_appends providerName id desiredPool actualPools s)
    as (new & Heq & Hnew).
  destruct (check_actual_pools _ _ _ _ s) as [[] s']; simpl in *; [by exists new|].
  exists (new ++ [pool_deleted_drift providerName id desiredPool]).
  rewrite Heq, <- app_assoc. split; [done|].
  apply Forall_app. split; [done|]. apply Forall_singleton.
  unfold detected_for. simpl. tauto.
Qed.

Lemma check_actual_pools_finds providerName id desiredPool actualPool actualPools s :
  actualPool ∈ actualPools →
  WorkerPoolSpec_Name desiredPool = WorkerPoolSpec_Name actualPool →
  WorkerPoolSpec_DesiredSize desiredPool ≠ WorkerPoolSpec_DesiredSize actualPool →
  scale_drift providerName id desiredPool actualPool
    ∈ Detection_Drifts (check_actual_pools providerName id desiredPool actualPools s).2.
Proof.
  intros Hin Hname Hsize. unfold check_actual_pools.
  match goal with |- context [foldl ?F _ _] => set (step := F) end.
  assert (∀ l acc x, x ∈ Detection_Drifts acc.2 → x ∈ Detection_Drifts (foldl step acc l).2)
    as Hkeep.
  { induction l as [|q l IH]; intros [found s0] x Hx; [done|]. cbn [foldl]. apply IH.
    unfold step. cbv beta iota.
    destruct (decide (WorkerPoolSpec_Name desiredPool = WorkerPoolSpec_Name q)); [|done].
    cbn [snd].
    destruct (decide (WorkerPoolSpec_DesiredSize desiredPool ≠ WorkerPoolSpec_DesiredSize q));
      [|done].
    unfold add_drift. cbn [Detection_Drifts]. cbn [snd] in Hx. set_solver. }
  generalize (false, s).
  induction actualPools as [|q rest IH]; intros acc; [by apply elem_of_nil in Hin|].
  cbn [foldl]. apply elem_of_cons in Hin as [<-|Hin].
  - apply Hkeep. destruct acc as [found s0]. unfold step. cbv beta iota.
    rewrite (decide_True _ _ Hname), (decide_True _ _ Hsize). cbn [snd].
    unfold add_drift. cbn [Detection_Drifts]. apply elem_of_app. right.
    apply list_elem_of_here.
  - by apply IH.
Qed.

(** X29. Worker pools are matched by name, pair by pair.  When the list
    of worker pools of a cluster names a pool twice, with two desired sizes,
    the pass over this cluster writes a scale change drift for the pair even
    if the actual cluster is the desired cluster itself. *)
Theorem check_cluster_twin_pools (providerName : string) (actual : State) (id : string)
    (cluster : Cluster) (pool1 pool2 : WorkerPoolSpec) (s : Detection) :
  ClusterSpec_Provider (Resource_Spec cluster) = providerName →
  State_Clusters actual !! id = Some cluster →
  pool1 ∈ ClusterSpec_WorkerPools (Resource_Spec cluster) →
  pool2 ∈ ClusterSpec_WorkerPools (Resource_Spec cluster) →
  WorkerPoolSpec_Name pool1 = WorkerPoolSpec_Name pool2 →
  WorkerPoolSpec_DesiredSize pool1 ≠ WorkerPoolSpec_DesiredSize pool2 →
  scale_drift providerName id pool1 pool2
    ∈ Detection_Drifts (check_cluster providerName actual id cluster s).
Proof.
  intros Hprov Hactual Hin1 Hin2 Hname Hsize. unfold check_cluster.
  rewrite decide_False by (intros Hne; by apply Hne). unfold Cluster in *.
  rewrite Hactual, decide_False by (intros Hne; by apply Hne).
  unfold check_pools.
  set (pools := ClusterSpec_WorkerPools (Resource_Spec cluster)) in *.
  apply list_elem_of_split in Hin1 as (l1 & l2 & Hsplit).
  rewrite Hsplit at 1. rewrite foldl_app. cbn [foldl].
  apply (appends_keeps (detected_for providerName)
           (λ s, foldl (λ s desiredPool,
                    let '(foundPool, s) :=
                      check_actual_pools providerName id desiredPool pools s in
                    if foundPool then s
                    else add_drift (pool_deleted_drift providerName id desiredPool) s) s l2)).
  { apply appends_foldl. intros desiredPool. apply pool_pass_appends. }
  match goal with |- context [check_actual_pools ?pn ?i ?dp ?ap ?s0] =>
    pose proof (check_actual_pools_finds pn i dp pool2 ap s0 Hin2 Hname Hsize) as Hfound;
    destruct (check_actual_pools pn i dp ap s0) as [[] s']
  end; cbn [snd] in Hfound; [done|].
  unfold add_drift. cbn [Detection_Drifts]. set_solver.
Qed.

(** X29 at [twin_pools_cluster], compared with itself. *)
Lemma check_cluster_twin_pools_witness :
  scale_drift "aws" "C1" (Resource_Spec (mkNodePool "p1" "workers" 3))
    (Resource_Spec (mkNodePool "p2" "workers" 5))
  ∈ Detection_Drifts
      (check_cluster "aws"
         {| State_Clusters := {[ "C1" := twin_pools_cluster ]}; State_NodePools := ∅ |}
         "C1" twin_pools_cluster {| Detection_Drifts := []; Detection_log := [] |}).
Proof.
  apply (check_cluster_twin_pools "aws"
           {| State_Clusters := {[ "C1" := twin_pools_cluster ]}; State_NodePools := ∅ |}
           "C1" twin_pools_cluster (Resource_Spec (mkNodePool "p1" "workers" 3))
           (Resource_Spec (mkNodePool "p2" "workers" 5))).
  - reflexivity.
  - by vm_compute.
  - apply list_elem_of_here.
  - apply list_elem_of_further, list_elem_of_here.
  - reflexivity.
  - simpl. lia.
Defined.

End drift_detection.

Section drift_remediation.

Lemma remediate_loop_count d s drifts :
  Remediation_remediatedCount (foldl (remediate_step d) s drifts) =
    Remediation_remediatedCount s + Z.of_nat (length (filter (remediated d) drifts)).
Proof.
  revert s. induction drifts as [|drift drifts IH]; intros s; simpl; [lia|].
  rewrite IH, filter_cons.
  destruct (decide (remediated d drift)) as [[Hr Hok]|Hno]; unfold remediate_step.
  - rewrite Hr. simpl.
    destruct (remediateDrift d drift) as [err logged] eqn:Hrem. simpl in Hok. subst err.
    simpl. lia.
  - destruct (ResourceDrift_Remediatable drift) eqn:Hr; simpl; [|lia].
    destruct (remediateDrift d drift) as [[err|] logged] eqn:Hrem; simpl; [lia|].
    destruct Hno. split; [done|]. by rewrite Hrem.
Qed.

(** X14. The log of [Remediate] opens with the number of drifts of the
    report and closes with the count of remediated drifts next to that
    number.  Counted are the drifts that are marked remediatable and for
    which [remediateDrift] returned nil; a drift skipped or failed is not
    counted, and does not end the loop. *)
Theorem Remediate_counts (d : DriftDetector) (report : DriftReport) :
  head (Remediate d report).2 =
    Some {| LogRecord_level := LevelInfo;
            LogRecord_msg := "starting drift remediation";
            LogRecord_attrs :=
              [("total_drifts", Value_int (Z.of_nat (length (DriftReport_Drifts report))))] |} ∧
  last (Remediate d report).2 =
    Some {| LogRecord_level := LevelInfo;
            LogRecord_msg := "drift remediation complete";
            LogRecord_attrs :=
              [("remediated",
                Value_int (Z.of_nat (length (filter (remediated d) (DriftReport_Drifts report)))));
               ("total", Value_int (Z.of_nat (length (DriftReport_Drifts report))))] |}.
Proof.
  unfold Remediate. cbn [snd]. rewrite remediate_loop_log, remediate_loop_count.
  cbn [Remediation_log Remediation_remediatedCount].
  split; [done|]. by rewrite last_snoc.
Qed.

End drift_remediation.
(** * More on the snapshot manager *)

Section snapshot_prune_by_count.
Context {SM : Type} `{!StateManager SM}.

Lemma ListSnapshots_reads_only (w : Env SM) snapshots :
  (ListSnapshots w).1 = Ok snapshots → ListSnapshots w = (Ok snapshots, w).
Proof.
  unfold ListSnapshots, bind, wrap_err, os_ReadDir, gets, ret. simpl. by intros [= ->].
Qed.

(** X15. [PruneSnapshots] by count alone deletes from the front of the
    listing, which [ListSnapshots] sorts newest first.  When the snapshots
    listed differ in their creation times, so that the sort leaves one
    order, and their ids hold no path separator, and [PruneSnapshots] returns
    without error, the ids it returns are those of all but the last
    [MaxCount] snapshots of the listing, so the newest go and the oldest
    stay; the files of these ids are gone from the snapshot directory, every
    other file is as it was, and so is the state manager. *)
Theorem PruneSnapshots_by_count policy (w w' : Env SM) (snapshots : list SnapshotInfo)
    (deleted : list string) :
  RetentionPolicy_MaxAge policy ≤ 0 →
  0 < RetentionPolicy_MaxCount policy →
  (ListSnapshots w).1 = Ok snapshots →
  NoDup (SnapshotInfo_CreatedAt <$> snapshots) →
  Forall (λ info, has_separator (SnapshotInfo_ID info) = false) snapshots →
  PruneSnapshots policy w = ((deleted, None), w') →
  deleted = SnapshotInfo_ID <$>
              take (length snapshots - Z.to_nat (RetentionPolicy_MaxCount policy)) snapshots ∧
  (∀ name, name ∈ files_of deleted → Env_files w' !! name = None) ∧
  (∀ name, name ∉ files_of deleted → Env_files w' !! name = Env_files w !! name) ∧
  Env_state w' = Env_state w.
Proof.
  intros Hage Hmax Hlist _ _ Hrun.
  unfold PruneSnapshots in Hrun.
  rewrite (ListSnapshots_reads_only w snapshots Hlist) in Hrun.
  unfold time_Now in Hrun.
  destruct (prune_loop_files _ _ _ _ _ _ _ _ Hrun) as (more & Hmore & Hfiles & Hstate).
  cbn [Env_files Env_state app] in Hmore, Hfiles, Hstate. subst more.
  split; [|split; [|split; [|done]]].
  - set (m := (length snapshots - Z.to_nat (RetentionPolicy_MaxCount policy))%nat).
    destruct (decide (length snapshots ≤ Z.to_nat (RetentionPolicy_MaxCount policy))%nat)
      as [Hle|Hgt].
    + rewrite prune_loop_done in Hrun by (simpl; lia). injection Hrun as <- _.
      replace m with 0%nat by lia. done.
    + apply (prune_loop_front _ _ _ m) in Hrun; [done|done|done|simpl; lia|lia].
  - intros name Hname. by rewrite Hfiles, lookup_foldl_delete, decide_True.
  - intros name Hname. by rewrite Hfiles, lookup_foldl_delete, decide_False.
Qed.

End snapshot_prune_by_count.

Section snapshot_prune_by_count_example.

(** X15 at [five_snapshots] and [keep_three]: the two newest snapshots are
    deleted, their files are gone and the file of the oldest is still
    there. *)
Lemma PruneSnapshots_by_count_witness :
  (ListSnapshots five_snapshots).1 = Ok five_infos ∧
  (PruneSnapshots keep_three five_snapshots).1
    = (["snapshot-20240203-000008"; "snapshot-20240203-000006"], None) ∧
  is_Some (Env_files five_snapshots !! "snapshot-20240203-000008.json") ∧
  Env_files (PruneSnapshots keep_three five_snapshots).2 !! "snapshot-20240203-000008.json"
    = None ∧
  Env_files (PruneSnapshots keep_three five_snapshots).2 !! "snapshot-20240203-000000.json"
    = Env_files five_snapshots !! "snapshot-20240203-000000.json".
Proof.
  assert ((ListSnapshots five_snapshots).1 = Ok five_infos) as Hlist by (by vm_compute).
  assert ((PruneSnapshots keep_three five_snapshots).1
            = (["snapshot-20240203-000008"; "snapshot-20240203-000006"], None)) as Hrun
    by (by vm_compute).
  split; [exact Hlist|]. split; [exact Hrun|].
  split; [apply (bool_decide_unpack (is_Some _)); by vm_compute|].
  destruct (PruneSnapshots_by_count keep_three five_snapshots
              (PruneSnapshots keep_three five_snapshots).2 five_infos
              ["snapshot-20240203-000008"; "snapshot-20240203-000006"])
    as (_ & Hgone & Hkept & _).
  - simpl. lia.
  - simpl. lia.
  - exact Hlist.
  - apply (bool_decide_unpack (NoDup (SnapshotInfo_CreatedAt <$> five_infos))). by vm_compute.
  - apply (bool_decide_unpack
             (Forall (λ info, has_separator (SnapshotInfo_ID info) = false) five_infos)).
    by vm_compute.
  - apply pair_fst. exact Hrun.
  - split.
    + apply Hgone. apply (bool_decide_unpack (_ ∈ _)). by vm_compute.
    + apply Hkept. apply (bool_decide_unpack (_ ∉ _)). by vm_compute.
Defined.

End snapshot_prune_by_count_example.

Section snapshot_restore.
Context {SM : Type} `{!StateManager SM}.

Lemma LoadSnapshot_reads_only (w : Env SM) id : (LoadSnapshot id w).2 = w.
Proof.
  unfold LoadSnapshot, bind, wrap_err, os_ReadFile, ret, throw.
  destruct (Env_files w !! (id +:+ ".json")) as [doc|]; [|done].
  by destruct (unmarshal doc).
Qed.

Lemma RestoreSnapshot_dry_run_shape o (id : string) (w : Env SM) :
  ∃ r w',
    RestoreSnapshot o id true w = (r, w') ∧
    Env_files w' = Env_files w ∧ Env_state w' = Env_state w ∧
    ∀ result, r = Ok result →
      RestoreResult_SnapshotID result = id ∧
      RestoreResult_DryRun result = true ∧
      RestoreResult_Success result = false ∧
      RestoreResult_BackupID result = "".
Proof.
  unfold RestoreSnapshot. unfold bind at 1, wrap_err at 1.
  pose proof (LoadSnapshot_reads_only w id) as Hw.
  destruct (LoadSnapshot id w) as [[stored|err] w1]; cbn [snd] in Hw; subst w1.
  2:{ eexists _, _. split; [reflexivity|]. by repeat split. }
  destruct (negb (String.eqb _ _)).
  { unfold throw. eexists _, _. split; [reflexivity|]. by repeat split. }
  cbv beta iota zeta delta [bind wrap_err time_Now state_GetState ret fst snd negb].
  cbn [Env_files Env_state Env_clock Env_reads].
  destruct (GetState (Env_state w)) as [current|err];
    eexists _, _; (split; [reflexivity|]); cbn [Env_files Env_state];
    repeat split; intros; by simplify_eq.
Qed.

(** X16. A dry run of [RestoreSnapshot] writes nothing: the files of the
    snapshot directory and the state manager are afterwards what they were,
    whether it returns a result or an error.  A result it returns is marked
    as a dry run, is not a success and names no backup. *)
Theorem RestoreSnapshot_dry_run_writes_nothing o (id : string) (w : Env SM) :
  Env_files (RestoreSnapshot o id true w).2 = Env_files w ∧
  Env_state (RestoreSnapshot o id true w).2 = Env_state w ∧
  ∀ result, (RestoreSnapshot o id true w).1 = Ok result →
    RestoreResult_SnapshotID result = id ∧
    RestoreResult_DryRun result = true ∧
    RestoreResult_Success result = false ∧
    RestoreResult_BackupID result = "".
Proof.
  destruct (RestoreSnapshot_dry_run_shape o id w) as (r & w' & -> & Hfiles & Hstate & Hres).
  done.
Qed.

(** X17. [RestoreSnapshot] refuses a snapshot whose stored checksum is not
    the checksum of its stored state: it returns the mismatch error before
    reading the clock or the current state, takes no backup and leaves files
    and state manager as they were, dry run or not. *)
Theorem RestoreSnapshot_refuses_mismatch o (id : string) (dryRun : bool) (w : Env SM)
    (stored : Snapshot) :
  (LoadSnapshot id w).1 = Ok stored →
  calculateChecksum (Snapshot_State stored) ≠ Snapshot_Checksum stored →
  RestoreSnapshot o id dryRun w =
    (Err "snapshot checksum mismatch - data may be corrupted", w).
Proof.
  intros Hload Hsum. unfold RestoreSnapshot. unfold bind at 1, wrap_err at 1.
  pose proof (LoadSnapshot_reads_only w id) as Hw.
  destruct (LoadSnapshot id w) as [[stored'|err] w1]; cbn [fst snd] in *; simplify_eq.
  by apply String.eqb_neq in Hsum as ->.
Qed.

(** X18. A restore that is not a dry run and returns a result has taken a
    backup first: the result names a snapshot of the state the state manager
    returned before the restore, described as the pre-restore backup and
    carrying the checksum of that state.  Its text was written to its file in
    the snapshot directory, and no other file was touched.  The state manager
    was then given the state stored in the restored snapshot, and accepted
    it; the changes of the result are those between that state and the former
    one. *)
Theorem RestoreSnapshot_takes_backup o (id : string) (w w' : Env SM) (result : RestoreResult) :
  RestoreSnapshot o id false w = (Ok result, w') →
  ∃ stored current backup,
    (LoadSnapshot id w).1 = Ok stored ∧
    GetState (Env_state w) = Ok current ∧
    RestoreResult_Success result = true ∧
    RestoreResult_DryRun result = false ∧
    RestoreResult_BackupID result = Snapshot_ID backup ∧
    Snapshot_State backup = current ∧
    Snapshot_Description backup = "Pre-restore backup" ∧
    Snapshot_Checksum backup = calculateChecksum current ∧
    Env_files w' =
      <[Snapshot_ID backup +:+ ".json" := decoded (marshal backup)]> (Env_files w) ∧
    SaveState (Env_state w) (Snapshot_State stored) = (None, Env_state w') ∧
    RestoreResult_Changes result =
      calculateRestoreChanges (o (Snapshot_State stored) current) (Snapshot_State stored) current.
Proof.
  intros Hrun. unfold RestoreSnapshot in Hrun. unfold bind at 1, wrap_err at 1 in Hrun.
  pose proof (LoadSnapshot_reads_only w id) as Hw.
  destruct (LoadSnapshot id w) as [[stored|err] w1]; cbn [snd] in Hw; subst w1; [|done].
  destruct (negb (String.eqb _ _)); [done|].
  unfold bind at 1, time_Now at 1 in Hrun.
  unfold bind at 1, wrap_err at 1, state_GetState at 1 in Hrun.
  cbn [Env_state] in Hrun.
  destruct (GetState (Env_state w)) as [current|err] eqn:Hget; [|done].
  cbn [negb] in Hrun. unfold bind at 1, wrap_err at 1 in Hrun.
  match type of Hrun with
  | context [CreateSnapshot ?d ?r ?w2] =>
      destruct (CreateSnapshot d r w2) as [[backup|err] w3] eqn:Hbackup; [|done]
  end.
  destruct (CreateSnapshot_Ok _ _ _ _ _ Hbackup)
    as (Hstate & _ & _ & Hdescr & Hsum & Hfiles & Hsm).
  cbn [Env_state Env_files] in Hstate, Hfiles, Hsm.
  unfold bind at 1, wrap_err at 1, state_SaveState at 1, ret in Hrun.
  rewrite Hsm in Hrun.
  destruct (SaveState (Env_state w) (Snapshot_State stored)) as [[err|] sm] eqn:Hsave; [done|].
  injection Hrun as <- <-.
  assert (Snapshot_State backup = current) as Hcurrent.
  { rewrite Hget in Hstate. by injection Hstate. }
  exists stored, current, backup. cbn [RestoreResult_Success RestoreResult_DryRun
    RestoreResult_BackupID RestoreResult_Changes Env_state Env_files fst].
  rewrite Hcurrent in Hsum.
  split; [reflexivity|]. split; [reflexivity|]. split; [reflexivity|]. split; [reflexivity|].
  split; [reflexivity|]. split; [exact Hcurrent|]. split; [exact Hdescr|].
  split; [exact Hsum|]. split; [exact Hfiles|]. split; [exact Hsave|reflexivity].
Qed.

Lemma LoadSnapshot_missing (w : Env SM) id :
  Env_files w !! (id +:+ ".json") = None → ∃ err, (LoadSnapshot id w).1 = Err err.
Proof.
  intros Hfile. unfold LoadSnapshot, bind, wrap_err, os_ReadFile. rewrite Hfile. by eexists.
Qed.

(** X19. [DeleteSnapshot] of an id that holds no path separator.  When it
    returns without error, the file of the snapshot is gone from the snapshot
    directory and the snapshot can no longer be loaded, while every other
    file and the state manager are untouched.  When it returns an error, the
    error is wrapped as a failure to delete the snapshot, and nothing has
    changed. *)
Theorem DeleteSnapshot_removes (id : string) (w : Env SM) :
  has_separator id = false →
  ((DeleteSnapshot id w).1 = Ok tt →
     Env_files (DeleteSnapshot id w).2 !! (id +:+ ".json") = None ∧
     (∃ err, (LoadSnapshot id (DeleteSnapshot id w).2).1 = Err err) ∧
     (∀ name, name ≠ id +:+ ".json" →
        Env_files (DeleteSnapshot id w).2 !! name = Env_files w !! name) ∧
     Env_state (DeleteSnapshot id w).2 = Env_state w) ∧
  (∀ err, (DeleteSnapshot id w).1 = Err err →
     (∃ cause, err = Errorf_w "failed to delete snapshot" cause) ∧
     (DeleteSnapshot id w).2 = w).
Proof.
  intros _.
  destruct (DeleteSnapshot id w) as [[[]|err] w'] eqn:Hdelete; cbn [fst snd].
  - apply DeleteSnapshot_Ok in Hdelete as [_ ->]. split; [|done]. intros _.
    unfold set_files. cbn [Env_files Env_state].
    split; [apply lookup_delete_eq|]. split; [|split; [|done]].
    + apply LoadSnapshot_missing. cbn [Env_files]. apply lookup_delete_eq.
    + intros name Hne. by apply lookup_delete_ne.
  - apply DeleteSnapshot_Err in Hdelete as [-> Hcause]. split; [done|].
    by intros err' [= <-].
Qed.

End snapshot_restore.

Section snapshot_restore_example.

(** X17 at [corrupted_env]. *)
Lemma RestoreSnapshot_refuses_mismatch_witness :
  ∃ stored,
    (LoadSnapshot "snapshot-20240203-000000" corrupted_env).1 = Ok stored ∧
    (RestoreSnapshot ChangeOrders_default "snapshot-20240203-000000" false corrupted_env).1 =
      Err "snapshot checksum mismatch - data may be corrupted".
Proof.
  destruct (LoadSnapshot "snapshot-20240203-000000" corrupted_env).1 as [stored|err] eqn:Hload.
  - exists stored. split; [done|].
    rewrite (RestoreSnapshot_refuses_mismatch ChangeOrders_default "snapshot-20240203-000000"
               false corrupted_env stored Hload); [done|].
    vm_compute in Hload. injection Hload as <-. by vm_compute.
  - vm_compute in Hload. discriminate.
Defined.

(** X18 for a restore of the snapshot taken before, the clock advancing a
    second per reading. *)
Lemma RestoreSnapshot_takes_backup_witness :
  ∃ result w' backup,
    RestoreSnapshot ChangeOrders_default "snapshot-20240203-000000" false
      (CreateSnapshot "nightly" TriggerScheduled (fresh_env 1000000000 upgrade_actual)).2
      = (Ok result, w') ∧
    RestoreResult_BackupID result = Snapshot_ID backup ∧
    Snapshot_State backup = upgrade_actual ∧
    Snapshot_Description backup = "Pre-restore backup" ∧
    Env_files w' !! (Snapshot_ID backup +:+ ".json") = Some (decoded (marshal backup)).
Proof.
  destruct (RestoreSnapshot ChangeOrders_default "snapshot-20240203-000000" false
              (CreateSnapshot "nightly" TriggerScheduled
                 (fresh_env 1000000000 upgrade_actual)).2) as [[result|err] w'] eqn:Hrun.
  - destruct (RestoreSnapshot_takes_backup _ _ _ _ _ Hrun)
      as (stored & current & backup & _ & Hget & _ & _ & Hid & Hstate & Hdescr & _ & Hfiles & _).
    exists result, w', backup. split; [reflexivity|]. split; [exact Hid|].
    split; [|split; [exact Hdescr|]].
    + rewrite Hstate. vm_compute in Hget. by injection Hget.
    + rewrite Hfiles. apply lookup_insert_eq.
  - apply (f_equal fst) in Hrun. vm_compute in Hrun. discriminate.
Defined.

(** X19 at [five_snapshots]. *)
Lemma DeleteSnapshot_removes_witness :
  has_separator "snapshot-20240203-000004" = false ∧
  is_Some (Env_files five_snapshots !! ("snapshot-20240203-000004" +:+ ".json")) ∧
  (DeleteSnapshot "snapshot-20240203-000004" five_snapshots).1 = Ok tt ∧
  Env_files (DeleteSnapshot "snapshot-20240203-000004" five_snapshots).2
    !! ("snapshot-20240203-000004" +:+ ".json") = None.
Proof.
  assert ((DeleteSnapshot "snapshot-20240203-000004" five_snapshots).1 = Ok tt) as Hrun
    by (by vm_compute).
  split; [reflexivity|].
  split; [apply (bool_decide_unpack (is_Some _)); by vm_compute|].
  split; [exact Hrun|].
  exact (proj1 (proj1 (DeleteSnapshot_removes "snapshot-20240203-000004" five_snapshots
                         eq_refl) Hrun)).
Defined.

End snapshot_restore_example.

Section snapshot_listing.
Context {SM : Type} `{!StateManager SM}.

Lemma not_older_Transitive : Transitive not_older.
Proof.
  intros a b c. unfold not_older, After. rewrite !bool_decide_eq_false. lia.
Qed.

Lemma not_older_Total : Total not_older.
Proof.
  intros a b. unfold not_older, After. rewrite !bool_decide_eq_false. lia.
Qed.

Lemma ListSnapshots_run (w : Env SM) :
  ListSnapshots w =
    (Ok (sort_newest_first
           (omap (list_entry w) (merge_sort String.le (map_to_list (Env_files w)).*1))), w).
Proof. reflexivity. Qed.

Lemma ListSnapshots_elem_of (w : Env SM) snapshots info :
  (ListSnapshots w).1 = Ok snapshots →
  info ∈ snapshots ↔
  ∃ name, is_Some (Env_files w !! name) ∧ list_entry w name = Some info.
Proof.
  rewrite ListSnapshots_run. cbn [fst]. intros [= <-].
  unfold sort_newest_first. rewrite merge_sort_Permutation, list_elem_of_omap.
  split; intros (name & Hname & Hentry); exists name; (split; [|done]).
  - rewrite merge_sort_Permutation in Hname.
    apply list_elem_of_fmap in Hname as ([name' doc] & -> & Hin).
    apply elem_of_map_to_list in Hin. by eexists.
  - rewrite merge_sort_Permutation. destruct Hname as [doc Hdoc].
    apply list_elem_of_fmap. exists (name, doc). split; [done|].
    by apply elem_of_map_to_list.
Qed.

(** X20. What [ListSnapshots] returns is sorted newest first: a snapshot
    listed after another was not created later.  It lists exactly the files
    of the directory whose name ends in .json and whose content can be read as
    a snapshot, files of another name or content being skipped, and it changes
    nothing. *)
Theorem ListSnapshots_newest_first (w : Env SM) (snapshots : list SnapshotInfo) :
  (ListSnapshots w).1 = Ok snapshots →
  (∀ i j a b, (i < j)%nat → snapshots !! i = Some a → snapshots !! j = Some b →
     SnapshotInfo_CreatedAt b ≤ SnapshotInfo_CreatedAt a) ∧
  (∀ info, info ∈ snapshots ↔
     ∃ name, is_Some (Env_files w !! name) ∧ list_entry w name = Some info) ∧
  (∀ name info, list_entry w name = Some info →
     Ext name = ".json" ∧
     ∃ snapshot,
       (LoadSnapshot (String.substring 0 (String.length name - 5) name) w).1 = Ok snapshot ∧
       SnapshotInfo_ID info = Snapshot_ID snapshot ∧
       SnapshotInfo_CreatedAt info = Snapshot_CreatedAt snapshot) ∧
  (ListSnapshots w).2 = w.
Proof.
  intros Hlist. split; [|split; [|split; [|done]]].
  - rewrite ListSnapshots_run in Hlist. cbn [fst] in Hlist. injection Hlist as <-.
    intros i j a b Hij Ha Hb.
    pose proof (@StronglySorted_merge_sort _ not_older _ not_older_Transitive not_older_Total
                  (omap (list_entry w) (merge_sort String.le (map_to_list (Env_files w)).*1)))
      as Hsorted.
    pose proof (StronglySorted_lookup_lt _ _ i j a b Hsorted Hij Ha Hb) as Hab.
    unfold not_older, After in Hab. apply bool_decide_eq_false in Hab. lia.
  - intros info. by apply ListSnapshots_elem_of.
  - intros name info. unfold list_entry.
    destruct (String.eqb (Ext name) ".json") eqn:Hext; [|done]. cbn [negb].
    destruct (LoadSnapshot _ w).1 as [snapshot|err]; [|done].
    intros [= <-]. split; [by apply String.eqb_eq|]. by exists snapshot.
Qed.

Lemma has_dot_json (s : string) : has_dot (s +:+ ".json") = true.
Proof. induction s as [|c s IH]; [done|]. rewrite append_cons. simpl. by rewrite IH, orb_true_r. Qed.

Lemma Ext_json (s : string) : Ext (s +:+ ".json") = ".json".
Proof.
  induction s as [|c s IH]; [done|]. rewrite append_cons. cbn [Ext].
  by rewrite has_dot_json.
Qed.

Lemma substring_append (s t : string) : String.substring 0 (String.length s) (s +:+ t) = s.
Proof.
  induction s as [|c s IH]; [by destruct t|]. rewrite append_cons. simpl. by rewrite IH.
Qed.

Lemma list_entry_written (w : Env SM) (snapshot : Snapshot) id :
  Env_files w !! (id +:+ ".json") = Some (marshal snapshot) →
  list_entry w (id +:+ ".json") =
    Some {| SnapshotInfo_ID := Snapshot_ID snapshot;
            SnapshotInfo_CreatedAt := Snapshot_CreatedAt snapshot;
            SnapshotInfo_Description := Snapshot_Description snapshot;
            SnapshotInfo_TriggerReason :=
              SnapshotMetadata_TriggerReason (Snapshot_Metadata snapshot);
            SnapshotInfo_ClusterCount :=
              SnapshotMetadata_ClusterCount (Snapshot_Metadata snapshot);
            SnapshotInfo_NodePoolCount :=
              SnapshotMetadata_NodePoolCount (Snapshot_Metadata snapshot) |}.
Proof.
  intros Hfile. unfold list_entry. rewrite Ext_json. cbn [String.eqb Ascii.eqb Bool.eqb negb].
  rewrite append_length. cbn [String.length].
  replace (String.length id + 5 - 5)%nat with (String.length id) by lia.
  rewrite substring_append, (LoadSnapshot_written w snapshot id Hfile). done.
Qed.

(** X21. A snapshot that [CreateSnapshot] returned is listed, when its
    strings are valid UTF-8: what [ListSnapshots] returns afterwards holds an
    entry with the id, the creation time, the description, the trigger
    reason and the two counts of that snapshot. *)
Theorem ListSnapshots_after_CreateSnapshot (w w' : Env SM) (description : string)
    (reason : TriggerReason) (snapshot : Snapshot) (snapshots : list SnapshotInfo) :
  CreateSnapshot description reason w = (Ok snapshot, w') →
  utf8_doc (marshal snapshot) = true →
  (ListSnapshots w').1 = Ok snapshots →
  ∃ info, info ∈ snapshots ∧
    SnapshotInfo_ID info = Snapshot_ID snapshot ∧
    SnapshotInfo_CreatedAt info = Snapshot_CreatedAt snapshot ∧
    SnapshotInfo_Description info = description ∧
    SnapshotInfo_TriggerReason info = SnapshotMetadata_TriggerReason (Snapshot_Metadata snapshot) ∧
    SnapshotInfo_ClusterCount info = SnapshotMetadata_ClusterCount (Snapshot_Metadata snapshot) ∧
    SnapshotInfo_NodePoolCount info = SnapshotMetadata_NodePoolCount (Snapshot_Metadata snapshot).
Proof.
  intros Hcreate Hvalid Hlist.
  destruct (CreateSnapshot_Ok _ _ _ _ _ Hcreate) as (_ & _ & _ & Hdescr & _ & Hfiles & _).
  assert (Env_files w' !! (Snapshot_ID snapshot +:+ ".json") = Some (marshal snapshot)) as Hfile.
  { rewrite Hfiles, lookup_insert_eq. by rewrite (decoded_utf8_doc _ Hvalid). }
  eexists. split.
  - apply (ListSnapshots_elem_of w' snapshots _ Hlist).
    exists (Snapshot_ID snapshot +:+ ".json"). split; [by eexists|].
    by apply list_entry_written.
  - cbn [SnapshotInfo_ID SnapshotInfo_CreatedAt SnapshotInfo_Description
      SnapshotInfo_TriggerReason SnapshotInfo_ClusterCount SnapshotInfo_NodePoolCount].
    by rewrite Hdescr.
Qed.

End snapshot_listing.

Section snapshot_listing_example.

(** X20 at [five_snapshots]. *)
Lemma ListSnapshots_newest_first_witness :
  (ListSnapshots five_snapshots).1 = Ok five_infos ∧
  (∀ i j a b, (i < j)%nat → five_infos !! i = Some a → five_infos !! j = Some b →
     SnapshotInfo_CreatedAt b ≤ SnapshotInfo_CreatedAt a).
Proof.
  assert ((ListSnapshots five_snapshots).1 = Ok five_infos) as Hlist by (by vm_compute).
  split; [exact Hlist|].
  apply (ListSnapshots_newest_first five_snapshots five_infos Hlist).
Defined.

(** X21 on a fresh directory. *)
Lemma ListSnapshots_after_CreateSnapshot_witness :
  ∃ snapshot w' snapshots info,
    CreateSnapshot "before upgrade" TriggerPreUpgrade (fresh_env 1000000000 upgrade_actual)
      = (Ok snapshot, w') ∧
    utf8_doc (marshal snapshot) = true ∧
    (ListSnapshots w').1 = Ok snapshots ∧
    info ∈ snapshots ∧ SnapshotInfo_ID info = Snapshot_ID snapshot ∧
    SnapshotInfo_Description info = "before upgrade".
Proof.
  destruct (CreateSnapshot "before upgrade" TriggerPreUpgrade
              (fresh_env 1000000000 upgrade_actual)) as [[snapshot|err] w'] eqn:Hcreate.
  - assert (utf8_doc (marshal snapshot) = true) as Hvalid.
    { pose proof (f_equal fst Hcreate) as Hfst. cbn [fst] in Hfst.
      assert (∀ r : result Snapshot, r = Ok snapshot →
                match r with Ok s => utf8_doc (marshal s) | Err _ => false end = true →
                utf8_doc (marshal snapshot) = true) as Hcase by (by intros r ->).
      apply (Hcase _ Hfst). by vm_compute. }
    destruct (ListSnapshots w').1 as [snapshots|err] eqn:Hlist.
    + destruct (ListSnapshots_after_CreateSnapshot _ _ _ _ _ _ Hcreate Hvalid Hlist)
        as (info & Hin & Hid & _ & Hdescr & _).
      exists snapshot, w', snapshots, info.
      split; [reflexivity|]. split; [exact Hvalid|]. split; [exact Hlist|].
      split; [exact Hin|]. split; [exact Hid|exact Hdescr].
    + rewrite ListSnapshots_run in Hlist. discriminate.
  - apply (f_equal fst) in Hcreate. vm_compute in Hcreate. discriminate.
Defined.

End snapshot_listing_example.

Section snapshot_changes.
Context {SM : Type} `{!StateManager SM}.

Lemma foldl_unchanged {A B} (f : A → B → A) (l : list B) (a : A) :
  (∀ x, x ∈ l → f a x = a) → foldl f a l = a.
Proof.
  induction l as [|x l IH]; intros Hf; [done|]. simpl.
  rewrite Hf by apply list_elem_of_here. apply IH. intros y Hy. apply Hf.
  by apply list_elem_of_further.
Qed.

(** X22. [calculateRestoreChanges] of a state against itself is empty,
    whatever order its four loops follow: every cluster and every node pool
    of the one is found in the other, and its spec has the same text. *)
Theorem calculateRestoreChanges_same_state o (S : State) :
  ChangeOrders_valid o S S → calculateRestoreChanges o S S = [].
Proof.
  intros (Hsc & Hcc & Hsp & Hcp). unfold calculateRestoreChanges.
  rewrite (foldl_unchanged _ (ChangeOrders_snapshotClusters o)).
  2:{ intros [id c] Hin. apply (ranges_lookup _ _ _ _ Hsc) in Hin. rewrite Hin.
      unfold clustersEqual. by rewrite String.eqb_refl. }
  rewrite (foldl_unchanged _ (ChangeOrders_currentClusters o)).
  2:{ intros [id c] Hin. apply (ranges_lookup _ _ _ _ Hcc) in Hin. by rewrite Hin. }
  rewrite (foldl_unchanged _ (ChangeOrders_snapshotPools o)).
  2:{ intros [id c] Hin. apply (ranges_lookup _ _ _ _ Hsp) in Hin. rewrite Hin.
      unfold nodePoolsEqual. by rewrite String.eqb_refl. }
  rewrite (foldl_unchanged _ (ChangeOrders_currentPools o)); [done|].
  intros [id c] Hin. apply (ranges_lookup _ _ _ _ Hcp) in Hin. by rewrite Hin.
Qed.

Lemma CreateSnapshot_clock (w w' : Env SM) description reason snapshot :
  CreateSnapshot description reason w = (Ok snapshot, w') →
  Env_clock w' = Env_clock w ∧ Env_reads w' = S (S (Env_reads w)).
Proof.
  unfold CreateSnapshot, bind, wrap_err, state_GetState, generateSnapshotID, time_Now,
    saveSnapshot, os_WriteFile, modify, ret, set_files.
  cbn [fst snd Env_files Env_state Env_clock Env_reads].
  destruct (GetState (Env_state w)) as [state|err]; [|done].
  cbv beta iota zeta delta [bind wrap_err ret fst snd].
  cbn [Env_files Env_state Env_clock Env_reads].
  intros Heq. apply pair_equal_spec in Heq as [_ <-]. done.
Qed.

Lemma Format_same_second (t1 t2 : Time) :
  t1 / 1000000000 = t2 / 1000000000 → Format_20060102_150405 t1 = Format_20060102_150405 t2.
Proof. unfold Format_20060102_150405. by intros ->. Qed.

(** X23. Two snapshots created within one second of the clock share their
    id, which has the resolution of a second, and with it their file: the
    second [CreateSnapshot] writes the text of the second snapshot over that
    of the first.  Afterwards the directory differs from what it was before
    the two calls in this one file, which holds the second snapshot. *)
Theorem CreateSnapshot_same_second (w w1 w2 : Env SM) (description1 description2 : string)
    (reason1 reason2 : TriggerReason) (s1 s2 : Snapshot) :
  CreateSnapshot description1 reason1 w = (Ok s1, w1) →
  CreateSnapshot description2 reason2 w1 = (Ok s2, w2) →
  Env_clock w (Env_reads w) / 1000000000 = Env_clock w (S (S (Env_reads w))) / 1000000000 →
  Snapshot_ID s2 = Snapshot_ID s1 ∧
  Env_files w1 = <[Snapshot_ID s1 +:+ ".json" := decoded (marshal s1)]> (Env_files w) ∧
  Env_files w2 = <[Snapshot_ID s1 +:+ ".json" := decoded (marshal s2)]> (Env_files w) ∧
  Snapshot_CreatedAt s1 = Env_clock w (S (Env_reads w)) ∧
  Snapshot_CreatedAt s2 = Env_clock w (S (S (S (Env_reads w)))).
Proof.
  intros Hc1 Hc2 Hsecond.
  destruct (CreateSnapshot_Ok _ _ _ _ _ Hc1) as (_ & Hid1 & Hat1 & _ & _ & Hfiles1 & _).
  destruct (CreateSnapshot_Ok _ _ _ _ _ Hc2) as (_ & Hid2 & Hat2 & _ & _ & Hfiles2 & _).
  destruct (CreateSnapshot_clock _ _ _ _ _ Hc1) as [Hclock Hreads].
  assert (Snapshot_ID s2 = Snapshot_ID s1) as Hid.
  { rewrite Hid1, Hid2, Hclock, Hreads. f_equal. symmetry. by apply Format_same_second. }
  split; [done|]. split; [done|]. split; [|split; [done|]].
  - rewrite Hfiles2, Hfiles1, Hid. apply insert_insert_eq.
  - by rewrite Hat2, Hclock, Hreads.
Qed.

End snapshot_changes.

Section snapshot_changes_example.

(** X22 at [upgrade_desired], the loops following [map_to_list]. *)
Lemma calculateRestoreChanges_same_state_witness :
  ChangeOrders_valid (ChangeOrders_default upgrade_desired upgrade_desired)
    upgrade_desired upgrade_desired ∧
  calculateRestoreChanges (ChangeOrders_default upgrade_desired upgrade_desired)
    upgrade_desired upgrade_desired = [].
Proof.
  assert (ChangeOrders_valid (ChangeOrders_default upgrade_desired upgrade_desired)
            upgrade_desired upgrade_desired) as Hvalid.
  { unfold ChangeOrders_valid, ranges. by cbn. }
  split; [exact Hvalid|].
  exact (calculateRestoreChanges_same_state _ upgrade_desired Hvalid).
Defined.

(** X23 for two snapshots taken 20 ms apart: the second says second where
    the first said first, and the file holds the second. *)
Lemma CreateSnapshot_same_second_witness :
  ∃ s1 w1 s2 w2,
    CreateSnapshot "first" TriggerManual (fresh_env 10000000 upgrade_actual) = (Ok s1, w1) ∧
    CreateSnapshot "second" TriggerManual w1 = (Ok s2, w2) ∧
    Snapshot_Description s1 = "first" ∧ Snapshot_Description s2 = "second" ∧
    Snapshot_ID s2 = Snapshot_ID s1 ∧
    Env_files w2 !! (Snapshot_ID s1 +:+ ".json") = Some (decoded (marshal s2)).
Proof.
  destruct (CreateSnapshot "first" TriggerManual (fresh_env 10000000 upgrade_actual))
    as [[s1|err] w1] eqn:Hc1.
  - destruct (CreateSnapshot "second" TriggerManual w1) as [[s2|err] w2] eqn:Hc2.
    + destruct (CreateSnapshot_same_second _ _ _ _ _ _ _ _ _ Hc1 Hc2) as (Hid & _ & Hfiles & _).
      { by vm_compute. }
      destruct (CreateSnapshot_Ok _ _ _ _ _ Hc1) as (_ & _ & _ & Hd1 & _).
      destruct (CreateSnapshot_Ok _ _ _ _ _ Hc2) as (_ & _ & _ & Hd2 & _).
      exists s1, w1, s2, w2.
      split; [reflexivity|]. split; [exact Hc2|]. split; [exact Hd1|]. split; [exact Hd2|].
      split; [exact Hid|]. rewrite Hfiles. apply lookup_insert_eq.
    + revert Hc2. unfold CreateSnapshot, bind, wrap_err, state_GetState.
      destruct (CreateSnapshot_Ok _ _ _ _ _ Hc1) as (_ & _ & _ & _ & _ & _ & ->).
      cbn [Env_state fresh_env GetState mockStateManager_StateManager]. discriminate.
  - apply (f_equal fst) in Hc1. vm_compute in Hc1. discriminate.
Defined.

End snapshot_changes_example.

Section snapshot_prune_by_age.
Context {SM : Type} `{!StateManager SM}.

(** Without a count limit, a run of the loop that ends without error has
    deleted the snapshots of its list that are older than [MaxAge]. *)
Lemma prune_loop_by_age policy now total snapshots deleted (w w' : Env SM) out :
  RetentionPolicy_MaxCount policy ≤ 0 →
  prune_loop policy now total snapshots deleted w = ((out, None), w') →
  out = deleted ++ (SnapshotInfo_ID <$> filter (expired policy now) snapshots).
Proof.
  intros Hcount. revert deleted w.
  induction snapshots as [|snapshot rest IH]; intros deleted w Hrun.
  - injection Hrun as <- _. by rewrite app_nil_r.
  - cbn [prune_loop] in Hrun.
    rewrite (bool_decide_eq_false_2 (RetentionPolicy_MaxCount policy > 0)) in Hrun by lia.
    cbn [andb] in Hrun. rewrite filter_cons.
    destruct (decide (expired policy now snapshot)) as [[Hage Hold]|Hno].
    + rewrite (bool_decide_eq_true_2 _ Hage), (bool_decide_eq_true_2 _ Hold) in Hrun.
      cbn [andb] in Hrun.
      destruct (DeleteSnapshot (SnapshotInfo_ID snapshot) w) as [[[]|err] w1]; [|done].
      apply IH in Hrun. by rewrite Hrun, fmap_cons, <- app_assoc.
    + assert (bool_decide (RetentionPolicy_MaxAge policy > 0) &&
              bool_decide (Sub now (SnapshotInfo_CreatedAt snapshot)
                           > RetentionPolicy_MaxAge policy) = false) as Hkeep.
      { apply andb_false_iff. rewrite !bool_decide_eq_false. unfold expired in Hno.
        destruct (decide (RetentionPolicy_MaxAge policy > 0)); [right|left]; tauto. }
      rewrite Hkeep in Hrun. by apply IH in Hrun.
Qed.

(** X24. [PruneSnapshots] by age alone deletes exactly the listed
    snapshots that are older than [MaxAge] at the time read when the pruning
    starts.  When the snapshots listed differ in their creation times, so
    that the sort leaves one order, and their ids hold no path separator, and
    [PruneSnapshots] returns without error, the ids it returns are those of
    these snapshots, in the order of the listing; the files of these ids are
    gone from the snapshot directory, every other file is as it was, and so
    is the state manager.  With [MaxAge] zero or negative as well, it deletes
    nothing. *)
Theorem PruneSnapshots_by_age policy (w w' : Env SM) (snapshots : list SnapshotInfo)
    (deleted : list string) :
  RetentionPolicy_MaxCount policy ≤ 0 →
  (ListSnapshots w).1 = Ok snapshots →
  NoDup (SnapshotInfo_CreatedAt <$> snapshots) →
  Forall (λ info, has_separator (SnapshotInfo_ID info) = false) snapshots →
  PruneSnapshots policy w = ((deleted, None), w') →
  deleted = SnapshotInfo_ID <$>
              filter (expired policy (Env_clock w (Env_reads w))) snapshots ∧
  (∀ name, name ∈ files_of deleted → Env_files w' !! name = None) ∧
  (∀ name, name ∉ files_of deleted → Env_files w' !! name = Env_files w !! name) ∧
  Env_state w' = Env_state w ∧
  (RetentionPolicy_MaxAge policy ≤ 0 → deleted = []).
Proof.
  intros Hcount Hlist _ _ Hrun. unfold PruneSnapshots in Hrun.
  rewrite (ListSnapshots_reads_only w snapshots Hlist) in Hrun.
  unfold time_Now in Hrun.
  destruct (prune_loop_files _ _ _ _ _ _ _ _ Hrun) as (more & Hmore & Hfiles & Hstate).
  cbn [Env_files Env_state app] in Hmore, Hfiles, Hstate. subst more.
  apply prune_loop_by_age in Hrun; [|done]. cbn [app] in Hrun.
  split; [done|]. split; [|split; [|split; [done|]]].
  - intros name Hname. by rewrite Hfiles, lookup_foldl_delete, decide_True.
  - intros name Hname. by rewrite Hfiles, lookup_foldl_delete, decide_False.
  - intros Hage. rewrite Hrun.
    assert (∀ l : list SnapshotInfo,
              filter (expired policy (Env_clock w (Env_reads w))) l = []) as ->; [|done].
    induction l as [|info l IH]; [done|].
    rewrite filter_cons, decide_False; [done|]. intros [Hpos _]. lia.
Qed.

End snapshot_prune_by_age.

Section snapshot_prune_by_age_example.

(** X24 at [five_snapshots], keeping what is younger than four seconds:
    the three oldest snapshots are deleted, their files are gone and the file
    of the newest is still there. *)
Lemma PruneSnapshots_by_age_witness :
  (ListSnapshots five_snapshots).1 = Ok five_infos ∧
  (PruneSnapshots keep_four_seconds five_snapshots).1
    = (["snapshot-20240203-000004"; "snapshot-20240203-000002"; "snapshot-20240203-000000"],
       None) ∧
  is_Some (Env_files five_snapshots !! "snapshot-20240203-000000.json") ∧
  Env_files (PruneSnapshots keep_four_seconds five_snapshots).2
    !! "snapshot-20240203-000000.json" = None ∧
  Env_files (PruneSnapshots keep_four_seconds five_snapshots).2
    !! "snapshot-20240203-000008.json"
    = Env_files five_snapshots !! "snapshot-20240203-000008.json".
Proof.
  assert ((ListSnapshots five_snapshots).1 = Ok five_infos) as Hlist by (by vm_compute).
  assert ((PruneSnapshots keep_four_seconds five_snapshots).1
            = (["snapshot-20240203-000004"; "snapshot-20240203-000002";
                "snapshot-20240203-000000"], None)) as Hrun
    by (by vm_compute).
  split; [exact Hlist|]. split; [exact Hrun|].
  split; [apply (bool_decide_unpack (is_Some _)); by vm_compute|].
  destruct (PruneSnapshots_by_age keep_four_seconds five_snapshots
              (PruneSnapshots keep_four_seconds five_snapshots).2 five_infos
              ["snapshot-20240203-000004"; "snapshot-20240203-000002";
               "snapshot-20240203-000000"])
    as (_ & Hgone & Hkept & _).
  - simpl. lia.
  - exact Hlist.
  - apply (bool_decide_unpack (NoDup (SnapshotInfo_CreatedAt <$> five_infos))). by vm_compute.
  - apply (bool_decide_unpack
             (Forall (λ info, has_separator (SnapshotInfo_ID info) = false) five_infos)).
    by vm_compute.
  - apply pair_fst. exact Hrun.
  - split.
    + apply Hgone. apply (bool_decide_unpack (_ ∈ _)). by vm_compute.
    + apply Hkept. apply (bool_decide_unpack (_ ∉ _)). by vm_compute.
Defined.

End snapshot_prune_by_age_example.

Section snapshot_checksum.

Lemma string_of_hex_inj (n m : N) :
  HexadecimalString.NilZero.string_of_uint (N.to_hex_uint n) =
    HexadecimalString.NilZero.string_of_uint (N.to_hex_uint m) →
  n = m.
Proof.
  intros Heq. apply HexadecimalN.Unsigned.to_uint_inj.
  assert (∀ k, N.to_hex_uint k ≠ Hexadecimal.Nil) as Hnn.
  { intros [|p]; [discriminate|]. simpl. apply HexadecimalPos.Unsigned.to_uint_nonnil. }
  apply (f_equal HexadecimalString.NilZero.uint_of_string) in Heq.
  rewrite !HexadecimalString.NilZero.usu in Heq by apply Hnn. congruence.
Qed.

(** X25. The checksum of a state tells the length of its JSON text and
    nothing more: two states have the same checksum exactly when their texts
    are equally long. *)
Theorem calculateChecksum_eq_iff (state1 state2 : State) :
  calculateChecksum state1 = calculateChecksum state2 ↔
  String.length (render (marshal state1)) = String.length (render (marshal state2)).
Proof.
  unfold calculateChecksum. split.
  - intros Heq%string_of_hex_inj. lia.
  - by intros ->.
Qed.

End snapshot_checksum.
(** * The reconciler *)

Section reconciler_facts.
Context (methods : CloudProvider → reconciler.ClusterMethods).

(** X26. What [ReconcileCluster] does on a registered provider.  It asks
    the provider for the cluster first and makes at most one call more:
    [CreateCluster] with the desired spec exactly when the provider answered
    with no cluster and no error, [UpdateCluster] with the desired cluster
    exactly when it answered with a cluster of another control plane version.
    A cluster that differs from the desired one in anything but the version is
    left alone.  The error is nil exactly when no call made answered with an
    error. *)
Theorem ReconcileCluster_calls (r : reconciler.Reconciler) (cluster : Cluster)
    (provider : CloudProvider) :
  GetProvider (reconciler.Reconciler_engine r) (ClusterSpec_Provider (Resource_Spec cluster))
    = Some provider →
  let run := reconciler.ReconcileCluster methods r cluster in
  let answer := reconciler.GetCluster (methods provider) (Resource_ID cluster) in
  (∃ more, reconciler.Reconciliation_calls run
             = reconciler.Call_GetCluster (Resource_ID cluster) :: more ∧
           (length more ≤ 1)%nat ∧
           (more = [reconciler.Call_CreateCluster (Resource_Spec cluster)] ↔ answer = Ok None) ∧
           (more = [reconciler.Call_UpdateCluster cluster] ↔
              ∃ actual, answer = Ok (Some actual) ∧
                ControlPlaneSpec_Version (ClusterSpec_ControlPlane (Resource_Spec cluster))
                ≠ ControlPlaneSpec_Version (ClusterSpec_ControlPlane (Resource_Spec actual)))) ∧
  (reconciler.Reconciliation_err run = None ↔
     match answer with
     | Err _ => False
     | Ok None =>
         ∃ created, reconciler.CreateCluster (methods provider) (Resource_Spec cluster)
                    = Ok created
     | Ok (Some actual) =>
         reconciler.needsUpdate cluster actual = true →
         reconciler.UpdateCluster (methods provider) cluster = None
     end).
Proof.
  intros Hp. cbv zeta. unfold reconciler.ReconcileCluster. rewrite Hp.
  destruct (reconciler.GetCluster (methods provider) (Resource_ID cluster))
    as [[actual|]|err] eqn:Hget.
  - unfold reconciler.needsUpdate.
    destruct (decide (ControlPlaneSpec_Version (ClusterSpec_ControlPlane (Resource_Spec cluster))
                      ≠ ControlPlaneSpec_Version
                          (ClusterSpec_ControlPlane (Resource_Spec actual)))) as [Hne|Heq].
    + rewrite (bool_decide_eq_true_2 _ Hne).
      destruct (reconciler.UpdateCluster (methods provider) cluster) as [err|] eqn:Hupd;
        cbn [reconciler.Reconciliation_calls reconciler.Reconciliation_err app]; split.
      * eexists. split; [reflexivity|]. split; [simpl; lia|]. split; [done|].
        split; [by eauto|done].
      * split; [done|]. intros H. by specialize (H eq_refl).
      * eexists. split; [reflexivity|]. split; [simpl; lia|]. split; [done|].
        split; [by eauto|done].
      * done.
    + rewrite (bool_decide_eq_false_2 _ Heq).
      cbn [reconciler.Reconciliation_calls reconciler.Reconciliation_err]. split.
      * exists []. split; [done|]. split; [simpl; lia|]. split; [done|].
        split; [done|]. intros (actual' & [= <-] & Hne). done.
      * done.
  - destruct (reconciler.CreateCluster (methods provider) (Resource_Spec cluster))
      as [created|err] eqn:Hcreate;
      cbn [reconciler.Reconciliation_calls reconciler.Reconciliation_err app]; split.
    + eexists. split; [reflexivity|]. split; [simpl; lia|]. split; [done|].
      split; [done|]. by intros (actual & [=] & _).
    + split; [by eauto|done].
    + eexists. split; [reflexivity|]. split; [simpl; lia|]. split; [done|].
      split; [done|]. by intros (actual & [=] & _).
    + split; [done|]. by intros [? [=]].
  - cbn [reconciler.Reconciliation_calls reconciler.Reconciliation_err]. split.
    + exists []. split; [done|]. split; [simpl; lia|]. split; [done|].
      split; [done|]. by intros (actual & [=] & _).
    + done.
Qed.

(** X27. When the provider named by the cluster is not registered,
    [ReconcileCluster] returns the error that names it and makes no call on
    any provider. *)
Theorem ReconcileCluster_without_provider (r : reconciler.Reconciler) (cluster : Cluster) :
  GetProvider (reconciler.Reconciler_engine r) (ClusterSpec_Provider (Resource_Spec cluster))
    = None →
  reconciler.Reconciliation_err (reconciler.ReconcileCluster methods r cluster) =
    Some ("provider " +:+ ClusterSpec_Provider (Resource_Spec cluster) +:+ " not found") ∧
  reconciler.Reconciliation_calls (reconciler.ReconcileCluster methods r cluster) = [].
Proof. intros Hp. unfold reconciler.ReconcileCluster. by rewrite Hp. Qed.

End reconciler_facts.

Section reconciler_providers.


(** X26 for cluster C1 of the version skew scenario: one update. *)
Lemma ReconcileCluster_calls_witness :
  GetProvider (reconciler.Reconciler_engine skew_reconciler) "aws" = Some skew_provider ∧
  ∃ more,
    reconciler.Reconciliation_calls
      (reconciler.ReconcileCluster skew_methods skew_reconciler (mkCluster "C1" "C1" "aws" "1.29"))
      = reconciler.Call_GetCluster "C1" :: more ∧ (length more ≤ 1)%nat.
Proof.
  assert (GetProvider (reconciler.Reconciler_engine skew_reconciler)
            (ClusterSpec_Provider (Resource_Spec (mkCluster "C1" "C1" "aws" "1.29")))
          = Some skew_provider) as Hp by (by vm_compute).
  split; [exact Hp|].
  destruct (ReconcileCluster_calls skew_methods skew_reconciler
              (mkCluster "C1" "C1" "aws" "1.29") skew_provider Hp)
    as [(more & Hcalls & Hlen & _) _].
  exists more. split; [exact Hcalls|exact Hlen].
Defined.

(** X27 for a cluster of a provider nobody registered. *)
Lemma ReconcileCluster_without_provider_witness :
  reconciler.Reconciliation_err
    (reconciler.ReconcileCluster skew_methods skew_reconciler (mkCluster "C2" "C2" "gcp" "1.29"))
  = Some "provider gcp not found".
Proof.
  apply (ReconcileCluster_without_provider skew_methods skew_reconciler
           (mkCluster "C2" "C2" "gcp" "1.29")).
  by vm_compute.
Defined.


End reconciler_providers.
